(** * The admin action registry and the speech helpers

    A shallow embedding of [src/services/actionRegistry.ts] (the
    [ActionRegistry] map, its helpers and the [adminTools] schema array)
    and of the speech module ([getAvailableVoices], [getCategorizedVoices],
    [speakText], [stopSpeech]).

    Asynchronous functions are embedded as trees of external operations
    ([Proc]): every call that leaves the module (database, document store,
    local storage, clock, random source, console) is a node [Vis], the
    continuation receives either the answer or the error the call was
    rejected with, and [try]/[catch] is a tree transformer.  An interpreter
    [run] executes a tree against a [World] holding the stores. *)

From Stdlib Require Import ZArith QArith Qround String Ascii List Lia.
From stdpp Require Import gmap strings list fin_maps pretty.

Set Warnings "-register-all".
#[local] Open Scope Z_scope.
#[local] Open Scope string_scope.
#[local] Open Scope list_scope.

(* ===================================================================== *)
(** ** JavaScript values *)
(* ===================================================================== *)

(** Records read from and written to the stores are plain JSON-like
    objects.  Numbers are integers here (ids, counts, amounts, epoch
    milliseconds); an object is a finite map from property names. *)
Inductive Value : Type :=
| VUndef
| VNull
| VBool (b : bool)
| VNum (n : Z)
| VStr (s : string)
| VArr (l : list Value)
| VObj (m : gmap string Value).

(** An [Error] object: constructor name and message. *)
Record Error := mkError { ename : string; message : string }.

Definition new_Error (msg : string) : Error := mkError "Error" msg.
Definition new_TypeError (msg : string) : Error := mkError "TypeError" msg.

(** JavaScript truthiness ([v || d], [if (v)], [!v]). *)
Definition truthy (v : Value) : bool :=
  match v with
  | VUndef | VNull => false
  | VBool b => b
  | VNum n => negb (Z.eqb n 0)
  | VStr s => negb (String.eqb s "")
  | VArr _ | VObj _ => true
  end.

(** [a || b] *)
Definition js_or (a b : Value) : Value := if truthy a then a else b.

(** String conversion, as done by template literals. *)
Fixpoint toString (v : Value) : string :=
  match v with
  | VUndef => "undefined"
  | VNull => "null"
  | VBool true => "true"
  | VBool false => "false"
  | VNum n => pretty n
  | VStr s => s
  | VArr l =>
      (fix join (l : list Value) : string :=
         match l with
         | [] => ""
         | x :: rest =>
             let sx := match x with VUndef | VNull => "" | _ => toString x end in
             match rest with
             | [] => sx
             | _ => sx +:+ "," +:+ join rest
             end
         end) l
  | VObj _ => "[object Object]"
  end.

(** The characters of a string, each as a one-character string. *)
Fixpoint chars (s : string) : list Value :=
  match s with
  | EmptyString => []
  | String c rest => VStr (String c EmptyString) :: chars rest
  end.

(** Index-keyed properties of an array-like list. *)
Definition indexed (l : list Value) : gmap string Value :=
  list_to_map (imap (λ (i : nat) x, (pretty i, x)) l).

(** Own enumerable properties, as copied by object spread [{...v}]. *)
Definition ownProps (v : Value) : gmap string Value :=
  match v with
  | VObj m => m
  | VArr l => indexed l
  | VStr s => indexed (chars s)
  | _ => ∅
  end.

(** [{...a, ...b}]: the properties of [b] replace those of [a]. *)
Definition spread2 (a b : gmap string Value) : gmap string Value := b ∪ a.

(** Property read [v.k] on a value that is neither [null] nor
    [undefined]. *)
Definition prop (v : Value) (k : string) : Value :=
  match v with
  | VObj m => default VUndef (m !! k)
  | VArr l =>
      if String.eqb k "length" then VNum (Z.of_nat (length l))
      else default VUndef (indexed l !! k)
  | VStr s =>
      if String.eqb k "length" then VNum (Z.of_nat (String.length s))
      else default VUndef (indexed (chars s) !! k)
  | _ => VUndef
  end.

(** Property read [v.k] on an arbitrary value: a [TypeError] on [null]
    and [undefined]. *)
Definition getProp (v : Value) (k : string) : Error + Value :=
  match v with
  | VUndef =>
      inl (new_TypeError ("Cannot read properties of undefined (reading '" +:+ k +:+ "')"))
  | VNull =>
      inl (new_TypeError ("Cannot read properties of null (reading '" +:+ k +:+ "')"))
  | _ => inr (prop v k)
  end.

(** Array spread [[...v]]: arrays and strings are iterable. *)
Definition iterate (v : Value) : Error + list Value :=
  match v with
  | VArr l => inr l
  | VStr s => inr (chars s)
  | _ => inl (new_TypeError (toString v +:+ " is not iterable"))
  end.

(** [s.charAt(i)]: the empty string out of range. *)
Definition charAt (s : string) (i : Z) : string :=
  if Z.ltb i 0 then ""
  else match String.get (Z.to_nat i) s with
       | Some c => String c EmptyString
       | None => ""
       end.

(** [toUpperCase] / [toLowerCase] on the ASCII letters. *)
Definition upper_ascii (c : ascii) : ascii :=
  let n := nat_of_ascii c in
  if (Nat.leb 97 n && Nat.leb n 122)%bool then ascii_of_nat (n - 32) else c.

Definition lower_ascii (c : ascii) : ascii :=
  let n := nat_of_ascii c in
  if (Nat.leb 65 n && Nat.leb n 90)%bool then ascii_of_nat (n + 32) else c.

Fixpoint map_string (f : ascii → ascii) (s : string) : string :=
  match s with
  | EmptyString => EmptyString
  | String c rest => String (f c) (map_string f rest)
  end.

Definition toUpperCase : string → string := map_string upper_ascii.
Definition toLowerCase : string → string := map_string lower_ascii.

(** [s.includes(needle)] *)
Fixpoint includes (s needle : string) : bool :=
  if String.prefix needle s then true
  else match s with
       | EmptyString => false
       | String _ rest => includes rest needle
       end.

(** [xs.join(sep)] on strings. *)
Fixpoint join (sep : string) (xs : list string) : string :=
  match xs with
  | [] => ""
  | [x] => x
  | x :: rest => x +:+ sep +:+ join sep rest
  end.

(* ===================================================================== *)
(** ** External operations *)
(* ===================================================================== *)

(** A Firestore query: [query(collection(db, c), orderBy(f, dir),
    limitToLast(n))]; a bare [collection(db, c)] has neither clause. *)
Record Query := mkQuery {
  q_collection : string;
  q_orderBy : option (string * string);
  q_limitToLast : option Z
}.

Definition collection (c : string) : Query := mkQuery c None None.

(** Every call that leaves the module. *)
Inductive Op : Type :=
(* firebase/database, on [ref(rtdb, path)] *)
| OGet (path : string)
| OSet (path : string) (v : Value)
| OUpdate (path : string) (patch : gmap string Value)
| ORemove (path : string)
(* firebase/firestore *)
| OGetDocs (q : Query)
| ODeleteDoc (coll id : string)
(* ../firebase *)
| OSaveUserToLive (u : Value)
| OSaveSystemSettings (s : Value)
| OSaveChapterData (key : string) (data : Value)
(* ./autoPilot *)
| ORunAutoPilotService (settings : Value)
(* [getChapterData], which the file neither imports nor defines *)
| OGetChapterData (key : string)
(* the platform *)
| ODateNow
| ODateGetDate (t : Z)
| ODateSetDate (t day : Z)
| ODateGetMonth (t : Z)
| ODateSetMonth (t month : Z)
| ODateToISOString (t : Z)
| ODateParse (v : Value)
| OMathRandom
| OLsGetItem (key : string)
| OLsSetItem (key value : string)
| OJsonParse (s : string)
| OJsonStringify (v : Value)
| OConsoleError (msg : string)
| OConsoleLog (msg : string).

(** What each operation answers when it succeeds. *)
Definition Resp (o : Op) : Type :=
  match o with
  | OGet _ | OGetChapterData _ | OJsonParse _ => Value
  | OGetDocs _ => list Value
  | ODateNow | ODateGetDate _ | ODateSetDate _ _
  | ODateGetMonth _ | ODateSetMonth _ _ => Z
  | ODateToISOString _ | OJsonStringify _ => string
  | ODateParse _ => option Z
  | OMathRandom => Q
  | OLsGetItem _ => option string
  | _ => unit
  end.

(** The calls that go to the remote service and return a promise. *)
Definition is_remote (o : Op) : bool :=
  match o with
  | OGet _ | OSet _ _ | OUpdate _ _ | ORemove _ | OGetDocs _ | ODeleteDoc _ _
  | OSaveUserToLive _ | OSaveSystemSettings _ | OSaveChapterData _ _
  | ORunAutoPilotService _ => true
  | _ => false
  end.

(** The calls that change a remote store when they succeed. *)
Definition is_write (o : Op) : bool :=
  match o with
  | OSet _ _ | OUpdate _ _ | ORemove _ | ODeleteDoc _ _
  | OSaveUserToLive _ | OSaveSystemSettings _ | OSaveChapterData _ _ => true
  | _ => false
  end.

(* ===================================================================== *)
(** ** Asynchronous computations *)
(* ===================================================================== *)

(** A computation returns, throws, or issues an operation and goes on
    with its answer ([inr]) or with the error it was rejected with
    ([inl]). *)
Inductive Proc (A : Type) : Type :=
| Ret (a : A)
| Throw (e : Error)
| Vis (o : Op) (k : Error + Resp o → Proc A).

Arguments Ret {A} a.
Arguments Throw {A} e.
Arguments Vis {A} o k.

Fixpoint bind {A B : Type} (p : Proc A) (f : A → Proc B) : Proc B :=
  match p with
  | Ret a => f a
  | Throw e => Throw e
  | Vis o k => Vis o (λ r, bind (k r) f)
  end.

#[export] Instance proc_ret : MRet Proc := @Ret.
#[export] Instance proc_bind : MBind Proc := λ A B f p, bind p f.
#[export] Instance proc_fmap : FMap Proc := λ A B f p, bind p (λ a, Ret (f a)).

(** [try { p } catch (e) { h e }] *)
Fixpoint try_catch {A : Type} (p : Proc A) (h : Error → Proc A) : Proc A :=
  match p with
  | Ret a => Ret a
  | Throw e => h e
  | Vis o k => Vis o (λ r, try_catch (k r) h)
  end.

(** [await o], and a synchronous platform call alike: a rejection is
    thrown at the call. *)
Definition call (o : Op) : Proc (Resp o) :=
  Vis o (λ r, match r with inl e => Throw e | inr x => Ret x end).

(** Lifting of a pure step that may throw. *)
Definition lift {A : Type} (r : Error + A) : Proc A :=
  match r with inl e => Throw e | inr a => Ret a end.

(** [xs.map(f)] and [xs.filter(f)] with a callback that may throw or
    call the platform. *)
Fixpoint mapM {A B : Type} (f : A → Proc B) (xs : list A) : Proc (list B) :=
  match xs with
  | [] => Ret []
  | x :: rest => y ← f x; ys ← mapM f rest; Ret (y :: ys)
  end.

Fixpoint filterM {A : Type} (f : A → Proc bool) (xs : list A) : Proc (list A) :=
  match xs with
  | [] => Ret []
  | x :: rest =>
      b ← f x; ys ← filterM f rest; Ret (if b : bool then x :: ys else ys)
  end.

(* ===================================================================== *)
(** ** The world the calls act on *)
(* ===================================================================== *)

(** The calendar and JSON functions of the platform.  They are pure; the
    development does not depend on what they compute. *)
Record Platform := mkPlatform {
  date_getDate : Z → Z;
  date_setDate : Z → Z → Z;
  date_getMonth : Z → Z;
  date_setMonth : Z → Z → Z;
  date_toISOString : Z → string;
  date_parse : Value → option Z;
  JSON_parse : string → option Value;
  JSON_stringify : Value → string
}.

Record World := mkWorld {
  (** realtime database: node path to value, an absent node reads [null] *)
  rtdb : gmap string Value;
  (** Firestore collection [users]: document id and data, in query order *)
  users_docs : list (string * Value);
  (** Firestore collection [ai_interactions], newest first *)
  ai_interactions : list Value;
  (** chapter data written by [saveChapterData] *)
  chapters : gmap string Value;
  localStorage : gmap string string;
  (** current epoch milliseconds, and the time that passes before each of
      the next clock reads *)
  now : Z;
  ticks : list Z;
  (** the next results of [Math.random()] *)
  rng : list Q;
  (** the fate of the next remote calls: [Some e] rejects with [e] *)
  faults : list (option Error);
  platform : Platform;
  console : list string;
  (** the operations issued so far, oldest first *)
  log : list Op
}.

Definition set_rtdb (f : gmap string Value → gmap string Value) (w : World) : World :=
  mkWorld (f (rtdb w)) (users_docs w) (ai_interactions w) (chapters w)
    (localStorage w) (now w) (ticks w) (rng w) (faults w) (platform w)
    (console w) (log w).

Definition set_users_docs (d : list (string * Value)) (w : World) : World :=
  mkWorld (rtdb w) d (ai_interactions w) (chapters w)
    (localStorage w) (now w) (ticks w) (rng w) (faults w) (platform w)
    (console w) (log w).

Definition set_chapters (c : gmap string Value) (w : World) : World :=
  mkWorld (rtdb w) (users_docs w) (ai_interactions w) c
    (localStorage w) (now w) (ticks w) (rng w) (faults w) (platform w)
    (console w) (log w).

Definition set_localStorage (l : gmap string string) (w : World) : World :=
  mkWorld (rtdb w) (users_docs w) (ai_interactions w) (chapters w)
    l (now w) (ticks w) (rng w) (faults w) (platform w)
    (console w) (log w).

Definition set_clock (t : Z) (ts : list Z) (w : World) : World :=
  mkWorld (rtdb w) (users_docs w) (ai_interactions w) (chapters w)
    (localStorage w) t ts (rng w) (faults w) (platform w)
    (console w) (log w).

Definition set_rng (r : list Q) (w : World) : World :=
  mkWorld (rtdb w) (users_docs w) (ai_interactions w) (chapters w)
    (localStorage w) (now w) (ticks w) r (faults w) (platform w)
    (console w) (log w).

Definition set_faults (f : list (option Error)) (w : World) : World :=
  mkWorld (rtdb w) (users_docs w) (ai_interactions w) (chapters w)
    (localStorage w) (now w) (ticks w) (rng w) f (platform w)
    (console w) (log w).

Definition set_console (c : list string) (w : World) : World :=
  mkWorld (rtdb w) (users_docs w) (ai_interactions w) (chapters w)
    (localStorage w) (now w) (ticks w) (rng w) (faults w) (platform w)
    c (log w).

Definition set_log (l : list Op) (w : World) : World :=
  mkWorld (rtdb w) (users_docs w) (ai_interactions w) (chapters w)
    (localStorage w) (now w) (ticks w) (rng w) (faults w) (platform w)
    (console w) l.

Definition user_path (userId : string) : string := "users/" +:+ userId.

(** Modelled from the spec: [saveUserToLive] is imported from
    [../firebase], which is not among the sources.  The spec describes the
    step as "write back" and "persist": the record is stored at the
    realtime node it is read from, [users/<id>], [id] being the record's
    own [id]. *)
Definition saveUserToLive (u : Value) (w : World) : World :=
  set_rtdb (insert (user_path (toString (prop u "id"))) u) w.

(** Modelled from the spec: [saveSystemSettings] is imported from
    [../firebase], which is not among the sources.  The spec describes the
    step as "write back": the record replaces the node [system_settings]
    that [getSettings] reads. *)
Definition saveSystemSettings (s : Value) (w : World) : World :=
  set_rtdb (insert "system_settings" s) w.

(** Modelled from the spec: [saveChapterData] is imported from
    [../firebase], which is not among the sources.  The spec describes the
    step as "persist": the data is stored under its key. *)
Definition saveChapterData (key : string) (data : Value) (w : World) : World :=
  set_chapters (<[key := data]> (chapters w)) w.

(** [set(ref, v)]: writing [null] removes the node. *)
Definition rtdb_set (path : string) (v : Value) (m : gmap string Value)
  : gmap string Value :=
  match v with
  | VNull => delete path m
  | _ => <[path := v]> m
  end.

(** The children of a node, for [update(ref, patch)]. *)
Definition children (v : Value) : gmap string Value :=
  match v with
  | VObj m => m
  | VArr l => indexed l
  | _ => ∅
  end.

Definition rtdb_update (path : string) (patch : gmap string Value)
    (m : gmap string Value) : gmap string Value :=
  <[path := VObj (patch ∪ children (default VNull (m !! path)))]> m.

(** [limitToLast(n)]: the last [n] documents of the ordered result. *)
Definition take_last {A : Type} (n : Z) (l : list A) : list A :=
  drop (length l - Z.to_nat n) l.

Definition run_query (q : Query) (w : World) : Error + list Value :=
  let docs :=
    if String.eqb (q_collection q) "users" then snd <$> users_docs w
    else if String.eqb (q_collection q) "ai_interactions" then ai_interactions w
    else [] in
  match q_limitToLast q with
  | None => inr docs
  | Some n =>
      if Z.leb n 0
      then inl (mkError "FirebaseError"
                  "Invalid Query. Query limitToLast must be positive.")
      else inr (take_last n docs)
  end.

(** A remote call consumes the next entry of [faults]; when it is not
    rejected it acts on the world. *)
Definition remote {X : Type} (w : World) (act : World → X * World)
  : (Error + X) * World :=
  let w1 := set_faults (tl (faults w)) w in
  match hd None (faults w) with
  | Some e => (inl e, w1)
  | None => let '(x, w') := act w1 in (inr x, w')
  end.

Definition pure_op {X : Type} (x : X) (w : World) : (Error + X) * World :=
  (inr x, w).

Definition perform (o : Op) (w : World) : (Error + Resp o) * World :=
  match o as o' return (Error + Resp o') * World with
  | OGet path =>
      remote w (λ w, (default VNull (rtdb w !! path), w))
  | OSet path v =>
      remote w (λ w, (tt, set_rtdb (rtdb_set path v) w))
  | OUpdate path patch =>
      remote w (λ w, (tt, set_rtdb (rtdb_update path patch) w))
  | ORemove path =>
      remote w (λ w, (tt, set_rtdb (delete path) w))
  | OGetDocs q =>
      match run_query q w with
      | inl e => (inl e, w)
      | inr docs => remote w (λ w, (docs, w))
      end
  | ODeleteDoc coll id =>
      remote w (λ w,
        (tt, if String.eqb coll "users"
             then set_users_docs
                    (filter (λ d, d.1 ≠ id) (users_docs w)) w
             else w))
  | OSaveUserToLive u => remote w (λ w, (tt, saveUserToLive u w))
  | OSaveSystemSettings s => remote w (λ w, (tt, saveSystemSettings s w))
  | OSaveChapterData key data =>
      remote w (λ w, (tt, saveChapterData key data w))
  | ORunAutoPilotService _ => remote w (λ w, (tt, w))
  | OGetChapterData _ =>
      (inl (mkError "ReferenceError" "getChapterData is not defined"), w)
  | ODateNow =>
      let t := now w + Z.max 0 (hd 0 (ticks w)) in
      (inr t, set_clock t (tl (ticks w)) w)
  | ODateGetDate t => pure_op (date_getDate (platform w) t) w
  | ODateSetDate t d => pure_op (date_setDate (platform w) t d) w
  | ODateGetMonth t => pure_op (date_getMonth (platform w) t) w
  | ODateSetMonth t m => pure_op (date_setMonth (platform w) t m) w
  | ODateToISOString t => pure_op (date_toISOString (platform w) t) w
  | ODateParse v => pure_op (date_parse (platform w) v) w
  | OMathRandom => (inr (hd 0%Q (rng w)), set_rng (tl (rng w)) w)
  | OLsGetItem key => pure_op (localStorage w !! key) w
  | OLsSetItem key value =>
      (inr tt, set_localStorage (<[key := value]> (localStorage w)) w)
  | OJsonParse s =>
      match JSON_parse (platform w) s with
      | Some v => (inr v, w)
      | None => (inl (mkError "SyntaxError" "Unexpected token in JSON"), w)
      end
  | OJsonStringify v => pure_op (JSON_stringify (platform w) v) w
  | OConsoleError msg => (inr tt, set_console (console w ++ [msg]) w)
  | OConsoleLog msg => (inr tt, set_console (console w ++ [msg]) w)
  end.

Inductive Outcome (A : Type) : Type :=
| Returned (a : A)
| Thrown (e : Error).

Arguments Returned {A} a.
Arguments Thrown {A} e.

(** Execution: each operation is recorded in the log, then performed. *)
Fixpoint run {A : Type} (p : Proc A) (w : World) : Outcome A * World :=
  match p with
  | Ret a => (Returned a, w)
  | Throw e => (Thrown e, w)
  | Vis o k =>
      let '(r, w') := perform o (set_log (log w ++ [o]) w) in
      run (k r) w'
  end.

(** The operations under their source names, with their answer types. *)
Definition get (path : string) : Proc Value := call (OGet path).
Definition set (path : string) (v : Value) : Proc unit := call (OSet path v).
Definition update (path : string) (patch : gmap string Value) : Proc unit :=
  call (OUpdate path patch).
Definition remove (path : string) : Proc unit := call (ORemove path).
Definition getDocs (q : Query) : Proc (list Value) := call (OGetDocs q).
Definition deleteDoc (coll id : string) : Proc unit := call (ODeleteDoc coll id).
Definition await_saveUserToLive (u : Value) : Proc unit := call (OSaveUserToLive u).
Definition await_saveSystemSettings (s : Value) : Proc unit :=
  call (OSaveSystemSettings s).
Definition await_saveChapterData (key : string) (data : Value) : Proc unit :=
  call (OSaveChapterData key data).
Definition runAutoPilotService (settings : Value) : Proc unit :=
  call (ORunAutoPilotService settings).
Definition getChapterData (key : string) : Proc Value :=
  call (OGetChapterData key).
Definition Date_now : Proc Z := call ODateNow.
Definition getDate (t : Z) : Proc Z := call (ODateGetDate t).
Definition setDate (t day : Z) : Proc Z := call (ODateSetDate t day).
Definition getMonth (t : Z) : Proc Z := call (ODateGetMonth t).
Definition setMonth (t month : Z) : Proc Z := call (ODateSetMonth t month).
Definition toISOString (t : Z) : Proc string := call (ODateToISOString t).
Definition new_Date_of (v : Value) : Proc (option Z) := call (ODateParse v).
Definition Math_random : Proc Q := call OMathRandom.
Definition localStorage_getItem (key : string) : Proc (option string) :=
  call (OLsGetItem key).
Definition localStorage_setItem (key value : string) : Proc unit :=
  call (OLsSetItem key value).
Definition JSON_parse_ (s : string) : Proc Value := call (OJsonParse s).
Definition JSON_stringify_ (v : Value) : Proc string := call (OJsonStringify v).
Definition console_error (msg : string) : Proc unit := call (OConsoleError msg).
Definition console_log (msg : string) : Proc unit := call (OConsoleLog msg).

(** The double quote character. *)
Definition dquote : string := String (ascii_of_nat 34) EmptyString.

(* ===================================================================== *)
(** ** The actions of [actionRegistry.ts] *)
(* ===================================================================== *)

(** An object literal. *)
Definition obj (fields : list (string * Value)) : Value :=
  VObj (list_to_map fields).

(** [snapshot.exists()]: the node holds a value other than [null]. *)
Definition snapshot_exists (snapshot : Value) : bool :=
  match snapshot with
  | VNull => false
  | _ => true
  end.

(** [v !== s] for a string [s]. *)
Definition strict_ne_str (v : Value) (s : string) : bool :=
  match v with
  | VStr s' => negb (String.eqb s' s)
  | _ => true
  end.

Inductive Plan := WEEKLY | MONTHLY | YEARLY | LIFETIME.
Inductive Level := BASIC | ULTRA.
Inductive UserFilter := ALL | PREMIUM | FREE | INACTIVE.
Inductive GiftType := CREDITS | SUBSCRIPTION.

Definition plan_str (p : Plan) : string :=
  match p with
  | WEEKLY => "WEEKLY" | MONTHLY => "MONTHLY"
  | YEARLY => "YEARLY" | LIFETIME => "LIFETIME"
  end.

Definition level_str (l : Level) : string :=
  match l with BASIC => "BASIC" | ULTRA => "ULTRA" end.

Definition gift_type_str (t : GiftType) : string :=
  match t with CREDITS => "CREDITS" | SUBSCRIPTION => "SUBSCRIPTION" end.

(** *** Helpers *)

Definition getAllUsers : Proc (list Value) :=
  try_catch
    (getDocs (collection "users"))
    (λ e, console_error ("Error fetching users: " +:+ message e);;
          Ret []).

Definition getSettings : Proc Value :=
  try_catch
    (snapshot ← get "system_settings";
     if snapshot_exists snapshot then Ret snapshot else Ret VNull)
    (λ _, Ret VNull).

(** *** Action implementations *)

Definition deleteUser (userId : string) : Proc string :=
  try_catch
    (deleteDoc "users" userId;;
     remove (user_path userId);;
     Ret ("User " +:+ userId +:+ " deleted successfully from Firestore and RTDB."))
    (λ e, Throw (new_Error
                   ("Failed to delete user " +:+ userId +:+ ": " +:+ message e))).

Definition updateUser (userId : string) (updates : gmap string Value)
  : Proc string :=
  try_catch
    (snapshot ← get (user_path userId);
     if negb (snapshot_exists snapshot) then Throw (new_Error "User not found")
     else
       let currentUser := snapshot in
       let updatedUser := VObj (spread2 (ownProps currentUser) updates) in
       await_saveUserToLive updatedUser;;
       Ret ("User " +:+ userId +:+ " updated."))
    (λ e, Throw (new_Error ("Failed to update user: " +:+ message e))).

Definition banUser (userId reason : string) : Proc string :=
  updateUser userId {[ "isLocked" := VBool true ]}.

Definition unbanUser (userId : string) : Proc string :=
  updateUser userId {[ "isLocked" := VBool false ]}.

Definition grantSubscription (userId : string) (plan : Plan) (level : Level)
  : Proc string :=
  now ← Date_now;
  endDate0 ← Date_now;
  endDate ← match plan with
            | WEEKLY =>
                d ← getDate now;
                t ← setDate endDate0 (d + 7); Ret (Some t)
            | MONTHLY =>
                d ← getDate now;
                t ← setDate endDate0 (d + 30); Ret (Some t)
            | YEARLY =>
                d ← getDate now;
                t ← setDate endDate0 (d + 365); Ret (Some t)
            | LIFETIME => Ret None
            end;
  stamp ← Date_now;
  startDate ← toISOString now;
  endIso ← match endDate with
           | Some t => toISOString t
           | None => Ret "LIFETIME"
           end;
  let historyEntry := obj [
    ("id", VStr ("grant-" +:+ pretty stamp));
    ("tier", VStr (plan_str plan));
    ("level", VStr (level_str level));
    ("startDate", VStr startDate);
    ("endDate", VStr endIso);
    ("durationHours", VNum 0);
    ("price", VNum 0);
    ("originalPrice", VNum 0);
    ("isFree", VBool true);
    ("grantSource", VStr "ADMIN");
    ("grantedBy", VStr "AI_AGENT") ] in
  snapshot ← get (user_path userId);
  if negb (snapshot_exists snapshot) then Throw (new_Error "User not found")
  else
    let user := snapshot in
    history ← lift (iterate (js_or (prop user "subscriptionHistory") (VArr [])));
    let newHistory := historyEntry :: history in
    subscriptionEndDate ← match endDate with
                          | Some t => s ← toISOString t; Ret (VStr s)
                          | None => Ret VUndef
                          end;
    updateUser userId (list_to_map [
      ("subscriptionTier", VStr (plan_str plan));
      ("subscriptionLevel", VStr (level_str level));
      ("subscriptionEndDate", subscriptionEndDate);
      ("isPremium", VBool true);
      ("subscriptionHistory", VArr newHistory);
      ("grantedByAdmin", VBool true) ]).

Definition broadcastMessage (msg : string) : Proc string :=
  settings ← getSettings;
  if truthy settings then
    let newSettings := VObj (<["noticeText" := VStr msg]> (ownProps settings)) in
    await_saveSystemSettings newSettings;;
    Ret "Broadcast banner updated successfully."
  else Ret "Failed to fetch settings.".

Definition sendInboxMessage (userId text : string) : Proc string :=
  snapshot ← get (user_path userId);
  if negb (snapshot_exists snapshot) then Throw (new_Error "User not found")
  else
    let user := snapshot in
    stamp ← Date_now;
    date ← (t ← Date_now; toISOString t);
    let newMsg := obj [
      ("id", VStr ("msg-" +:+ pretty stamp));
      ("text", VStr text);
      ("date", VStr date);
      ("read", VBool false);
      ("type", VStr "TEXT") ] in
    inbox ← lift (iterate (js_or (prop user "inbox") (VArr [])));
    let updatedInbox := newMsg :: inbox in
    updateUser userId {[ "inbox" := VArr updatedInbox ]};;
    Ret ("Message sent to " +:+ toString (prop user "name") +:+ ".").

Definition createWeeklyTest (name subject : string) (questionCount : Z)
  : Proc string :=
  settings ← getSettings;
  if negb (truthy settings) then Throw (new_Error "Settings not found")
  else
    stamp ← Date_now;
    createdAt ← (t ← Date_now; toISOString t);
    let newTest := obj [
      ("id", VStr ("test-" +:+ pretty stamp));
      ("name", VStr name);
      ("description", VStr ("Subject: " +:+ subject));
      ("isActive", VBool true);
      ("classLevel", VStr "10");
      ("questions", VArr []);
      ("totalQuestions", VNum questionCount);
      ("passingScore", VNum 40);
      ("createdAt", VStr createdAt);
      ("durationMinutes", VNum 60);
      ("selectedSubjects", VArr [VStr subject]) ] in
    tests ← lift (iterate (js_or (prop settings "weeklyTests") (VArr [])));
    let updatedTests := (tests ++ [newTest])%list in
    await_saveSystemSettings
            (VObj (<["weeklyTests" := VArr updatedTests]> (ownProps settings)));;
    Ret ("Weekly Test " +:+ dquote +:+ name +:+ dquote +:+ " created (Empty Questions).").

Definition user_summary (u : Value) : Proc Value :=
  id ← lift (getProp u "id");
  Ret (obj [
    ("id", id);
    ("name", prop u "name");
    ("email", prop u "email");
    ("role", prop u "role");
    ("credits", prop u "credits");
    ("tier", prop u "subscriptionTier") ]).

Definition scanUsers (filter : UserFilter) : Proc (list Value) :=
  users ← getAllUsers;
  result ← match filter with
           | ALL => Ret users
           | PREMIUM =>
               filterM (λ u, p ← lift (getProp u "isPremium"); Ret (truthy p))
                 users
           | FREE =>
               filterM (λ u, p ← lift (getProp u "isPremium");
                             Ret (negb (truthy p)))
                 users
           | INACTIVE =>
               t ← Date_now;
               m ← getMonth t;
               monthAgo ← setMonth t (m - 1);
               filterM (λ u,
                   last ← lift (getProp u "lastActiveTime");
                   if negb (truthy last) then Ret true
                   else
                     d ← new_Date_of last;
                     Ret (match d with
                          | Some t' => Z.ltb t' monthAgo
                          | None => false
                          end))
                 users
           end;
  mapM user_summary result.

Definition getRecentLogs (limit : option Z) : Proc (list Value) :=
  let limit := default 20 limit in
  try_catch
    (getDocs (mkQuery "ai_interactions" (Some ("timestamp", "desc")) (Some limit)))
    (λ _, Ret []).

(** *** New functions *)

Definition is_space (c : ascii) : bool :=
  let n := nat_of_ascii c in
  (Nat.eqb n 32 || (Nat.leb 9 n && Nat.leb n 13))%bool.

(** [s.replace(/\s+/g, '')] *)
Fixpoint strip_spaces (s : string) : string :=
  match s with
  | EmptyString => EmptyString
  | String c rest =>
      if is_space c then strip_spaces rest else String c (strip_spaces rest)
  end.

(** [localStorage.getItem(key) || fallback] *)
Definition getItem_or (key fallback : string) : Proc string :=
  item ← localStorage_getItem key;
  Ret (match item with
       | Some s => if String.eqb s "" then fallback else s
       | None => fallback
       end).

Section Constants.

(** [DEFAULT_SUBJECTS] is imported from [../constants]. *)
Variable DEFAULT_SUBJECTS : Value.

Definition addSubject (name : string) : Proc string :=
  let id := strip_spaces (toLowerCase name) in
  let newSubject := obj [
    ("id", VStr id); ("name", VStr name); ("icon", VStr "book");
    ("color", VStr "bg-slate-50 text-slate-600") ] in
  raw ← getItem_or "nst_custom_subjects_pool" "{}";
  customPool ← JSON_parse_ raw;
  let updatedPool :=
    <[id := newSubject]>
      (spread2 (ownProps DEFAULT_SUBJECTS) (ownProps customPool)) in
  text ← JSON_stringify_ (VObj updatedPool);
  localStorage_setItem "nst_custom_subjects_pool" text;;
  Ret ("Subject " +:+ name +:+ " added locally.").

End Constants.

Definition codeChars : string := "ABCDEFGHJKLMNPQRSTUVWXYZ23456789".

(** The inner loop: [j] characters are still to be drawn. *)
Fixpoint random_code (j : nat) (code : string) : Proc string :=
  match j with
  | O => Ret code
  | S j' =>
      r ← Math_random;
      random_code j'
        (code +:+ charAt codeChars
                    (Qfloor (r * inject_Z (Z.of_nat (String.length codeChars)))))
  end.

Definition gift_code (amount : Z) (type : GiftType) (i : Z) (stamp : Z)
    (code createdAt : string) : Value :=
  obj [
    ("id", VStr (pretty stamp +:+ pretty i));
    ("code", VStr (toUpperCase code));
    ("type", VStr (gift_type_str type));
    ("amount", VNum (match type with CREDITS => amount | SUBSCRIPTION => 0 end));
    ("subTier", match type with SUBSCRIPTION => VStr "WEEKLY" | CREDITS => VUndef end);
    ("subLevel", match type with SUBSCRIPTION => VStr "BASIC" | CREDITS => VUndef end);
    ("createdAt", VStr createdAt);
    ("isRedeemed", VBool false);
    ("generatedBy", VStr "AI_ADMIN");
    ("maxUses", VNum 1);
    ("usedCount", VNum 0);
    ("redeemedBy", VArr []) ].

(** The outer loop, from [i] on, with [n] rounds to go. *)
Fixpoint gift_loop (amount : Z) (type : GiftType) (n : nat) (i : Z)
    (newCodes : list Value) : Proc (list Value) :=
  match n with
  | O => Ret newCodes
  | S n' =>
      code ← random_code 12 "";
      stamp ← Date_now;
      createdAt ← (t ← Date_now; toISOString t);
      let newGiftCode := gift_code amount type i stamp code createdAt in
      let newCodes := (newCodes ++ [newGiftCode])%list in
      set ("redeem_codes/" +:+ toString (prop newGiftCode "code")) newGiftCode;;
      gift_loop amount type n' (i + 1) newCodes
  end.

Definition generateGiftCodes (amount count : Z) (type : option GiftType)
  : Proc string :=
  let type := default CREDITS type in
  newCodes ← gift_loop amount type (Z.to_nat count) 0 [];
  raw ← getItem_or "nst_admin_codes" "[]";
  parsed ← JSON_parse_ raw;
  existing ← lift (iterate parsed);
  text ← JSON_stringify_ (VArr (newCodes ++ existing)%list);
  localStorage_setItem "nst_admin_codes" text;;
  Ret (pretty count +:+ " Gift Codes Generated: " +:+
       join ", " ((λ c, toString (prop c "code")) <$> newCodes)).

Definition updateSystemSettings (updates : gmap string Value) : Proc string :=
  settings ← getSettings;
  if negb (truthy settings) then Throw (new_Error "Settings not found")
  else
    let newSettings := VObj (spread2 (ownProps settings) updates) in
    await_saveSystemSettings newSettings;;
    Ret "Settings updated.".

Definition toggleSetting (key : string) (value : bool) : Proc string :=
  updateSystemSettings {[ key := VBool value ]}.

Definition addPackage (name : string) (price credits : Z) : Proc string :=
  settings ← getSettings;
  if negb (truthy settings) then Throw (new_Error "Settings not found")
  else
    stamp ← Date_now;
    let newPkg := obj [
      ("id", VStr ("pkg-" +:+ pretty stamp)); ("name", VStr name);
      ("price", VNum price); ("credits", VNum credits) ] in
    old ← lift (iterate (js_or (prop settings "packages") (VArr [])));
    let packages := (old ++ [newPkg])%list in
    await_saveSystemSettings
      (VObj (<["packages" := VArr packages]> (ownProps settings)));;
    Ret ("Package " +:+ name +:+ " added.").

(** [v.filter(f)]: only arrays have the method. *)
Definition as_array (v : Value) : Error + list Value :=
  match v with
  | VArr l => inr l
  | _ => inl (new_TypeError "filter is not a function")
  end.

Definition removePackage (id : string) : Proc string :=
  settings ← getSettings;
  if negb (truthy settings) then Throw (new_Error "Settings not found")
  else
    old ← lift (as_array (js_or (prop settings "packages") (VArr [])));
    packages ← filterM (λ p, pid ← lift (getProp p "id");
                             Ret (strict_ne_str pid id)) old;
    await_saveSystemSettings
      (VObj (<["packages" := VArr packages]> (ownProps settings)));;
    Ret ("Package " +:+ id +:+ " removed.").

Definition promoteSubAdmin (userId : string) : Proc string :=
  updateUser userId (list_to_map [
    ("role", VStr "SUB_ADMIN"); ("isSubAdmin", VBool true);
    ("permissions", VArr [VStr "MANAGE_SUBS"]) ]).

Definition demoteSubAdmin (userId : string) : Proc string :=
  updateUser userId (list_to_map [
    ("role", VStr "STUDENT"); ("isSubAdmin", VBool false);
    ("permissions", VArr []) ]).

Definition approveRecoveryRequest (requestId : string) : Proc string :=
  update ("recovery_requests/" +:+ requestId) {[ "status" := VStr "RESOLVED" ]};;
  updateUser requestId {[ "isPasswordless" := VBool true ]};;
  Ret ("Request " +:+ requestId +:+ " approved.").

Definition addUniversalVideo (title url : string) : Proc string :=
  found ← getChapterData "nst_universal_playlist";
  let data := js_or found (obj [("videoPlaylist", VArr [])]) in
  old ← lift (iterate (js_or (prop data "videoPlaylist") (VArr [])));
  let playlist :=
    (old ++ [obj [("title", VStr title); ("url", VStr url);
                  ("price", VNum 0); ("access", VStr "FREE")]])%list in
  await_saveChapterData "nst_universal_playlist"
    (obj [("videoPlaylist", VArr playlist)]);;
  Ret ("Video " +:+ dquote +:+ title +:+ dquote +:+ " added to Universal Playlist.").

Definition saveCustomBloggerPage (html : string) : Proc string :=
  set "custom_blogger_page" (VStr html);;
  Ret "Custom Blogger Page saved.".

Definition softDelete (type id : string) : Proc string :=
  Ret "Soft delete not fully supported via AI yet, please use Dashboard.".

Definition runAutoPilot : Proc string :=
  settings ← getSettings;
  if negb (truthy settings) then Ret "Settings failure."
  else
    runAutoPilotService settings;;
    Ret "Auto-Pilot cycle triggered.".

(* ===================================================================== *)
(** ** The registry map *)
(* ===================================================================== *)

(** A call through the registry: the key and the arguments of the
    function stored under it. *)
Inductive Action : Type :=
| A_deleteUser (userId : string)
| A_updateUser (userId : string) (updates : gmap string Value)
| A_banUser (userId reason : string)
| A_unbanUser (userId : string)
| A_grantSubscription (userId : string) (plan : Plan) (level : Level)
| A_broadcastMessage (msg : string)
| A_sendInboxMessage (userId text : string)
| A_createWeeklyTest (name subject : string) (questionCount : Z)
| A_scanUsers (filter : UserFilter)
| A_getRecentLogs (limit : option Z)
| A_addSubject (name : string)
| A_generateGiftCodes (amount count : Z) (type : option GiftType)
| A_updateSystemSettings (updates : gmap string Value)
| A_toggleSetting (key : string) (value : bool)
| A_addPackage (name : string) (price credits : Z)
| A_removePackage (id : string)
| A_promoteSubAdmin (userId : string)
| A_demoteSubAdmin (userId : string)
| A_approveRecoveryRequest (requestId : string)
| A_addUniversalVideo (title url : string)
| A_saveCustomBloggerPage (html : string)
| A_runAutoPilot.

Definition action_name (a : Action) : string :=
  match a with
  | A_deleteUser _ => "deleteUser"
  | A_updateUser _ _ => "updateUser"
  | A_banUser _ _ => "banUser"
  | A_unbanUser _ => "unbanUser"
  | A_grantSubscription _ _ _ => "grantSubscription"
  | A_broadcastMessage _ => "broadcastMessage"
  | A_sendInboxMessage _ _ => "sendInboxMessage"
  | A_createWeeklyTest _ _ _ => "createWeeklyTest"
  | A_scanUsers _ => "scanUsers"
  | A_getRecentLogs _ => "getRecentLogs"
  | A_addSubject _ => "addSubject"
  | A_generateGiftCodes _ _ _ => "generateGiftCodes"
  | A_updateSystemSettings _ => "updateSystemSettings"
  | A_toggleSetting _ _ => "toggleSetting"
  | A_addPackage _ _ _ => "addPackage"
  | A_removePackage _ => "removePackage"
  | A_promoteSubAdmin _ => "promoteSubAdmin"
  | A_demoteSubAdmin _ => "demoteSubAdmin"
  | A_approveRecoveryRequest _ => "approveRecoveryRequest"
  | A_addUniversalVideo _ _ => "addUniversalVideo"
  | A_saveCustomBloggerPage _ => "saveCustomBloggerPage"
  | A_runAutoPilot => "runAutoPilot"
  end.

(** The keys of [ActionRegistry], in the order of the object literal. *)
Definition ActionRegistry_keys : list string := [
  "deleteUser"; "updateUser"; "banUser"; "unbanUser"; "grantSubscription";
  "broadcastMessage"; "sendInboxMessage"; "createWeeklyTest"; "scanUsers";
  "getRecentLogs"; "addSubject"; "generateGiftCodes"; "updateSystemSettings";
  "toggleSetting"; "addPackage"; "removePackage"; "promoteSubAdmin";
  "demoteSubAdmin"; "approveRecoveryRequest"; "addUniversalVideo";
  "saveCustomBloggerPage"; "runAutoPilot" ].

(** [ActionRegistry[name](args)], with the result as a JavaScript value. *)
Definition ActionRegistry (DEFAULT_SUBJECTS : Value) (a : Action) : Proc Value :=
  match a with
  | A_deleteUser userId => VStr <$> deleteUser userId
  | A_updateUser userId updates => VStr <$> updateUser userId updates
  | A_banUser userId reason => VStr <$> banUser userId reason
  | A_unbanUser userId => VStr <$> unbanUser userId
  | A_grantSubscription userId plan level =>
      VStr <$> grantSubscription userId plan level
  | A_broadcastMessage msg => VStr <$> broadcastMessage msg
  | A_sendInboxMessage userId text => VStr <$> sendInboxMessage userId text
  | A_createWeeklyTest name subject n => VStr <$> createWeeklyTest name subject n
  | A_scanUsers filter => VArr <$> scanUsers filter
  | A_getRecentLogs limit => VArr <$> getRecentLogs limit
  | A_addSubject name => VStr <$> addSubject DEFAULT_SUBJECTS name
  | A_generateGiftCodes amount count type =>
      VStr <$> generateGiftCodes amount count type
  | A_updateSystemSettings updates => VStr <$> updateSystemSettings updates
  | A_toggleSetting key value => VStr <$> toggleSetting key value
  | A_addPackage name price credits => VStr <$> addPackage name price credits
  | A_removePackage id => VStr <$> removePackage id
  | A_promoteSubAdmin userId => VStr <$> promoteSubAdmin userId
  | A_demoteSubAdmin userId => VStr <$> demoteSubAdmin userId
  | A_approveRecoveryRequest requestId => VStr <$> approveRecoveryRequest requestId
  | A_addUniversalVideo title url => VStr <$> addUniversalVideo title url
  | A_saveCustomBloggerPage html => VStr <$> saveCustomBloggerPage html
  | A_runAutoPilot => VStr <$> runAutoPilot
  end.

(* ===================================================================== *)
(** ** Tool definitions *)
(* ===================================================================== *)

Definition schema (type : string) : Value := obj [("type", VStr type)].

Definition enum_schema (values : list string) : Value :=
  obj [("type", VStr "string"); ("enum", VArr (VStr <$> values))].

(** The [adminTools] array, entry by entry. *)
Definition adminTools : list Value := [
  obj [("type", VStr "function");
       ("function", obj [
          ("name", VStr "deleteUser");
          ("description", VStr "Delete a user permanently.");
          ("parameters", obj [
             ("type", VStr "object");
             ("properties", obj [("userId", schema "string")]);
             ("required", VArr [VStr "userId"]) ]) ]) ];
  obj [("type", VStr "function");
       ("function", obj [
          ("name", VStr "updateUser");
          ("description", VStr "Update user details (credits, etc).");
          ("parameters", obj [
             ("type", VStr "object");
             ("properties", obj [("userId", schema "string");
                                 ("updates", schema "object")]);
             ("required", VArr [VStr "userId"; VStr "updates"]) ]) ]) ];
  obj [("type", VStr "function");
       ("function", obj [
          ("name", VStr "grantSubscription");
          ("description", VStr "Give a premium subscription.");
          ("parameters", obj [
             ("type", VStr "object");
             ("properties", obj [
                ("userId", schema "string");
                ("plan", enum_schema ["WEEKLY"; "MONTHLY"; "YEARLY"; "LIFETIME"]);
                ("level", enum_schema ["BASIC"; "ULTRA"]) ]);
             ("required", VArr [VStr "userId"; VStr "plan"; VStr "level"]) ]) ]) ];
  obj [("type", VStr "function");
       ("function", obj [
          ("name", VStr "banUser");
          ("description", VStr "Ban a user.");
          ("parameters", obj [
             ("type", VStr "object");
             ("properties", obj [("userId", schema "string");
                                 ("reason", schema "string")]);
             ("required", VArr [VStr "userId"]) ]) ]) ];
  obj [("type", VStr "function");
       ("function", obj [
          ("name", VStr "unbanUser");
          ("description", VStr "Unban a user.");
          ("parameters", obj [
             ("type", VStr "object");
             ("properties", obj [("userId", schema "string")]);
             ("required", VArr [VStr "userId"]) ]) ]) ];
  obj [("type", VStr "function");
       ("function", obj [
          ("name", VStr "broadcastMessage");
          ("description", VStr "Set a global banner message.");
          ("parameters", obj [
             ("type", VStr "object");
             ("properties", obj [("message", schema "string")]);
             ("required", VArr [VStr "message"]) ]) ]) ];
  obj [("type", VStr "function");
       ("function", obj [
          ("name", VStr "sendInboxMessage");
          ("description", VStr "Send private message.");
          ("parameters", obj [
             ("type", VStr "object");
             ("properties", obj [("userId", schema "string");
                                 ("text", schema "string")]);
             ("required", VArr [VStr "userId"; VStr "text"]) ]) ]) ];
  obj [("type", VStr "function");
       ("function", obj [
          ("name", VStr "scanUsers");
          ("description", VStr "List users.");
          ("parameters", obj [
             ("type", VStr "object");
             ("properties", obj [
                ("filter", enum_schema ["ALL"; "PREMIUM"; "FREE"; "INACTIVE"]) ]);
             ("required", VArr [VStr "filter"]) ]) ]) ];
  obj [("type", VStr "function");
       ("function", obj [
          ("name", VStr "generateGiftCodes");
          ("description", VStr "Generate redeem codes.");
          ("parameters", obj [
             ("type", VStr "object");
             ("properties", obj [
                ("amount", schema "number");
                ("count", schema "number");
                ("type", enum_schema ["CREDITS"; "SUBSCRIPTION"]) ]);
             ("required", VArr [VStr "amount"; VStr "count"]) ]) ]) ];
  obj [("type", VStr "function");
       ("function", obj [
          ("name", VStr "toggleSetting");
          ("description",
           VStr "Toggle a system boolean setting (maintenance, ai, autopilot).");
          ("parameters", obj [
             ("type", VStr "object");
             ("properties", obj [
                ("key", enum_schema ["maintenanceMode"; "isAiEnabled";
                                     "isAutoPilotEnabled"; "isChatEnabled";
                                     "isGameEnabled"]);
                ("value", schema "boolean") ]);
             ("required", VArr [VStr "key"; VStr "value"]) ]) ]) ];
  obj [("type", VStr "function");
       ("function", obj [
          ("name", VStr "promoteSubAdmin");
          ("description", VStr "Make user a Sub-Admin.");
          ("parameters", obj [
             ("type", VStr "object");
             ("properties", obj [("userId", schema "string")]);
             ("required", VArr [VStr "userId"]) ]) ]) ];
  obj [("type", VStr "function");
       ("function", obj [
          ("name", VStr "demoteSubAdmin");
          ("description", VStr "Remove Sub-Admin rights.");
          ("parameters", obj [
             ("type", VStr "object");
             ("properties", obj [("userId", schema "string")]);
             ("required", VArr [VStr "userId"]) ]) ]) ];
  obj [("type", VStr "function");
       ("function", obj [
          ("name", VStr "runAutoPilot");
          ("description", VStr "Trigger AI Auto-Pilot once.");
          ("parameters", obj [
             ("type", VStr "object");
             ("properties", obj []) ]) ]) ]
].

(** What a consumer of the array relies on: the entry has type
    ["function"], a name, a description, and a parameters schema of type
    ["object"] whose [required] list, when there is one, names declared
    properties only. *)
Definition well_formed_tool (t : Value) : Prop :=
  prop t "type" = VStr "function" ∧
  ∃ (name description : string) (properties : gmap string Value),
    let fn := prop t "function" in
    let parameters := prop fn "parameters" in
    prop fn "name" = VStr name ∧
    prop fn "description" = VStr description ∧
    prop parameters "type" = VStr "object" ∧
    prop parameters "properties" = VObj properties ∧
    match prop parameters "required" with
    | VUndef => True
    | VArr required =>
        Forall (λ r, ∃ s, r = VStr s ∧ is_Some (properties !! s)) required
    | _ => False
    end.

(** The name of a tool, when it has one. *)
Definition tool_name (t : Value) : option string :=
  match prop (prop t "function") "name" with
  | VStr s => Some s
  | _ => None
  end.

(** The same checks as a program. *)
Definition required_ok (properties : gmap string Value) (required : Value) : bool :=
  match required with
  | VUndef => true
  | VArr rs =>
      forallb (λ r, match r with
                    | VStr s => match properties !! s with
                                | Some _ => true
                                | None => false
                                end
                    | _ => false
                    end) rs
  | _ => false
  end.

Definition check_tool (t : Value) : bool :=
  let fn := prop t "function" in
  let parameters := prop fn "parameters" in
  match prop t "type", prop fn "name", prop fn "description",
        prop parameters "type", prop parameters "properties" with
  | VStr ty, VStr _, VStr _, VStr pty, VObj properties =>
      String.eqb ty "function" && String.eqb pty "object" &&
      required_ok properties (prop parameters "required")
  | _, _, _, _, _ => false
  end.

Definition check_name (t : Value) : bool :=
  match tool_name t with
  | Some name => existsb (String.eqb name) ActionRegistry_keys
  | None => false
  end.

(* ===================================================================== *)
(** ** The speech helpers *)
(* ===================================================================== *)

Module Speech.

(** A [SpeechSynthesisVoice]: the two fields the helpers read. *)
Record Voice := mkVoice { name : string; lang : string }.

(** A [SpeechSynthesisUtterance].  The text is kept as its UTF-16 code
    units. *)
Record Utterance := mkUtterance {
  u_text : list N;
  u_voice : option Voice;
  u_lang : string;
  u_rate : Q;
  u_pitch : Q
}.

(** The calls made on [window.speechSynthesis], [console] and the timer
    queue. *)
Inductive Call : Type :=
| CGetVoices
| CCancel
| CSpeak (u : Utterance)
| CSetOnVoicesChanged
| CSetTimeout (ms : Z)
| CWarn (msg : string).

Record Window := mkWindow {
  (** ['speechSynthesis' in window] *)
  supported : bool;
  (** what [getVoices()] returns at present *)
  voices : list Voice;
  (** the utterance queue *)
  queue : list Utterance;
  (** the calls made so far, oldest first *)
  calls : list Call
}.

Definition record (c : Call) (w : Window) : Window :=
  mkWindow (supported w) (voices w) (queue w) (calls w ++ [c]).

Definition cancel (w : Window) : Window :=
  let w := record CCancel w in
  mkWindow (supported w) (voices w) [] (calls w).

Definition speak (u : Utterance) (w : Window) : Window :=
  let w := record (CSpeak u) w in
  mkWindow (supported w) (voices w) (queue w ++ [u]) (calls w).

Definition getVoices (w : Window) : list Voice * Window :=
  (voices w, record CGetVoices w).

(** *** [getAvailableVoices] *)

(** The promise it returns, with what it leaves behind when the list is
    still empty: the [onvoiceschanged] handler and the pending timers. *)
Record Loading := mkLoading {
  resolved : option (list Voice);
  handler : bool;
  timers : list Z
}.

(** [resolve(v)]: only the first call settles the promise. *)
Definition resolve (v : list Voice) (l : Loading) : Loading :=
  match resolved l with
  | Some _ => l
  | None => mkLoading (Some v) (handler l) (timers l)
  end.

Definition getAvailableVoices (w : Window) : Loading * Window :=
  if negb (supported w) then (mkLoading (Some []) false [], w)
  else
    let '(vs, w) := getVoices w in
    if Nat.ltb 0 (length vs) then (mkLoading (Some vs) false [], w)
    else
      let w := record CSetOnVoicesChanged w in
      let w := record (CSetTimeout 2000) w in
      (mkLoading None true [2000], w).

(** The browser fires [voiceschanged]. *)
Definition on_voiceschanged (l : Loading) (w : Window) : Loading * Window :=
  if handler l then
    let '(vs, w) := getVoices w in (resolve vs l, w)
  else (l, w).

(** The oldest pending timer expires. *)
Definition on_timeout (l : Loading) (w : Window) : Loading * Window :=
  match timers l with
  | [] => (l, w)
  | _ :: rest =>
      let '(vs, w) := getVoices w in
      (resolve vs (mkLoading (resolved l) (handler l) rest), w)
  end.

(** *** [getCategorizedVoices] *)

Record Categories := mkCategories {
  hindi : list Voice;
  indianEnglish : list Voice;
  others : list Voice
}.

Definition is_hindi (v : Voice) : bool :=
  includes (lang v) "hi" || includes (toLowerCase (name v)) "hindi".

Definition is_indianEnglish (v : Voice) : bool :=
  String.eqb (lang v) "en-IN" ||
  (includes (lang v) "en" && includes (toLowerCase (name v)) "india").

Definition is_other (v : Voice) : bool :=
  negb (includes (lang v) "hi") &&
  negb (includes (toLowerCase (name v)) "hindi") &&
  negb (String.eqb (lang v) "en-IN") &&
  negb (includes (toLowerCase (name v)) "india").

(** The three filters, on the list the promise resolved with. *)
Definition categorize (vs : list Voice) : Categories :=
  mkCategories (List.filter is_hindi vs) (List.filter is_indianEnglish vs)
    (List.filter is_other vs).

(** [getCategorizedVoices], once [getAvailableVoices] has resolved. *)
Definition getCategorizedVoices (l : Loading) : option Categories :=
  categorize <$> resolved l.

(** *** [speakText] *)

(** [/[\u0900-\u097F]/.test(text)]: a code unit in 0x0900..0x097F. *)
Definition isHindi (text : list N) : bool :=
  existsb (λ c, N.leb 2304 c && N.leb c 2431) text.

(** [a || b] on the results of [find]. *)
Definition or_else {A : Type} (a b : option A) : option A :=
  match a with
  | Some _ => a
  | None => b
  end.

Definition set_lang (l : string) (u : Utterance) : Utterance :=
  mkUtterance (u_text u) (u_voice u) l (u_rate u) (u_pitch u).

Definition set_voice (v : Voice) (u : Utterance) : Utterance :=
  mkUtterance (u_text u) (Some v) (u_lang u) (u_rate u) (u_pitch u).

Definition set_rate (r : Q) (u : Utterance) : Utterance :=
  mkUtterance (u_text u) (u_voice u) (u_lang u) r (u_pitch u).

Definition set_pitch (p : Q) (u : Utterance) : Utterance :=
  mkUtterance (u_text u) (u_voice u) (u_lang u) (u_rate u) p.

(** [new SpeechSynthesisUtterance(text)] *)
Definition new_utterance (text : list N) : Utterance :=
  mkUtterance text None "" 1 1.

Definition en_IN (v : Voice) : bool :=
  String.eqb (lang v) "en-IN" || includes (lang v) "en-IN".

(** The voice picked when none is given. *)
Definition pick_voice (text : list N) (vs : list Voice) : option Voice :=
  if isHindi text then
    or_else (find (λ v, includes (lang v) "hi" && includes (name v) "Google") vs)
      (find (λ v, includes (lang v) "hi") vs)
  else
    or_else (find (λ v, en_IN v && includes (name v) "Google") vs)
      (or_else (find en_IN vs)
         (find (λ v, includes (name v) "India") vs)).

(** The block [if (!voice) { ... }]: the voice, and the utterance with
    the language the block assigns. *)
Definition auto_select (text : list N) (vs : list Voice) (u : Utterance)
  : option Voice * Utterance :=
  let voice := pick_voice text vs in
  (voice,
   match voice with
   | Some _ => set_lang (if isHindi text then "hi-IN" else "en-IN") u
   | None => u
   end).

(** The statements after the block, up to the call of [speak]. *)
Definition finish (voice : option Voice) (rate : Q) (lang_arg : string)
    (u : Utterance) : Utterance :=
  let u := match voice with
           | Some v =>
               set_lang (if String.eqb (lang v) "" then lang_arg else lang v)
                 (set_voice v u)
           | None => set_lang lang_arg u
           end in
  set_pitch 1 (set_rate rate u).

Definition speakText (text : list N) (voice : option Voice) (rate : option Q)
    (lang_arg : option string) (w : Window) : Window :=
  let rate := default 1%Q rate in
  let lang_arg := default "en-US" lang_arg in
  if negb (supported w) then record (CWarn "Text-to-speech not supported.") w
  else
    let w := cancel w in
    let utterance := new_utterance text in
    let '(voice, utterance, w) :=
      match voice with
      | Some v => (Some v, utterance, w)
      | None =>
          let '(vs, w) := getVoices w in
          let '(voice, utterance) := auto_select text vs utterance in
          (voice, utterance, w)
      end in
    speak (finish voice rate lang_arg utterance) w.

Definition stopSpeech (w : Window) : Window :=
  if supported w then cancel w else w.

(** The utterance handed to [speak] by the last call, if any. *)
Definition spoken (w : Window) : option Utterance :=
  last (queue w).

(** *** The selection rule as the specification words it *)




End Speech.

(* ===================================================================== *)
(** ** Concurrent invocations *)
(* ===================================================================== *)

(** One step of an invocation: its next operation is issued and
    answered.  A finished invocation does not move. *)
Definition step {A : Type} (p : Proc A) (w : World) : Proc A * World :=
  match p with
  | Vis o k =>
      let '(r, w') := perform o (set_log (log w ++ [o]) w) in (k r, w')
  | _ => (p, w)
  end.

Inductive Turn := First | Second.

(** Two invocations in flight at once: the schedule says whose pending
    operation reaches the service next. *)
Fixpoint interleave {A B : Type} (schedule : list Turn)
    (p : Proc A) (q : Proc B) (w : World) : Proc A * Proc B * World :=
  match schedule with
  | [] => (p, q, w)
  | First :: rest => let '(p', w') := step p w in interleave rest p' q w'
  | Second :: rest => let '(q', w') := step q w in interleave rest p q' w'
  end.

(** The result of an invocation that has finished. *)
Definition outcome {A : Type} (p : Proc A) : option (Outcome A) :=
  match p with
  | Ret a => Some (Returned a)
  | Throw e => Some (Thrown e)
  | Vis _ _ => None
  end.

(* ===================================================================== *)
(** ** Observations on a run *)
(* ===================================================================== *)

(** The value of a realtime node: [null] when absent. *)
Definition node (w : World) (path : string) : Value :=
  default VNull (rtdb w !! path).

(** The fate of the [i]-th next remote call. *)
Definition fault (i : nat) (w : World) : option Error :=
  mjoin (faults w !! i).

(** None of the next [n] remote calls is rejected. *)
Definition accepts (n : nat) (w : World) : Prop :=
  Forall (λ f, f = None) (take n (faults w)).

(** The world once a remote call has been issued and its fate consumed,
    before its effect. *)
Definition after_remote (o : Op) (w : World) : World :=
  set_faults (tl (faults w)) (set_log (log w ++ [o]) w).

(** The record [updateUser] hands to [saveUserToLive]. *)
Definition merged_user (current : Value) (updates : gmap string Value) : Value :=
  VObj (spread2 (ownProps current) updates).

(** The operations that can be rejected or throw: the remote calls, the
    unbound [getChapterData] and [JSON.parse]. *)
Definition can_fail (o : Op) : bool :=
  is_remote o ||
  match o with
  | OGetChapterData _ | OJsonParse _ => true
  | _ => false
  end.

Definition admissible (o : Op) (r : Error + Resp o) : Prop :=
  match r with
  | inl _ => can_fail o = true
  | inr _ => True
  end.

(** Every leaf of a computation is as [Q] says when it returns and as
    [E] says when it throws, whatever the operations answer. *)
Fixpoint post {A : Type} (p : Proc A) (Q : A → Prop) (E : Error → Prop) : Prop :=
  match p with
  | Ret a => Q a
  | Throw e => E e
  | Vis o k => ∀ r, admissible o r → post (k r) Q E
  end.

(** The operations a run added to the log. *)
Definition issued {A : Type} (p : Proc A) (w : World) : list Op :=
  drop (length (log w)) (log (run p w).2).

(** The same list, read off the run. *)
Fixpoint trace {A : Type} (p : Proc A) (w : World) : list Op :=
  match p with
  | Vis o k =>
      let '(r, w') := perform o (set_log (log w ++ [o]) w) in
      o :: trace (k r) w'
  | _ => []
  end.

(** Every operation a computation can issue satisfies [P], whatever the
    operations answer. *)
Fixpoint ops_all {A : Type} (P : Op → Prop) (p : Proc A) : Prop :=
  match p with
  | Vis o k => P o ∧ ∀ r, ops_all P (k r)
  | _ => True
  end.

Definition is_rejection {X : Type} (r : Error + X) : bool :=
  match r with
  | inl _ => true
  | inr _ => false
  end.

(** No retry: once a remote call has been rejected ([failed]), the
    computation issues no further remote call.  [Q] and [E] say what holds
    at the leaves, given whether a rejection happened on the way. *)
Fixpoint no_retry {A : Type} (failed : bool) (p : Proc A)
    (Q : bool → A → Prop) (E : bool → Error → Prop) : Prop :=
  match p with
  | Ret a => Q failed a
  | Throw e => E failed e
  | Vis o k =>
      (failed = true → is_remote o = false) ∧
      ∀ r, no_retry (failed || (is_remote o && is_rejection r)) (k r) Q E
  end.

Definition any_leaf {A : Type} : bool → A → Prop := λ _ _, True.

(** How often an operation of a given kind occurs. *)
Definition count_ops (f : Op → bool) (ops : list Op) : nat :=
  length (List.filter f ops).

(** The thrown error carries the original message behind a prefix. *)
Definition wraps (prefix : string) (e : Error) : Prop :=
  ∃ original : string, e = new_Error (prefix +:+ original).

(** The shape of a rethrown error: a context, then the original message. *)
Definition wrapped (e : Error) : Prop :=
  ∃ context original : string,
    message e = "Failed to " +:+ context +:+ ": " +:+ original.


(** *** Gift codes *)









(* ===================================================================== *)
(** ** Sample data *)
(* ===================================================================== *)

(** A simplified platform for the examples: thirty-day months, dates
    printed as epoch milliseconds, and a JSON reader for the two empty
    literals. *)
Definition sample_platform : Platform := {|
  date_getDate t := (t / 86400000) mod 30 + 1;
  date_setDate t d := t + (d - ((t / 86400000) mod 30 + 1)) * 86400000;
  date_getMonth t := (t / 2592000000) mod 12;
  date_setMonth t m := t + (m - (t / 2592000000) mod 12) * 2592000000;
  date_toISOString t := pretty t;
  date_parse v := match v with VNum n => Some n | _ => None end;
  JSON_parse s :=
    if String.eqb s "{}" then Some (VObj ∅)
    else if String.eqb s "[]" then Some (VArr [])
    else None;
  JSON_stringify v := toString v
|}.

Definition empty_world : World :=
  mkWorld ∅ [] [] ∅ ∅ 1700000000000 [] [] [] sample_platform [] [].


Definition alice : gmap string Value :=
  list_to_map [
    ("id", VStr "u1"); ("name", VStr "Alice"); ("credits", VNum 5);
    ("isLocked", VBool false); ("isPremium", VBool false) ].

Definition sample_world : World :=
  set_users_docs [("u1", VObj alice)]
    (set_rtdb (λ _, {[ user_path "u1" := VObj alice ]}) empty_world).

(** A voice of an Android browser, which reports locales with an
    underscore, and two more voices. *)
Definition hindi_android : Speech.Voice := Speech.mkVoice "Hindi India" "hi_IN".
Definition english_tagged : Speech.Voice :=
  Speech.mkVoice "Rishi" "en-IN-x-compact".
Definition tamil_india : Speech.Voice := Speech.mkVoice "Tamil India" "ta-IN".

(** The code units of a Devanagari greeting and of ["hello"]. *)
Definition namaste : list N := [2344; 2350; 2360; 2381; 2340; 2375]%N.
Definition hello : list N := [104; 101; 108; 108; 111]%N.

(** A browser with the speech API and the given voices loaded. *)
Definition browser (vs : list Speech.Voice) : Speech.Window :=
  Speech.mkWindow true vs [] [].

(* ===================================================================== *)
(** ** Further observations *)
(* ===================================================================== *)

(** [null] or [undefined]: the values a property read throws on. *)
Definition is_nullish (v : Value) : bool :=
  match v with
  | VUndef | VNull => true
  | _ => false
  end.

(** What [getSettings] answers in a world: the settings node, or [null]
    when the read is rejected. *)
Definition settings_read (w : World) : Value :=
  match fault 0 w with
  | None => node w "system_settings"
  | Some _ => VNull
  end.

(** The clock reading the next [Date.now()] gives. *)
Definition next_now (w : World) : Z := now w + Z.max 0 (hd 0 (ticks w)).

(** The package [addPackage] builds at clock reading [stamp]. *)
Definition new_package (stamp : Z) (name : string) (price credits : Z) : Value :=
  obj [ ("id", VStr ("pkg-" +:+ pretty stamp)); ("name", VStr name);
        ("price", VNum price); ("credits", VNum credits) ].

(** The packages of a settings record: [settings.packages || []]. *)
Definition packages_of (settings : gmap string Value) : Value :=
  js_or (default VUndef (settings !! "packages")) (VArr []).

(** The world once the clock has been read. *)
Definition after_clock (w : World) : World :=
  set_clock (next_now w) (tl (ticks w)) (set_log (log w ++ [ODateNow]) w).

(** The test [removePackage] keeps a package by: [p.id !== id]. *)
Definition other_package (id : string) (p : Value) : bool :=
  strict_ne_str (prop p "id") id.

(** A world with a settings record that lists one package. *)
Definition starter_pack : Value :=
  obj [ ("id", VStr "pkg-1"); ("name", VStr "Starter");
        ("price", VNum 99); ("credits", VNum 100) ].

Definition sample_settings : gmap string Value :=
  list_to_map [
    ("maintenanceMode", VBool false); ("noticeText", VStr "Welcome");
    ("packages", VArr [starter_pack]) ].

Definition settings_world : World :=
  set_rtdb (λ _, {[ "system_settings" := VObj sample_settings ]}) empty_world.

(** The message [sendInboxMessage] builds. *)
Definition new_message (stamp : Z) (text date : string) : Value :=
  obj [ ("id", VStr ("msg-" +:+ pretty stamp)); ("text", VStr text);
        ("date", VStr date); ("read", VBool false); ("type", VStr "TEXT") ].

(** [user.inbox || []] *)
Definition inbox_of (user : gmap string Value) : Value :=
  js_or (default VUndef (user !! "inbox")) (VArr []).

(** The days a plan adds to the day of the month. *)
Definition plan_days (plan : Plan) : option Z :=
  match plan with
  | WEEKLY => Some 7
  | MONTHLY => Some 30
  | YEARLY => Some 365
  | LIFETIME => None
  end.

(** The end date [grantSubscription] computes in a world: the second
    clock reading, its day of the month set to that of the first reading
    plus the days of the plan; none for [LIFETIME]. *)
Definition grant_end (plan : Plan) (w : World) : option Z :=
  let now := next_now w in
  let endDate := next_now (after_clock w) in
  days ← plan_days plan;
  Some (date_setDate (platform w) endDate (date_getDate (platform w) now + days)).

(** [user.subscriptionHistory || []] *)
Definition history_of (user : gmap string Value) : Value :=
  js_or (default VUndef (user !! "subscriptionHistory")) (VArr []).

(** The summary [scanUsers] gives of a user record. *)
Definition summary_of (u : Value) : Value :=
  obj [ ("id", prop u "id"); ("name", prop u "name"); ("email", prop u "email");
        ("role", prop u "role"); ("credits", prop u "credits");
        ("tier", prop u "subscriptionTier") ].

(** [u.isPremium], as a condition. *)
Definition is_premium (u : Value) : bool := truthy (prop u "isPremium").

(** The kind of a call that writes a remote store. *)
Definition write_kind (o : Op) : option string :=
  match o with
  | OSet _ _ => Some "set"
  | OUpdate _ _ => Some "update"
  | ORemove _ => Some "remove"
  | ODeleteDoc _ _ => Some "deleteDoc"
  | OSaveUserToLive _ => Some "saveUserToLive"
  | OSaveSystemSettings _ => Some "saveSystemSettings"
  | OSaveChapterData _ _ => Some "saveChapterData"
  | _ => None
  end.

(** The writing calls each action of the registry may make. *)
Definition footprint (a : Action) : list string :=
  match a with
  | A_deleteUser _ => ["deleteDoc"; "remove"]
  | A_updateUser _ _ | A_banUser _ _ | A_unbanUser _
  | A_grantSubscription _ _ _ | A_sendInboxMessage _ _
  | A_promoteSubAdmin _ | A_demoteSubAdmin _ => ["saveUserToLive"]
  | A_broadcastMessage _ | A_createWeeklyTest _ _ _
  | A_updateSystemSettings _ | A_toggleSetting _ _
  | A_addPackage _ _ _ | A_removePackage _ => ["saveSystemSettings"]
  | A_generateGiftCodes _ _ _ | A_saveCustomBloggerPage _ => ["set"]
  | A_approveRecoveryRequest _ => ["update"; "saveUserToLive"]
  | A_addUniversalVideo _ _ => ["saveChapterData"]
  | A_scanUsers _ | A_getRecentLogs _ | A_addSubject _ | A_runAutoPilot => []
  end.

Definition within (kinds : list string) (o : Op) : bool :=
  match write_kind o with
  | Some k => existsb (String.eqb k) kinds
  | None => true
  end.

(** A call that leaves every store as it is: no remote write and no
    [localStorage.setItem]. *)
Definition is_read_only (o : Op) : bool :=
  match o with
  | OLsSetItem _ _ => false
  | _ => negb (is_write o)
  end.

(** The user records a fetch of the collection [users] answers with. *)
Definition users_of (w : World) : list Value := snd <$> users_docs w.

(** Two worlds hold the same data: every store is the same; clock, log,
    console and the fate of later calls may differ. *)
Definition same_stores (w w' : World) : Prop :=
  rtdb w' = rtdb w ∧ users_docs w' = users_docs w ∧
  ai_interactions w' = ai_interactions w ∧ chapters w' = chapters w ∧
  localStorage w' = localStorage w.

(** A world with a paying and a free user in the collection [users]. *)
Definition two_users_world : World :=
  set_users_docs
    [ ("u1", obj [("id", VStr "u1"); ("name", VStr "Asha");
                  ("isPremium", VBool true); ("subscriptionTier", VStr "MONTHLY")]);
      ("u2", obj [("id", VStr "u2"); ("name", VStr "Ravi")]) ]
    empty_world.

(** The text [addSubject] parses: the stored pool, or ["{}"] when there is
    none or it is the empty string. *)
Definition pool_text (w : World) : string :=
  match localStorage w !! "nst_custom_subjects_pool" with
  | Some s => if String.eqb s "" then "{}" else s
  | None => "{}"
  end.

(** A browser whose stored pool is not JSON. *)
Definition corrupt_world : World :=
  set_localStorage {[ "nst_custom_subjects_pool" := "{oops" ]} empty_world.

(** *** What happens to the promise of [getAvailableVoices] afterwards *)

(** The browser fires [voiceschanged], the oldest timer expires, or the
    voice list of the browser becomes [vs]. *)
Inductive SpeechEvent : Type :=
| VoicesChanged
| TimerFires
| VoicesArrive (vs : list Speech.Voice).

Definition install_voices (vs : list Speech.Voice) (w : Speech.Window)
  : Speech.Window :=
  Speech.mkWindow (Speech.supported w) vs (Speech.queue w) (Speech.calls w).

Definition speech_event (e : SpeechEvent) (s : Speech.Loading * Speech.Window)
  : Speech.Loading * Speech.Window :=
  match e with
  | VoicesChanged => Speech.on_voiceschanged s.1 s.2
  | TimerFires => Speech.on_timeout s.1 s.2
  | VoicesArrive vs => (s.1, install_voices vs s.2)
  end.

Definition after_events (es : list SpeechEvent)
    (s : Speech.Loading * Speech.Window) : Speech.Loading * Speech.Window :=
  fold_left (λ s e, speech_event e s) es s.

(** A window without the speech API. *)
Definition no_speech : Speech.Window := Speech.mkWindow false [] [] [].

(** A voice that two categories claim. *)
Definition hindi_en_IN : Speech.Voice := Speech.mkVoice "Hindi India" "en-IN".

(** A world with three logged interactions, newest first. *)
Definition logs_world : World :=
  mkWorld ∅ [] [VStr "newest"; VStr "middle"; VStr "oldest"] ∅ ∅
    1700000000000 [] [] [] sample_platform [] [].

(* ===================================================================== *)
(** ** Laws of the interpreter *)
(* ===================================================================== *)

Lemma append_assoc (s1 s2 s3 : string) :
  (s1 +:+ s2) +:+ s3 = s1 +:+ (s2 +:+ s3).
Proof.
  induction s1 as [|c s1 IH]; [done|].
  change (String c ((s1 +:+ s2) +:+ s3) = String c (s1 +:+ (s2 +:+ s3))).
  by rewrite IH.
Qed.

Lemma run_bind {A B : Type} (p : Proc A) (f : A → Proc B) (w : World) :
  run (p ≫= f) w =
  match run p w with
  | (Returned a, w') => run (f a) w'
  | (Thrown e, w') => (Thrown e, w')
  end.
Proof.
  revert w. induction p as [a | e | o k IH]; intros w; try reflexivity.
  change (run (Vis o k ≫= f) w)
    with (let '(r, w') := perform o (set_log (log w ++ [o]) w) in
          run (k r ≫= f) w').
  simpl. destruct (perform o _) as [r w']. apply IH.
Qed.

Lemma run_try_catch {A : Type} (p : Proc A) (h : Error → Proc A) (w : World) :
  run (try_catch p h) w =
  match run p w with
  | (Returned a, w') => (Returned a, w')
  | (Thrown e, w') => run (h e) w'
  end.
Proof.
  revert w. induction p as [a | e | o k IH]; intros w; try reflexivity.
  simpl. destruct (perform o _) as [r w']. apply IH.
Qed.

Lemma run_call (o : Op) (w : World) :
  run (call o) w =
  match perform o (set_log (log w ++ [o]) w) with
  | (inl e, w') => (Thrown e, w')
  | (inr x, w') => (Returned x, w')
  end.
Proof.
  unfold call. simpl. destruct (perform o _) as [[e | x] w']; reflexivity.
Qed.

Lemma fault_0 (w : World) : hd None (faults w) = fault 0 w.
Proof. unfold fault. destruct (faults w); reflexivity. Qed.

(** A remote read that is not rejected. *)
Lemma run_get (path : string) (w : World) :
  fault 0 w = None →
  run (get path) w =
  (Returned (node w path), after_remote (OGet path) w).
Proof.
  intros Hf. unfold get, call. simpl. unfold remote. simpl.
  rewrite fault_0, Hf. reflexivity.
Qed.

Lemma run_get_rejected (path : string) (w : World) (e : Error) :
  fault 0 w = Some e →
  run (get path) w =
  (Thrown e, after_remote (OGet path) w).
Proof.
  intros Hf. unfold get, call. simpl. unfold remote. simpl.
  rewrite fault_0, Hf. reflexivity.
Qed.

(** [post] is monotone, follows [bind] and [try_catch], and is sound for
    [run]. *)
Lemma post_mono {A : Type} (p : Proc A) (Q Q' : A → Prop) (E E' : Error → Prop) :
  (∀ a, Q a → Q' a) → (∀ e, E e → E' e) → post p Q E → post p Q' E'.
Proof.
  intros HQ HE. induction p as [a | e | o k IH]; simpl; auto.
Qed.

Lemma post_bind {A B : Type} (p : Proc A) (f : A → Proc B)
    (Q : B → Prop) (E : Error → Prop) :
  post p (λ a, post (f a) Q E) E → post (p ≫= f) Q E.
Proof.
  induction p as [a | e | o k IH]; simpl; auto.
Qed.


Lemma post_try_catch {A : Type} (p : Proc A) (h : Error → Proc A)
    (Q : A → Prop) (E : Error → Prop) :
  post p Q (λ e, post (h e) Q E) → post (try_catch p h) Q E.
Proof.
  induction p as [a | e | o k IH]; simpl; auto.
Qed.

Lemma post_call (o : Op) (Q : Resp o → Prop) (E : Error → Prop) :
  (∀ x, Q x) → (∀ e, E e) → post (call o) Q E.
Proof. intros HQ HE [e | x] _; simpl; auto. Qed.

Lemma post_lift {A : Type} (r : Error + A) (Q : A → Prop) (E : Error → Prop) :
  (∀ a, r = inr a → Q a) → (∀ e, r = inl e → E e) → post (lift r) Q E.
Proof. destruct r; simpl; auto. Qed.

Lemma post_any {A : Type} (p : Proc A) : post p (λ _, True) (λ _, True).
Proof. induction p; simpl; auto. Qed.

Lemma admissible_perform (o : Op) (w : World) : admissible o (perform o w).1.
Proof.
  destruct o; simpl; try exact I;
    try (unfold remote; destruct (hd None (faults w)); simpl; done).
  - destruct (run_query q w); simpl; [done|].
    unfold remote; destruct (hd None (faults w)); simpl; done.
  - by destruct (JSON_parse (platform w) s).
Qed.

Lemma post_run {A : Type} (p : Proc A) (Q : A → Prop) (E : Error → Prop)
    (w : World) :
  post p Q E →
  match (run p w).1 with
  | Returned a => Q a
  | Thrown e => E e
  end.
Proof.
  revert w. induction p as [a | e | o k IH]; intros w; simpl; auto.
  intros H. pose proof (admissible_perform o (set_log (log w ++ [o]) w)) as Hadm.
  destruct (perform o _) as [r w']. apply IH, H, Hadm.
Qed.

(* ===================================================================== *)
(** ** The log of a run *)
(* ===================================================================== *)

Lemma log_remote {X : Type} (w : World) (act : World → X * World) :
  (∀ w0, log (act w0).2 = log w0) → log (remote w act).2 = log w.
Proof.
  intros Hact. unfold remote.
  destruct (hd None (faults w)); [reflexivity|].
  specialize (Hact (set_faults (tl (faults w)) w)).
  destruct (act _) as [x w']. exact Hact.
Qed.

Lemma log_perform (o : Op) (w : World) : log (perform o w).2 = log w.
Proof.
  destruct o; simpl; try reflexivity;
    try (apply log_remote; intros w0; simpl; try reflexivity).
  - destruct (run_query q w); [reflexivity|]. by apply log_remote.
  - by destruct (String.eqb coll "users").
  - by destruct (JSON_parse (platform w) s).
Qed.

Lemma log_run {A : Type} (p : Proc A) (w : World) :
  log (run p w).2 = log w ++ trace p w.
Proof.
  revert w. induction p as [a | e | o k IH]; intros w; simpl.
  - by rewrite app_nil_r.
  - by rewrite app_nil_r.
  - pose proof (log_perform o (set_log (log w ++ [o]) w)) as Hlog.
    destruct (perform o _) as [r w']. simpl in *.
    rewrite IH, Hlog. by rewrite <- app_assoc.
Qed.

Lemma issued_trace {A : Type} (p : Proc A) (w : World) :
  issued p w = trace p w.
Proof. unfold issued. rewrite log_run. by rewrite drop_app_length. Qed.


Lemma trace_try_catch {A : Type} (p : Proc A) (h : Error → Proc A) (w : World) :
  trace (try_catch p h) w =
  trace p w ++ match run p w with
               | (Returned _, _) => []
               | (Thrown e, w') => trace (h e) w'
               end.
Proof.
  revert w. induction p as [a | e | o k IH]; intros w; try reflexivity.
  simpl. destruct (perform o _) as [r w']. simpl. f_equal. apply IH.
Qed.



Lemma ops_all_bind {A B : Type} (P : Op → Prop) (p : Proc A) (f : A → Proc B) :
  ops_all P p → (∀ a, ops_all P (f a)) → ops_all P (p ≫= f).
Proof.
  intros Hp Hf. induction p as [a | e | o k IH]; simpl in *; auto.
  destruct Hp as [Ho Hk]. split; [done|]. intros r. apply IH, Hk.
Qed.

Lemma ops_all_call (P : Op → Prop) (o : Op) : P o → ops_all P (call o).
Proof. intros Ho. split; [done|]. by intros [e | x]. Qed.

Lemma ops_all_lift {A : Type} (P : Op → Prop) (r : Error + A) :
  ops_all P (lift r).
Proof. by destruct r. Qed.


(* ===================================================================== *)
(** ** [updateUser] and the actions built on it *)
(* ===================================================================== *)

Lemma fault_after_remote (i : nat) (o : Op) (w : World) :
  fault i (after_remote o w) = fault (S i) w.
Proof. unfold fault, after_remote. simpl. by destruct (faults w), i. Qed.

(** A remote write that is not rejected. *)
Lemma run_saveUserToLive (u : Value) (w : World) :
  fault 0 w = None →
  run (await_saveUserToLive u) w =
  (Returned tt, saveUserToLive u (after_remote (OSaveUserToLive u) w)).
Proof.
  intros Hf. unfold await_saveUserToLive, call. simpl. unfold remote. simpl.
  rewrite fault_0, Hf. reflexivity.
Qed.

Lemma run_saveUserToLive_rejected (u : Value) (w : World) (e : Error) :
  fault 0 w = Some e →
  run (await_saveUserToLive u) w =
  (Thrown e, after_remote (OSaveUserToLive u) w).
Proof.
  intros Hf. unfold await_saveUserToLive, call. simpl. unfold remote. simpl.
  rewrite fault_0, Hf. reflexivity.
Qed.

(** The run of [updateUser] on a record that exists. *)
Lemma run_updateUser_found (userId : string) (updates : gmap string Value)
    (w : World) :
  fault 0 w = None →
  node w (user_path userId) ≠ VNull →
  let merged := merged_user (node w (user_path userId)) updates in
  let w1 := after_remote (OGet (user_path userId)) w in
  let w2 := after_remote (OSaveUserToLive merged) w1 in
  run (updateUser userId updates) w =
  match fault 1 w with
  | None => (Returned ("User " +:+ userId +:+ " updated."),
             saveUserToLive merged w2)
  | Some e => (Thrown (new_Error ("Failed to update user: " +:+ message e)), w2)
  end.
Proof.
  intros Hf Hnode. cbv zeta. unfold updateUser.
  rewrite run_try_catch, run_bind, run_get by done.
  destruct (node w (user_path userId)) eqn:Hv; try done;
    simpl negb; cbv iota; rewrite run_bind;
    (destruct (fault 1 w) as [e|] eqn:H1;
     [ rewrite (run_saveUserToLive_rejected _ _ e)
         by (by rewrite fault_after_remote)
     | rewrite run_saveUserToLive by (by rewrite fault_after_remote) ]);
    reflexivity.
Qed.

(** The run of [updateUser] when there is no such record. *)
Lemma run_updateUser_missing (userId : string) (updates : gmap string Value)
    (w : World) :
  fault 0 w = None →
  node w (user_path userId) = VNull →
  run (updateUser userId updates) w =
  (Thrown (new_Error "Failed to update user: User not found"),
   after_remote (OGet (user_path userId)) w).
Proof.
  intros Hf Hnode. unfold updateUser.
  rewrite run_try_catch, run_bind, run_get by done.
  rewrite Hnode. reflexivity.
Qed.

Lemma accepts_fault (n i : nat) (w : World) :
  accepts n w → (i < n)%nat → fault i w = None.
Proof.
  unfold accepts, fault. intros Hall Hi.
  destruct (faults w !! i) as [f|] eqn:Hl; [|done].
  rewrite Forall_lookup in Hall. simpl.
  apply (Hall i). rewrite lookup_take_lt by done. exact Hl.
Qed.

Lemma issued_app {A : Type} (p : Proc A) (w : World) (ops : list Op) :
  log (run p w).2 = log w ++ ops → issued p w = ops.
Proof. unfold issued. intros ->. by rewrite drop_app_length. Qed.

(** The shallow merge, field by field. *)
Lemma spread2_lookup (a b : gmap string Value) (k : string) :
  spread2 a b !! k = match b !! k with Some v => Some v | None => a !! k end.
Proof.
  unfold spread2. rewrite lookup_union. destruct (b !! k), (a !! k); done.
Qed.

(** On a record that exists: the merge is shallow, the two calls are the
    read and the write of the merge, and an accepted write stores it. *)
Lemma updateUser_found
    (w : World) (userId : string) (updates current : gmap string Value) :
  fault 0 w = None →
  node w (user_path userId) = VObj current →
  let r := run (updateUser userId updates) w in
  ∃ merged : gmap string Value,
    (∀ k, merged !! k =
          match updates !! k with Some v => Some v | None => current !! k end) ∧
    issued (updateUser userId updates) w =
      [OGet (user_path userId); OSaveUserToLive (VObj merged)] ∧
    (fault 1 w = None →
       r.1 = Returned ("User " +:+ userId +:+ " updated.") ∧
       rtdb r.2 =
         <[user_path (toString (prop (VObj merged) "id")) := VObj merged]>
           (rtdb w)).
Proof.
  intros Hf Hcur r.
  assert (Hne : node w (user_path userId) ≠ VNull) by (by rewrite Hcur).
  pose proof (run_updateUser_found userId updates w Hf Hne) as Hrun.
  cbv zeta in Hrun. rewrite Hcur in Hrun.
  exists (spread2 current updates). split; [apply spread2_lookup|].
  split.
  - apply issued_app. rewrite Hrun.
    destruct (fault 1 w); simpl; by rewrite <- app_assoc.
  - intros H1. subst r. rewrite Hrun, H1. split; reflexivity.
Qed.

(** C1: for an existing user record and any partial update, [updateUser]
    reads the record, builds the shallow merge of that snapshot with the
    update (a field of the update replaces the snapshot's, every other
    field is the snapshot's) and writes the merged record back; when the
    record does not exist it throws and nothing is written. *)
Theorem updateUser_read_merge_write
    (w : World) (userId : string) (updates : gmap string Value) :
  fault 0 w = None →
  let path := user_path userId in
  let r := run (updateUser userId updates) w in
  (∀ current : gmap string Value,
     node w path = VObj current →
     ∃ merged : gmap string Value,
       (∀ k, merged !! k =
             match updates !! k with Some v => Some v | None => current !! k end) ∧
       issued (updateUser userId updates) w =
         [OGet path; OSaveUserToLive (VObj merged)] ∧
       (fault 1 w = None →
          r.1 = Returned ("User " +:+ userId +:+ " updated.") ∧
          rtdb r.2 =
            <[user_path (toString (prop (VObj merged) "id")) := VObj merged]>
              (rtdb w))) ∧
  (node w path = VNull →
     r.1 = Thrown (new_Error "Failed to update user: User not found") ∧
     issued (updateUser userId updates) w = [OGet path] ∧
     rtdb r.2 = rtdb w).
Proof.
  intros Hf path r. split.
  - intros current Hcur. exact (updateUser_found w userId updates current Hf Hcur).
  - intros Hnull. subst r.
    rewrite (run_updateUser_missing userId updates w Hf Hnull).
    split; [reflexivity|]. split; [|reflexivity].
    apply issued_app.
    by rewrite (run_updateUser_missing userId updates w Hf Hnull).
Qed.

Lemma updateUser_read_merge_write_witness :
  (run (updateUser "u1" {[ "credits" := VNum 10 ]}) sample_world).1 =
    Returned "User u1 updated." ∧
  node (run (updateUser "u1" {[ "credits" := VNum 10 ]}) sample_world).2
    (user_path "u1") = VObj (<["credits" := VNum 10]> alice).
Proof.
  destruct (updateUser_read_merge_write sample_world "u1"
              {[ "credits" := VNum 10 ]} eq_refl) as [Hfound _].
  destruct (Hfound alice eq_refl) as (merged & _ & _ & Hok).
  destruct (Hok eq_refl) as [Hret _].
  split; [exact Hret | vm_compute; reflexivity].
Defined.

(** C9: on an existing user record, [banUser userId reason] writes the
    record with [isLocked] set to [true] and every other field as it was
    read; the reason is not persisted, so two calls that differ in the
    reason only leave the same stored state. *)
Theorem banUser_locks_and_drops_reason
    (w : World) (userId reason : string) (current : gmap string Value) :
  accepts 2 w →
  node w (user_path userId) = VObj current →
  let r := run (banUser userId reason) w in
  ∃ stored : gmap string Value,
    issued (banUser userId reason) w =
      [OGet (user_path userId); OSaveUserToLive (VObj stored)] ∧
    rtdb r.2 =
      <[user_path (toString (prop (VObj stored) "id")) := VObj stored]> (rtdb w) ∧
    stored !! "isLocked" = Some (VBool true) ∧
    (∀ k, k ≠ "isLocked" → stored !! k = current !! k) ∧
    (∀ reason' : string, run (banUser userId reason') w = r).
Proof.
  intros Hacc Hcur r.
  assert (H0 : fault 0 w = None) by (apply (accepts_fault 2); [done | lia]).
  assert (H1 : fault 1 w = None) by (apply (accepts_fault 2); [done | lia]).
  destruct (updateUser_found w userId {[ "isLocked" := VBool true ]} current
              H0 Hcur) as (stored & Hmerge & Hissued & Hok).
  destruct (Hok H1) as [_ Hdb].
  exists stored. split; [exact Hissued|]. split; [exact Hdb|].
  split; [|split].
  - rewrite Hmerge. by rewrite lookup_singleton_eq.
  - intros k Hk. rewrite Hmerge. by rewrite lookup_singleton_ne.
  - reflexivity.
Qed.

Lemma banUser_locks_and_drops_reason_witness :
  ∃ stored : gmap string Value,
    rtdb (run (banUser "u1" "spam") sample_world).2 =
      <[user_path (toString (prop (VObj stored) "id")) := VObj stored]>
        (rtdb sample_world) ∧
    stored !! "isLocked" = Some (VBool true) ∧
    run (banUser "u1" "abuse") sample_world = run (banUser "u1" "spam") sample_world.
Proof.
  assert (Hacc : accepts 2 sample_world) by constructor.
  destruct (banUser_locks_and_drops_reason sample_world "u1" "spam" alice
              Hacc eq_refl) as (stored & _ & Hdb & Hlock & _ & Hreason).
  exists stored. split; [exact Hdb|]. split; [exact Hlock|]. apply Hreason.
Defined.

(* ===================================================================== *)
(** ** Lost updates *)
(* ===================================================================== *)

(** [updateUser] is two steps: the read, and the write of the merge onto
    what that read returned, whatever the record has become since. *)
Lemma updateUser_two_steps (userId : string) (updates current : gmap string Value)
    (w : World) :
  fault 0 w = None →
  node w (user_path userId) = VObj current →
  ∃ pending : Proc string,
    step (updateUser userId updates) w =
      (pending, after_remote (OGet (user_path userId)) w) ∧
    ∀ w1 : World,
      fault 0 w1 = None →
      let merged := VObj (spread2 current updates) in
      step pending w1 =
        (Ret ("User " +:+ userId +:+ " updated."),
         saveUserToLive merged (after_remote (OSaveUserToLive merged) w1)).
Proof.
  intros Hf Hcur. unfold updateUser, get, call. simpl.
  unfold remote. simpl. rewrite fault_0, Hf.
  fold (node w (user_path userId)). rewrite Hcur. simpl.
  eexists. split; [reflexivity|].
  intros w1 Hf1. simpl. unfold remote. simpl. rewrite fault_0, Hf1.
  reflexivity.
Qed.

Lemma node_saveUserToLive (u : Value) (userId : string) (w : World) :
  prop u "id" = VStr userId →
  node (saveUserToLive u w) (user_path userId) = u.
Proof.
  intros Hid. unfold node, saveUserToLive. simpl. rewrite Hid. simpl.
  by rewrite lookup_insert_eq.
Qed.

Lemma merged_id (current updates : gmap string Value) (userId : string) :
  current !! "id" = Some (VStr userId) → updates !! "id" = None →
  prop (VObj (spread2 current updates)) "id" = VStr userId.
Proof.
  intros Hc Hu. simpl. by rewrite spread2_lookup, Hu, Hc.
Qed.

(** C7: an update reads and then writes, and nothing checks that the
    record is still the one that was read.  When two invocations on the
    same record both read before either writes, the second write is the
    merge onto the stale snapshot: a field set by the first writer only
    is back to what the snapshot had, though both invocations report
    success.  One invocation after the other keeps that field. *)
Theorem concurrent_updateUser_clobbers
    (w : World) (userId field : string) (current a b : gmap string Value)
    (va : Value) :
  accepts 4 w →
  node w (user_path userId) = VObj current →
  current !! "id" = Some (VStr userId) →
  a !! "id" = None → b !! "id" = None →
  a !! field = Some va → b !! field = None → current !! field ≠ Some va →
  (let '(p, q, w') :=
     interleave [First; Second; First; Second]
       (updateUser userId a) (updateUser userId b) w in
   outcome p = Some (Returned ("User " +:+ userId +:+ " updated.")) ∧
   outcome q = Some (Returned ("User " +:+ userId +:+ " updated.")) ∧
   count_ops is_write (drop (length (log w)) (log w')) = 2%nat ∧
   ∃ stored : gmap string Value,
     node w' (user_path userId) = VObj stored ∧
     stored !! field = current !! field ∧
     stored !! field ≠ Some va) ∧
  (let w' := (run (updateUser userId b) (run (updateUser userId a) w).2).2 in
   ∃ stored : gmap string Value,
     node w' (user_path userId) = VObj stored ∧
     stored !! field = Some va).
Proof.
  intros Hacc Hcur Hid Ha Hb Hfa Hfb Hold.
  assert (H0 : fault 0 w = None) by (apply (accepts_fault 4); [done | lia]).
  assert (H1 : fault 1 w = None) by (apply (accepts_fault 4); [done | lia]).
  assert (H2 : fault 2 w = None) by (apply (accepts_fault 4); [done | lia]).
  assert (H3 : fault 3 w = None) by (apply (accepts_fault 4); [done | lia]).
  split.
  - destruct (updateUser_two_steps userId a current w H0 Hcur)
      as (pa & Hread_a & Hwrite_a).
    set (w1 := after_remote (OGet (user_path userId)) w) in *.
    assert (Hcur1 : node w1 (user_path userId) = VObj current) by exact Hcur.
    assert (H01 : fault 0 w1 = None)
      by (subst w1; by rewrite fault_after_remote).
    destruct (updateUser_two_steps userId b current w1 H01 Hcur1)
      as (pb & Hread_b & Hwrite_b).
    set (w2 := after_remote (OGet (user_path userId)) w1) in *.
    assert (H02 : fault 0 w2 = None)
      by (subst w2 w1; by rewrite !fault_after_remote).
    specialize (Hwrite_a w2 H02). cbv zeta in Hwrite_a.
    set (ma := VObj (spread2 current a)) in *.
    set (w3 := saveUserToLive ma (after_remote (OSaveUserToLive ma) w2)) in *.
    assert (H03 : fault 0 w3 = None).
    { subst w3 w2 w1. unfold saveUserToLive.
      change (fault 0 (after_remote (OSaveUserToLive ma)
                (after_remote (OGet (user_path userId)) (after_remote (OGet (user_path userId)) w))) = None).
      by rewrite !fault_after_remote. }
    specialize (Hwrite_b w3 H03). cbv zeta in Hwrite_b.
    set (mb := VObj (spread2 current b)) in *.
    cbn [interleave]. rewrite Hread_a. cbn [interleave]. rewrite Hread_b.
    cbn [interleave]. rewrite Hwrite_a. cbn [interleave]. rewrite Hwrite_b.
    split; [reflexivity|]. split; [reflexivity|]. split.
    + subst w3 w2 w1. simpl. rewrite <- !app_assoc.
      rewrite drop_app_length. reflexivity.
    + exists (spread2 current b). split.
      * apply node_saveUserToLive. by apply merged_id.
      * rewrite spread2_lookup, Hfb. done.
  - cbv zeta.
    assert (Hne : node w (user_path userId) ≠ VNull) by (by rewrite Hcur).
    rewrite (run_updateUser_found userId a w H0 Hne).
    rewrite H1, Hcur. cbn [snd].
    set (ma := merged_user (VObj current) a).
    set (w2 := saveUserToLive ma _).
    assert (Hn2 : node w2 (user_path userId) = ma).
    { subst w2. apply node_saveUserToLive. by apply merged_id. }
    assert (Hf2 : fault 0 w2 = None).
    { subst w2. unfold saveUserToLive.
      change (fault 0 (after_remote (OSaveUserToLive ma)
                (after_remote (OGet (user_path userId)) w)) = None).
      by rewrite !fault_after_remote. }
    assert (Hf3 : fault 1 w2 = None).
    { subst w2. unfold saveUserToLive.
      change (fault 1 (after_remote (OSaveUserToLive ma)
                (after_remote (OGet (user_path userId)) w)) = None).
      by rewrite !fault_after_remote. }
    assert (Hne2 : node w2 (user_path userId) ≠ VNull) by (by rewrite Hn2).
    rewrite (run_updateUser_found userId b w2 Hf2 Hne2).
    rewrite Hf3, Hn2. cbn [snd].
    exists (spread2 (spread2 current a) b). split.
    + apply node_saveUserToLive. apply merged_id; [|done].
      by rewrite spread2_lookup, Ha.
    + by rewrite !spread2_lookup, Hfb, Hfa.
Qed.

Lemma concurrent_updateUser_clobbers_witness :
  let '(p, q, w') :=
    interleave [First; Second; First; Second]
      (updateUser "u1" {[ "credits" := VNum 10 ]})
      (updateUser "u1" {[ "isLocked" := VBool true ]}) sample_world in
  ∃ stored : gmap string Value,
    node w' (user_path "u1") = VObj stored ∧
    stored !! "credits" = Some (VNum 5).
Proof.
  assert (Hacc : accepts 4 sample_world) by constructor.
  assert (Hold : alice !! "credits" ≠ Some (VNum 10)) by (vm_compute; discriminate).
  assert (Ha : ({[ "credits" := VNum 10 ]} : gmap string Value) !! "id" = None)
    by (vm_compute; reflexivity).
  assert (Hb : ({[ "isLocked" := VBool true ]} : gmap string Value) !! "id" = None)
    by (vm_compute; reflexivity).
  assert (Hfa : ({[ "credits" := VNum 10 ]} : gmap string Value) !! "credits"
                = Some (VNum 10)) by (vm_compute; reflexivity).
  assert (Hfb : ({[ "isLocked" := VBool true ]} : gmap string Value) !! "credits"
                = None) by (vm_compute; reflexivity).
  destruct (concurrent_updateUser_clobbers sample_world "u1" "credits" alice
              {[ "credits" := VNum 10 ]} {[ "isLocked" := VBool true ]}
              (VNum 10) Hacc eq_refl eq_refl Ha Hb Hfa Hfb Hold)
    as [Hrace _].
  destruct (interleave _ _ _ _) as [[p q] w'].
  destruct Hrace as (_ & _ & _ & stored & Hnode & Hsame & _).
  exists stored. split; [exact Hnode|]. rewrite Hsame. reflexivity.
Defined.

(** The same race on the settings record: [updateSystemSettings] reads
    through [getSettings] and writes the merge onto what it read. *)
Lemma updateSystemSettings_two_steps
    (updates current : gmap string Value) (w : World) :
  fault 0 w = None →
  node w "system_settings" = VObj current →
  ∃ pending : Proc string,
    step (updateSystemSettings updates) w =
      (pending, after_remote (OGet "system_settings") w) ∧
    ∀ w1 : World,
      fault 0 w1 = None →
      let merged := VObj (spread2 current updates) in
      step pending w1 =
        (Ret "Settings updated.",
         saveSystemSettings merged (after_remote (OSaveSystemSettings merged) w1)).
Proof.
  intros Hf Hcur. unfold updateSystemSettings, getSettings, get, call. simpl.
  unfold remote. simpl. rewrite fault_0, Hf.
  fold (node w "system_settings"). rewrite Hcur. simpl.
  eexists. split; [reflexivity|].
  intros w1 Hf1. simpl. unfold remote. simpl. rewrite fault_0, Hf1.
  reflexivity.
Qed.

Lemma concurrent_updateSystemSettings_clobbers
    (w : World) (field : string) (current a b : gmap string Value) (va : Value) :
  accepts 4 w →
  node w "system_settings" = VObj current →
  a !! field = Some va → b !! field = None → current !! field ≠ Some va →
  let '(p, q, w') :=
    interleave [First; Second; First; Second]
      (updateSystemSettings a) (updateSystemSettings b) w in
  outcome p = Some (Returned "Settings updated.") ∧
  outcome q = Some (Returned "Settings updated.") ∧
  ∃ stored : gmap string Value,
    node w' "system_settings" = VObj stored ∧
    stored !! field = current !! field ∧
    stored !! field ≠ Some va.
Proof.
  intros Hacc Hcur Hfa Hfb Hold.
  assert (H0 : fault 0 w = None) by (apply (accepts_fault 4); [done | lia]).
  assert (H1 : fault 1 w = None) by (apply (accepts_fault 4); [done | lia]).
  assert (H2 : fault 2 w = None) by (apply (accepts_fault 4); [done | lia]).
  assert (H3 : fault 3 w = None) by (apply (accepts_fault 4); [done | lia]).
  destruct (updateSystemSettings_two_steps a current w H0 Hcur)
    as (pa & Hread_a & Hwrite_a).
  set (w1 := after_remote (OGet "system_settings") w) in *.
  assert (H01 : fault 0 w1 = None) by (subst w1; by rewrite fault_after_remote).
  destruct (updateSystemSettings_two_steps b current w1 H01 Hcur)
    as (pb & Hread_b & Hwrite_b).
  set (w2 := after_remote (OGet "system_settings") w1) in *.
  assert (H02 : fault 0 w2 = None)
    by (subst w2 w1; by rewrite !fault_after_remote).
  specialize (Hwrite_a w2 H02). cbv zeta in Hwrite_a.
  set (ma := VObj (spread2 current a)) in *.
  set (w3 := saveSystemSettings ma (after_remote (OSaveSystemSettings ma) w2)) in *.
  assert (H03 : fault 0 w3 = None).
  { subst w3 w2 w1. unfold saveSystemSettings.
    change (fault 0 (after_remote (OSaveSystemSettings ma)
              (after_remote (OGet "system_settings")
                 (after_remote (OGet "system_settings") w))) = None).
    by rewrite !fault_after_remote. }
  specialize (Hwrite_b w3 H03). cbv zeta in Hwrite_b.
  cbn [interleave]. rewrite Hread_a. cbn [interleave]. rewrite Hread_b.
  cbn [interleave]. rewrite Hwrite_a. cbn [interleave]. rewrite Hwrite_b.
  split; [reflexivity|]. split; [reflexivity|].
  exists (spread2 current b). split.
  - unfold node, saveSystemSettings. simpl. by rewrite lookup_insert_eq.
  - rewrite spread2_lookup, Hfb. done.
Qed.

(* ===================================================================== *)
(** ** Error handling *)
(* ===================================================================== *)

Lemma post_total {A : Type} (p : Proc A) (Q : A → Prop) (E : Error → Prop) :
  (∀ a, Q a) → (∀ e, E e) → post p Q E.
Proof.
  intros HQ HE. apply (post_mono p (λ _, True) Q (λ _, True) E); auto.
  apply post_any.
Qed.

Lemma post_deleteUser (userId : string) :
  post (deleteUser userId) (λ _, True)
    (wraps ("Failed to delete user " +:+ userId +:+ ": ")).
Proof.
  apply post_try_catch. apply post_total; [auto|].
  intros e. exists (message e). simpl. by rewrite !append_assoc.
Qed.

Lemma post_updateUser (userId : string) (updates : gmap string Value) :
  post (updateUser userId updates) (λ _, True) (wraps "Failed to update user: ").
Proof.
  apply post_try_catch. apply post_total; [auto|].
  intros e. simpl. by exists (message e).
Qed.

Lemma post_getSettings : post getSettings (λ _, True) (λ _, False).
Proof. apply post_try_catch. intros [e | v] _; simpl; [done|]. by destruct v. Qed.

Lemma post_getRecentLogs (limit : option Z) :
  post (getRecentLogs limit) (λ _, True) (λ _, False).
Proof. apply post_try_catch. by intros [e | v] _. Qed.

Lemma post_getAllUsers : post getAllUsers (λ _, True) (λ _, False).
Proof.
  apply post_try_catch. intros [e | v] _; simpl; [|done]. by intros [e' | []] Hadm.
Qed.

Lemma wraps_wrapped (context : string) (e : Error) :
  wraps ("Failed to " +:+ context +:+ ": ") e → wrapped e.
Proof.
  intros [original ->]. exists context, original. simpl.
  by rewrite !append_assoc.
Qed.

Lemma fault_rejects (w : World) :
  fault 0 w ≠ None → ∃ e, hd None (faults w) = Some e.
Proof. rewrite <- fault_0. destruct (hd None (faults w)); eauto. done. Qed.

(** C2, as the code has it: where the registry catches an error it does
    one of two things.  [deleteUser] and [updateUser] rethrow: whatever
    goes wrong inside them, the error that leaves carries a prefix and
    then the message of the original one.  [getSettings] never throws and
    answers [null] for a rejected or empty read; [getRecentLogs] and
    [getAllUsers] never throw and answer the empty array for a rejected
    fetch.  An action without a handler of its own lets the error out as
    it is: [updateSystemSettings] throws the bare ["Settings not found"],
    and a rejected read in [sendInboxMessage] reaches the caller
    untouched. *)
Theorem caught_errors_wrapped_or_swallowed (w : World) :
  (∀ userId e,
     (run (deleteUser userId) w).1 = Thrown e →
     wraps ("Failed to delete user " +:+ userId +:+ ": ") e ∧ wrapped e) ∧
  (∀ userId updates e,
     (run (updateUser userId updates) w).1 = Thrown e →
     wraps "Failed to update user: " e ∧ wrapped e) ∧
  (∀ userId updates e0,
     fault 0 w = Some e0 →
     (run (updateUser userId updates) w).1 =
       Thrown (new_Error ("Failed to update user: " +:+ message e0))) ∧
  (∀ userId e0,
     fault 0 w = Some e0 →
     (run (deleteUser userId) w).1 =
       Thrown (new_Error
                 ("Failed to delete user " +:+ userId +:+ ": " +:+ message e0))) ∧
  (∀ e, (run getSettings w).1 ≠ Thrown e) ∧
  (fault 0 w ≠ None ∨ node w "system_settings" = VNull →
     (run getSettings w).1 = Returned VNull) ∧
  (∀ limit e, (run (getRecentLogs limit) w).1 ≠ Thrown e) ∧
  (∀ limit, fault 0 w ≠ None → (run (getRecentLogs limit) w).1 = Returned []) ∧
  (∀ e, (run getAllUsers w).1 ≠ Thrown e) ∧
  (fault 0 w ≠ None → (run getAllUsers w).1 = Returned []) ∧
  (∀ updates,
     fault 0 w = None → node w "system_settings" = VNull →
     (run (updateSystemSettings updates) w).1 =
       Thrown (new_Error "Settings not found")) ∧
  (∀ userId text e0,
     fault 0 w = Some e0 →
     (run (sendInboxMessage userId text) w).1 = Thrown e0).
Proof.
  repeat split.
  - pose proof (post_run _ _ _ w (post_deleteUser userId)) as Hp.
    by rewrite H in Hp.
  - pose proof (post_run _ _ _ w (post_deleteUser userId)) as Hp.
    rewrite H in Hp. by apply (wraps_wrapped ("delete user " +:+ userId)).
  - pose proof (post_run _ _ _ w (post_updateUser userId updates)) as Hp.
    by rewrite H in Hp.
  - pose proof (post_run _ _ _ w (post_updateUser userId updates)) as Hp.
    rewrite H in Hp. by apply (wraps_wrapped "update user").
  - intros userId updates e0 Hf. unfold updateUser.
    rewrite run_try_catch, run_bind, (run_get_rejected _ _ e0) by done.
    reflexivity.
  - intros userId e0 Hf. unfold deleteUser, deleteDoc, call. simpl.
    unfold remote. simpl. rewrite fault_0, Hf. reflexivity.
  - intros e He. pose proof (post_run _ _ _ w post_getSettings) as Hp.
    by rewrite He in Hp.
  - intros [Hf | Hnull]; unfold getSettings, get, call; simpl;
      unfold remote; simpl.
    + destruct (fault_rejects w Hf) as [e ->]. reflexivity.
    + destruct (hd None (faults w)); [reflexivity|]. simpl.
      fold (node w "system_settings"). by rewrite Hnull.
  - intros limit e He.
    pose proof (post_run _ _ _ w (post_getRecentLogs limit)) as Hp.
    by rewrite He in Hp.
  - intros limit Hf. unfold getRecentLogs, getDocs, call. simpl.
    destruct (run_query _ _); [reflexivity|].
    unfold remote. simpl. destruct (fault_rejects w Hf) as [e ->]. reflexivity.
  - intros e He. pose proof (post_run _ _ _ w post_getAllUsers) as Hp.
    by rewrite He in Hp.
  - intros Hf. unfold getAllUsers, getDocs, call. simpl.
    unfold remote. simpl. destruct (fault_rejects w Hf) as [e ->]. reflexivity.
  - intros updates Hf Hnull. unfold updateSystemSettings, getSettings.
    rewrite run_bind, run_try_catch, run_bind, run_get by done.
    rewrite Hnull. reflexivity.
  - intros userId text e0 Hf. unfold sendInboxMessage.
    rewrite run_bind, (run_get_rejected _ _ e0) by done. reflexivity.
Qed.

Lemma caught_errors_wrapped_or_swallowed_witness :
  wraps "Failed to update user: "
    (new_Error "Failed to update user: User not found") ∧
  (run getSettings sample_world).1 = Returned VNull.
Proof.
  destruct (caught_errors_wrapped_or_swallowed sample_world)
    as (_ & Hupdate & _ & _ & _ & Hsettings & _).
  split.
  - apply (Hupdate "nobody" ∅ (new_Error "Failed to update user: User not found")).
    vm_compute. reflexivity.
  - apply Hsettings. right. vm_compute. reflexivity.
Defined.

(** C2 as stated fails: actions without a handler let errors out as they
    are.  [updateSystemSettings] on a store without settings throws the
    bare ["Settings not found"], and a rejected read in
    [sendInboxMessage] reaches the caller untouched. *)
Lemma unwrapped_errors_escape :
  ¬ (∀ (DEFAULT_SUBJECTS : Value) (a : Action) (w : World) (e : Error),
       (run (ActionRegistry DEFAULT_SUBJECTS a) w).1 = Thrown e → wrapped e).
Proof.
  intros Hall.
  assert (Hthrown :
    (run (ActionRegistry (VObj ∅) (A_updateSystemSettings ∅)) empty_world).1 =
      Thrown (new_Error "Settings not found")) by (vm_compute; reflexivity).
  destruct (Hall _ _ _ _ Hthrown) as (context & original & Hmsg).
  vm_compute in Hmsg. discriminate Hmsg.
Qed.

Example rejected_read_escapes :
  (run (sendInboxMessage "u1" "hello")
     (set_faults [Some (new_Error "network down")] sample_world)).1 =
  Thrown (new_Error "network down").
Proof. vm_compute. reflexivity. Qed.

(* ===================================================================== *)
(** ** What the actions return *)
(* ===================================================================== *)






(* ===================================================================== *)
(** ** The tool schemas *)
(* ===================================================================== *)

Lemma action_name_is_key (a : Action) : action_name a ∈ ActionRegistry_keys.
Proof.
  apply list_elem_of_In.
  destruct a; simpl; tauto.
Qed.

Lemma key_has_action (key : string) :
  key ∈ ActionRegistry_keys →
  ∃ a : Action, action_name a = key.
Proof.
  unfold ActionRegistry_keys. rewrite !elem_of_cons, elem_of_nil.
  intros H. repeat (destruct H as [-> | H]); [..|done].
  - by exists (A_deleteUser "").
  - by exists (A_updateUser "" ∅).
  - by exists (A_banUser "" "").
  - by exists (A_unbanUser "").
  - by exists (A_grantSubscription "" WEEKLY BASIC).
  - by exists (A_broadcastMessage "").
  - by exists (A_sendInboxMessage "" "").
  - by exists (A_createWeeklyTest "" "" 0).
  - by exists (A_scanUsers ALL).
  - by exists (A_getRecentLogs None).
  - by exists (A_addSubject "").
  - by exists (A_generateGiftCodes 0 0 None).
  - by exists (A_updateSystemSettings ∅).
  - by exists (A_toggleSetting "" false).
  - by exists (A_addPackage "" 0 0).
  - by exists (A_removePackage "").
  - by exists (A_promoteSubAdmin "").
  - by exists (A_demoteSubAdmin "").
  - by exists (A_approveRecoveryRequest "").
  - by exists (A_addUniversalVideo "" "").
  - by exists (A_saveCustomBloggerPage "").
  - by exists A_runAutoPilot.
Qed.

Lemma check_tool_sound (t : Value) : check_tool t = true → well_formed_tool t.
Proof.
  unfold check_tool, well_formed_tool. cbv zeta.
  destruct (prop t "type") as [| | | |ty| |]; try discriminate.
  destruct (prop (prop t "function") "name") as [| | | |name| |];
    try discriminate.
  destruct (prop (prop t "function") "description") as [| | | |descr| |];
    try discriminate.
  destruct (prop (prop (prop t "function") "parameters") "type")
    as [| | | |pty| |]; try discriminate.
  destruct (prop (prop (prop t "function") "parameters") "properties")
    as [| | | | | |properties]; try discriminate.
  rewrite !andb_true_iff, !String.eqb_eq. intros [[-> ->] Hreq].
  split; [done|]. exists name, descr, properties.
  repeat (split; [done|]).
  destruct (prop (prop (prop t "function") "parameters") "required")
    as [| | | | |rs|]; try done.
  simpl in Hreq. rewrite forallb_forall in Hreq.
  apply List.Forall_forall. intros r Hr. specialize (Hreq r Hr).
  destruct r as [| | | |s| |]; try discriminate.
  exists s. split; [done|]. by destruct (properties !! s).
Qed.

Lemma check_name_sound (t : Value) :
  check_name t = true →
  ∃ name, tool_name t = Some name ∧ name ∈ ActionRegistry_keys.
Proof.
  unfold check_name. destruct (tool_name t) as [name|]; [|discriminate].
  rewrite existsb_exists. intros (key & Hin & Heq).
  apply String.eqb_eq in Heq. subst key.
  exists name. split; [done|]. by apply list_elem_of_In.
Qed.

(** C4: every element of [adminTools] is a descriptor of type
    ["function"] with a name, a description and a parameters schema whose
    [required] list names declared properties only, and every tool name
    is a key of [ActionRegistry]. *)
Theorem adminTools_well_formed :
  Forall well_formed_tool adminTools ∧
  Forall (λ t, ∃ name, tool_name t = Some name ∧ name ∈ ActionRegistry_keys)
    adminTools.
Proof.
  split; apply List.Forall_forall; intros t Ht.
  - apply check_tool_sound.
    assert (Hall : forallb check_tool adminTools = true)
      by (vm_compute; reflexivity).
    rewrite forallb_forall in Hall. by apply Hall.
  - apply check_name_sound.
    assert (Hall : forallb check_name adminTools = true)
      by (vm_compute; reflexivity).
    rewrite forallb_forall in Hall. by apply Hall.
Qed.

(* ===================================================================== *)
(** ** Gift codes *)
(* ===================================================================== *)



















(* ===================================================================== *)
(** ** No retry *)
(* ===================================================================== *)

Lemma no_retry_mono {A : Type} (b : bool) (p : Proc A)
    (Q Q' : bool → A → Prop) (E E' : bool → Error → Prop) :
  (∀ b' a, Q b' a → Q' b' a) → (∀ b' e, E b' e → E' b' e) →
  no_retry b p Q E → no_retry b p Q' E'.
Proof.
  intros HQ HE. revert b.
  induction p as [a | e | o k IH]; intros b; simpl; auto.
  intros [Ho Hk]. split; [done|]. intros r. apply IH, Hk.
Qed.

Lemma no_retry_bind {A B : Type} (b : bool) (p : Proc A) (f : A → Proc B)
    (Q : bool → B → Prop) (E : bool → Error → Prop) :
  no_retry b p (λ b' a, no_retry b' (f a) Q E) E → no_retry b (p ≫= f) Q E.
Proof.
  revert b. induction p as [a | e | o k IH]; intros b; simpl; auto.
  intros [Ho Hk]. split; [done|]. intros r. apply IH, Hk.
Qed.

Lemma no_retry_fmap {A B : Type} (b : bool) (p : Proc A) (f : A → B)
    (Q : bool → B → Prop) (E : bool → Error → Prop) :
  no_retry b p (λ b' a, Q b' (f a)) E → no_retry b (f <$> p) Q E.
Proof.
  unfold fmap, proc_fmap.
  revert b. induction p as [a | e | o k IH]; intros b; simpl; auto.
  intros [Ho Hk]. split; [done|]. intros r. apply IH, Hk.
Qed.

Lemma no_retry_try_catch {A : Type} (b : bool) (p : Proc A) (h : Error → Proc A)
    (Q : bool → A → Prop) (E : bool → Error → Prop) :
  no_retry b p Q (λ b' e, no_retry b' (h e) Q E) → no_retry b (try_catch p h) Q E.
Proof.
  revert b. induction p as [a | e | o k IH]; intros b; simpl; auto.
  intros [Ho Hk]. split; [done|]. intros r. apply IH, Hk.
Qed.

(** A first remote call, with the flag it leaves. *)
Lemma no_retry_call (o : Op) (Q : bool → Resp o → Prop) (E : bool → Error → Prop) :
  (∀ x, Q false x) → (∀ e, E (is_remote o) e) → no_retry false (call o) Q E.
Proof.
  intros HQ HE. split; [done|]. intros [e | x]; simpl.
  - rewrite andb_true_r. apply HE.
  - rewrite andb_false_r. apply HQ.
Qed.

(** A computation without remote calls, under any flag. *)
Lemma no_retry_local {A : Type} (b : bool) (p : Proc A)
    (Q : bool → A → Prop) (E : bool → Error → Prop) :
  ops_all (λ o, is_remote o = false) p →
  (∀ a, Q b a) → (∀ e, E b e) → no_retry b p Q E.
Proof.
  intros Hp HQ HE. induction p as [a | e | o k IH]; simpl; auto.
  destruct Hp as [Ho Hk]. split; [done|]. intros r.
  rewrite Ho, andb_false_l, orb_false_r. apply IH, Hk.
Qed.

Lemma no_retry_any {A : Type} (p : Proc A) :
  ops_all (λ o, is_remote o = false) p →
  ∀ b, no_retry b p any_leaf any_leaf.
Proof. intros Hp b. by apply no_retry_local. Qed.

(** *** What the predicate means on a run *)

Lemma faults_perform_local (o : Op) (w : World) :
  is_remote o = false → faults (perform o w).2 = faults w.
Proof.
  destruct o; try discriminate; intros _; simpl; try reflexivity.
  by destruct (JSON_parse (platform w) s).
Qed.

Lemma faults_remote {X : Type} (w : World) (act : World → X * World) :
  (∀ w0, faults (act w0).2 = faults w0) →
  match (remote w act).1 with
  | inl _ => True
  | inr _ => hd None (faults w) = None ∧ faults (remote w act).2 = tl (faults w)
  end.
Proof.
  intros Hact. unfold remote. destruct (hd None (faults w)); simpl; [done|].
  specialize (Hact (set_faults (tl (faults w)) w)).
  destruct (act _) as [x w']. simpl in *. done.
Qed.

Lemma faults_perform_remote (o : Op) (w : World) :
  is_remote o = true →
  match (perform o w).1 with
  | inl _ => True
  | inr _ => hd None (faults w) = None ∧ faults (perform o w).2 = tl (faults w)
  end.
Proof.
  destruct o; try discriminate; intros _; simpl;
    try (apply faults_remote; intros w0; simpl; try reflexivity).
  - destruct (run_query q w); simpl; [done|]. by apply faults_remote.
  - by destruct (String.eqb coll "users").
Qed.

Lemma count_ops_cons (f : Op → bool) (o : Op) (l : list Op) :
  count_ops f (o :: l) = ((if f o then 1 else 0) + count_ops f l)%nat.
Proof. unfold count_ops. simpl. by destruct (f o). Qed.

Lemma no_retry_failed {A : Type} (p : Proc A)
    (Q : bool → A → Prop) (E : bool → Error → Prop) (w : World) :
  no_retry true p Q E → count_ops is_remote (trace p w) = 0%nat.
Proof.
  revert w. induction p as [a | e | o k IH]; intros w; simpl; try done.
  intros [Ho Hk]. destruct (perform o _) as [r w'].
  rewrite count_ops_cons, (Ho eq_refl). apply IH. exact (Hk r).
Qed.

(** When the fate of the [i]-th next remote call is a rejection, a
    computation without retry issues at most [i + 1] remote calls. *)
Lemma no_retry_run {A : Type} (p : Proc A)
    (Q : bool → A → Prop) (E : bool → Error → Prop) :
  no_retry false p Q E →
  ∀ (w : World) (i : nat),
    fault i w ≠ None → (count_ops is_remote (trace p w) ≤ S i)%nat.
Proof.
  induction p as [a | e | o k IH]; intros Hp w i Hi; simpl;
    try (unfold count_ops; simpl; lia).
  destruct Hp as [_ Hk].
  pose proof (faults_perform_local o (set_log (log w ++ [o]) w)) as Hlocal.
  pose proof (faults_perform_remote o (set_log (log w ++ [o]) w)) as Hremote.
  destruct (perform o _) as [r w'] eqn:Hperf. simpl in Hlocal, Hremote.
  specialize (Hk r). rewrite count_ops_cons.
  destruct (is_remote o) eqn:Ho; simpl in Hk.
  - destruct r as [e | x]; simpl in Hk.
    + rewrite (no_retry_failed _ _ _ w' Hk). lia.
    + destruct (Hremote eq_refl) as [Hhd Htl].
      destruct i as [|i].
      * rewrite <- fault_0 in Hi. done.
      * assert (Hi' : fault i w' ≠ None).
        { unfold fault in *. rewrite Htl. by destruct (faults w). }
        specialize (IH (inr x) Hk w' i Hi'). lia.
  - assert (Hi' : fault i w' ≠ None).
    { unfold fault in *. by rewrite (Hlocal eq_refl). }
    exact (IH r Hk w' i Hi').
Qed.

(** *** The actions *)

Ltac unfold_ops :=
  unfold get, set, update, remove, getDocs, deleteDoc, await_saveUserToLive,
    await_saveSystemSettings, await_saveChapterData, runAutoPilotService,
    getChapterData, Date_now, getDate, setDate, getMonth, setMonth,
    toISOString, new_Date_of, Math_random, localStorage_getItem,
    localStorage_setItem, JSON_parse_, JSON_stringify_, console_error,
    console_log in *.

Ltac local_ops :=
  repeat match goal with
  | |- ops_all _ (mbind _ _) => apply ops_all_bind; [| intros ?]
  | |- ops_all _ (call _) => apply ops_all_call; reflexivity
  | |- ops_all _ (lift _) => apply ops_all_lift
  | |- ops_all _ (Ret _) => exact I
  | |- ops_all _ (Throw _) => exact I
  | |- ops_all _ (if ?c then _ else _) => destruct c
  | |- ops_all _ (match ?x with _ => _ end) => destruct x
  end.

Ltac nr :=
  repeat match goal with
  | |- any_leaf _ _ => exact I
  | |- no_retry _ (Ret _) _ _ => simpl
  | |- no_retry _ (Throw _) _ _ => simpl
  | |- no_retry _ (mbind _ _) _ _ => apply no_retry_bind
  | |- no_retry _ (proc_bind _ _ _ _) _ _ => apply no_retry_bind
  | |- no_retry _ (fmap _ _) _ _ => apply no_retry_fmap
  | |- no_retry _ (try_catch _ _) _ _ => apply no_retry_try_catch
  | |- no_retry false (call _) _ _ => apply no_retry_call; intros ?; simpl
  | |- no_retry _ (lift _) _ _ =>
      apply no_retry_local; [apply ops_all_lift | intros ? | intros ?]
  | |- no_retry _ (Vis _ _) _ _ =>
      split; [first [done | intros _; reflexivity] | intros [?|?]; simpl]
  | |- (_ = true → _ = false) ∧ (∀ r, _) =>
      split; [first [done | intros _; reflexivity] | intros [?|?]; simpl]
  | |- no_retry _ (if ?c then _ else _) _ _ => destruct c
  | |- no_retry _ (match ?x with _ => _ end) _ _ => destruct x
  end.

Lemma nr_getSettings (E : bool → Error → Prop) :
  no_retry false getSettings (λ b v, b = true → v = VNull) E.
Proof.
  unfold getSettings. unfold_ops. nr; try done.
Qed.

Lemma nr_updateUser (userId : string) (updates : gmap string Value) :
  no_retry false (updateUser userId updates) any_leaf any_leaf.
Proof. unfold updateUser. unfold_ops. nr. Qed.

Lemma nr_deleteUser (userId : string) :
  no_retry false (deleteUser userId) any_leaf any_leaf.
Proof. unfold deleteUser. unfold_ops. nr. Qed.

Lemma nr_with_settings {A : Type} (f : Value → Proc A) :
  (∀ v, no_retry false (f v) any_leaf any_leaf) →
  no_retry true (f VNull) any_leaf any_leaf →
  no_retry false (getSettings ≫= f) any_leaf any_leaf.
Proof.
  intros Hok Hnull. apply no_retry_bind.
  apply (no_retry_mono _ _ (λ b v, b = true → v = VNull) _ any_leaf _);
    [| done | apply nr_getSettings].
  intros [|] v Hv; [by rewrite Hv | apply Hok].
Qed.

Lemma nr_grantSubscription (userId : string) (plan : Plan) (level : Level) :
  no_retry false (grantSubscription userId plan level) any_leaf any_leaf.
Proof.
  unfold grantSubscription. unfold_ops. nr; try apply nr_updateUser.
Qed.

Lemma nr_broadcastMessage (msg : string) :
  no_retry false (broadcastMessage msg) any_leaf any_leaf.
Proof.
  unfold broadcastMessage. apply nr_with_settings; [intros v; unfold_ops; nr | simpl; nr].
Qed.

Lemma nr_sendInboxMessage (userId text : string) :
  no_retry false (sendInboxMessage userId text) any_leaf any_leaf.
Proof.
  unfold sendInboxMessage. unfold_ops. nr.
Qed.

Lemma nr_createWeeklyTest (name subject : string) (questionCount : Z) :
  no_retry false (createWeeklyTest name subject questionCount) any_leaf any_leaf.
Proof.
  unfold createWeeklyTest. apply nr_with_settings; [intros v; unfold_ops; nr | simpl; nr].
Qed.

Lemma nr_updateSystemSettings (updates : gmap string Value) :
  no_retry false (updateSystemSettings updates) any_leaf any_leaf.
Proof.
  unfold updateSystemSettings.
  apply nr_with_settings; [intros v; unfold_ops; nr | simpl; nr].
Qed.

Lemma nr_addPackage (name : string) (price credits : Z) :
  no_retry false (addPackage name price credits) any_leaf any_leaf.
Proof.
  unfold addPackage. apply nr_with_settings; [intros v; unfold_ops; nr | simpl; nr].
Qed.

Lemma nr_runAutoPilot : no_retry false runAutoPilot any_leaf any_leaf.
Proof.
  unfold runAutoPilot. apply nr_with_settings; [intros v; unfold_ops; nr | simpl; nr].
Qed.

Lemma nr_approveRecoveryRequest (requestId : string) :
  no_retry false (approveRecoveryRequest requestId) any_leaf any_leaf.
Proof.
  unfold approveRecoveryRequest. unfold_ops. nr.
Qed.

Lemma nr_addUniversalVideo (title url : string) :
  no_retry false (addUniversalVideo title url) any_leaf any_leaf.
Proof. unfold addUniversalVideo. unfold_ops. nr. Qed.

Lemma nr_saveCustomBloggerPage (html : string) :
  no_retry false (saveCustomBloggerPage html) any_leaf any_leaf.
Proof. unfold saveCustomBloggerPage. unfold_ops. nr. Qed.

Lemma nr_getRecentLogs (limit : option Z) :
  no_retry false (getRecentLogs limit) any_leaf any_leaf.
Proof. unfold getRecentLogs. unfold_ops. nr. Qed.

Lemma nr_addSubject (DEFAULT_SUBJECTS : Value) (name : string) :
  no_retry false (addSubject DEFAULT_SUBJECTS name) any_leaf any_leaf.
Proof. unfold addSubject, getItem_or. unfold_ops. nr. Qed.

Lemma ops_all_filterM {A : Type} (P : Op → Prop) (f : A → Proc bool)
    (xs : list A) :
  (∀ x, ops_all P (f x)) → ops_all P (filterM f xs).
Proof.
  intros Hf. induction xs as [|x xs IH]; [exact I|].
  cbn [filterM]. apply ops_all_bind; [apply Hf|]. intros b.
  apply ops_all_bind; [exact IH|]. intros ys. exact I.
Qed.

Lemma ops_all_mapM {A B : Type} (P : Op → Prop) (f : A → Proc B) (xs : list A) :
  (∀ x, ops_all P (f x)) → ops_all P (mapM f xs).
Proof.
  intros Hf. induction xs as [|x xs IH]; [exact I|].
  cbn [mapM]. apply ops_all_bind; [apply Hf|]. intros b.
  apply ops_all_bind; [exact IH|]. intros ys. exact I.
Qed.

Lemma ops_all_random_code (j : nat) (code : string) :
  ops_all (λ o, is_remote o = false) (random_code j code).
Proof.
  revert code. induction j as [|j IH]; intros code; [exact I|].
  cbn [random_code]. apply ops_all_bind; [by apply ops_all_call|].
  intros r. apply IH.
Qed.

Lemma nr_getAllUsers :
  no_retry false getAllUsers any_leaf any_leaf.
Proof. unfold getAllUsers. unfold_ops. nr. Qed.

Lemma nr_scanUsers (filter : UserFilter) :
  no_retry false (scanUsers filter) any_leaf any_leaf.
Proof.
  unfold scanUsers. apply no_retry_bind.
  apply (no_retry_mono _ _ any_leaf _ any_leaf _); [| done | apply nr_getAllUsers].
  intros b users _. apply no_retry_any.
  apply ops_all_bind.
  - destruct filter; unfold_ops; local_ops;
      apply ops_all_filterM; intros u; local_ops.
  - intros result. apply ops_all_mapM. intros u. unfold user_summary. local_ops.
Qed.

Lemma nr_removePackage (id : string) :
  no_retry false (removePackage id) any_leaf any_leaf.
Proof.
  unfold removePackage. apply nr_with_settings; [intros v | simpl; nr].
  unfold_ops. nr.
  apply no_retry_local; [| intros packages; nr | intros e; exact I].
  apply ops_all_filterM. intros p. local_ops.
Qed.

Lemma nr_gift_loop (amount : Z) (type : GiftType) (n : nat) :
  ∀ (i : Z) (acc : list Value),
    no_retry false (gift_loop amount type n i acc) any_leaf any_leaf.
Proof.
  induction n as [|n IH]; intros i acc; [exact I|].
  cbn [gift_loop]. apply no_retry_bind.
  apply no_retry_local; [apply ops_all_random_code | | intros e; exact I].
  intros code. unfold_ops. nr. apply IH.
Qed.

Lemma nr_generateGiftCodes (amount count : Z) (type : option GiftType) :
  no_retry false (generateGiftCodes amount count type) any_leaf any_leaf.
Proof.
  unfold generateGiftCodes. cbv zeta. apply no_retry_bind.
  apply (no_retry_mono _ _ any_leaf _ any_leaf _); [| done | apply nr_gift_loop].
  intros b newCodes _. apply no_retry_any.
  unfold getItem_or. unfold_ops. local_ops.
Qed.

(** Every action of the registry is without retry. *)
Lemma nr_ActionRegistry (DEFAULT_SUBJECTS : Value) (a : Action) :
  no_retry false (ActionRegistry DEFAULT_SUBJECTS a) any_leaf any_leaf.
Proof.
  destruct a; cbn [ActionRegistry]; apply no_retry_fmap;
    (eapply no_retry_mono; [intros ? ? _; exact I | intros ? ? H; exact H |]).
  - apply nr_deleteUser.
  - apply nr_updateUser.
  - apply nr_updateUser.
  - apply nr_updateUser.
  - apply nr_grantSubscription.
  - apply nr_broadcastMessage.
  - apply nr_sendInboxMessage.
  - apply nr_createWeeklyTest.
  - apply nr_scanUsers.
  - apply nr_getRecentLogs.
  - apply nr_addSubject.
  - apply nr_generateGiftCodes.
  - apply nr_updateSystemSettings.
  - apply nr_updateSystemSettings.
  - apply nr_addPackage.
  - apply nr_removePackage.
  - apply nr_updateUser.
  - apply nr_updateUser.
  - apply nr_approveRecoveryRequest.
  - apply nr_addUniversalVideo.
  - apply nr_saveCustomBloggerPage.
  - apply nr_runAutoPilot.
Qed.


(* ===================================================================== *)
(** ** The speech helpers *)
(* ===================================================================== *)



(** C10: the three categories need not cover the voice list.  A voice
    whose lower-cased name contains ['india'], whose lang is not ['en-IN']
    and includes neither ['en'] nor ['hi'], is in none of them. *)
Theorem categories_do_not_cover :
  ∃ (w : Speech.Window) (v : Speech.Voice) (c : Speech.Categories),
    v ∈ Speech.voices w ∧
    includes (toLowerCase (Speech.name v)) "india" = true ∧
    Speech.lang v ≠ "en-IN" ∧
    includes (Speech.lang v) "en" = false ∧
    includes (Speech.lang v) "hi" = false ∧
    Speech.getCategorizedVoices (Speech.getAvailableVoices w).1 = Some c ∧
    (v ∉ Speech.hindi c) ∧ (v ∉ Speech.indianEnglish c) ∧ (v ∉ Speech.others c).
Proof.
  exists (browser [hindi_android; tamil_india]), tamil_india.
  eexists. split; [set_solver|].
  split; [reflexivity|]. split; [discriminate|].
  split; [reflexivity|]. split; [reflexivity|]. split; [reflexivity|].
  simpl. repeat split.
  - rewrite list_elem_of_In. simpl. intros [H | []]. discriminate H.
  - rewrite list_elem_of_In. simpl. tauto.
  - rewrite list_elem_of_In. simpl. tauto.
Qed.

(** The same for every such voice whose name does not contain ['hindi']
    either. *)
Lemma uncategorized_voice (vs : list Speech.Voice) (v : Speech.Voice) :
  includes (toLowerCase (Speech.name v)) "india" = true →
  includes (toLowerCase (Speech.name v)) "hindi" = false →
  Speech.lang v ≠ "en-IN" →
  includes (Speech.lang v) "en" = false →
  includes (Speech.lang v) "hi" = false →
  let c := Speech.categorize vs in
  (v ∉ Speech.hindi c) ∧ (v ∉ Speech.indianEnglish c) ∧ (v ∉ Speech.others c).
Proof.
  intros Hindia Hhindi Hne Hen Hhi. simpl.
  rewrite !list_elem_of_In, !filter_In.
  unfold Speech.is_hindi, Speech.is_indianEnglish, Speech.is_other.
  rewrite Hindia, Hhindi, Hen, Hhi.
  apply String.eqb_neq in Hne. rewrite Hne. simpl.
  repeat split; intros [_ H]; discriminate H.
Qed.

(** *** Voice selection *)





(* ===================================================================== *)
(** ** Cancellation, timers and retries *)
(* ===================================================================== *)

(** C6 as stated fails: [speakText] cancels the pending speech before it
    speaks, [getAvailableVoices] arms a 2000 ms timer as a fallback when
    the voice list is still empty, and [grantSubscription] reads the same
    user node twice in one invocation. *)
Lemma cancel_timer_and_repeated_read :
  Speech.CCancel ∈ Speech.calls (Speech.speakText hello None None None (browser [])) ∧
  Speech.CSetTimeout 2000 ∈ Speech.calls (Speech.getAvailableVoices (browser [])).2 ∧
  count_ops (λ o, match o with
                  | OGet path => String.eqb path (user_path "u1")
                  | _ => false
                  end)
    (issued (grantSubscription "u1" WEEKLY BASIC) sample_world) = 2%nat.
Proof.
  split; [|split].
  - apply list_elem_of_In. simpl. tauto.
  - apply list_elem_of_In. simpl. tauto.
  - vm_compute. reflexivity.
Qed.

(** C6, as the code has it: there is no retry and no backpressure.  In an
    invocation of any action of the registry, a remote call that is
    rejected is the last remote call: when the fate of the [i]-th next
    call is a rejection, at most [i + 1] are issued.  [speakText] cancels
    once, reads the voice list only when no voice is given, and speaks
    once.  [getAvailableVoices] reads the voice list once; only when it is
    empty does it install the [onvoiceschanged] handler and one 2000 ms
    timer, and the promise keeps the first list it is resolved with. *)
Theorem no_retry_but_cancel_and_timer :
  (∀ (DEFAULT_SUBJECTS : Value) (a : Action) (w : World) (i : nat),
     fault i w ≠ None →
     (count_ops is_remote (issued (ActionRegistry DEFAULT_SUBJECTS a) w) ≤ S i)%nat) ∧
  (∀ text voice rate lang_arg (w : Speech.Window),
     Speech.supported w = true →
     ∃ u : Speech.Utterance,
       Speech.calls (Speech.speakText text voice rate lang_arg w) =
       Speech.calls w ++ [Speech.CCancel] ++
       match voice with None => [Speech.CGetVoices] | Some _ => [] end ++
       [Speech.CSpeak u]) ∧
  (∀ w : Speech.Window,
     Speech.supported w = true →
     let r := Speech.getAvailableVoices w in
     match Speech.voices w with
     | [] =>
         Speech.calls r.2 =
           Speech.calls w ++
           [Speech.CGetVoices; Speech.CSetOnVoicesChanged; Speech.CSetTimeout 2000] ∧
         r.1 = Speech.mkLoading None true [2000]
     | _ :: _ =>
         Speech.calls r.2 = Speech.calls w ++ [Speech.CGetVoices] ∧
         r.1 = Speech.mkLoading (Some (Speech.voices w)) false []
     end) ∧
  (∀ (l : Speech.Loading) (vs vs' : list Speech.Voice),
     Speech.resolved l = Some vs →
     Speech.resolved (Speech.resolve vs' l) = Some vs).
Proof.
  split; [|split; [|split]].
  - intros D a w i Hi. rewrite issued_trace.
    exact (no_retry_run _ _ _ (nr_ActionRegistry D a) w i Hi).
  - intros text voice rate lang_arg w Hsup.
    unfold Speech.speakText. rewrite Hsup. simpl.
    destruct voice as [v|]; simpl; eexists; rewrite <- !app_assoc; reflexivity.
  - intros w Hsup. unfold Speech.getAvailableVoices. rewrite Hsup. simpl.
    destruct (Speech.voices w) as [|v vs]; simpl;
      (split; [by rewrite <- ?app_assoc | reflexivity]).
  - intros l vs vs' Hres. unfold Speech.resolve. by rewrite Hres.
Qed.

Lemma no_retry_but_cancel_and_timer_witness :
  (count_ops is_remote
     (issued (ActionRegistry (VObj ∅) (A_banUser "u1" "spam"))
        (set_faults [Some (new_Error "network down")] sample_world)) ≤ 1)%nat ∧
  ∃ u : Speech.Utterance,
    Speech.calls (Speech.speakText hello None None None (browser [english_tagged])) =
    [Speech.CCancel; Speech.CGetVoices; Speech.CSpeak u].
Proof.
  destruct no_retry_but_cancel_and_timer as (Hretry & Hspeak & _ & _).
  split.
  - apply (Hretry (VObj ∅) (A_banUser "u1" "spam")
             (set_faults [Some (new_Error "network down")] sample_world) 0%nat).
    discriminate.
  - destruct (Hspeak hello None None None (browser [english_tagged]) eq_refl)
      as [u Hu].
    exists u. exact Hu.
Defined.

(* ===================================================================== *)
(** ** More on the user actions *)
(* ===================================================================== *)

Lemma accepts_drop (n k : nat) (w w' : World) :
  accepts (k + n) w → faults w' = drop k (faults w) → accepts n w'.
Proof.
  unfold accepts. intros Hacc ->.
  rewrite Forall_lookup in *. intros i f Hi.
  apply lookup_take_Some in Hi as [Hi Hlt]. rewrite lookup_drop in Hi.
  apply (Hacc (k + i)%nat). rewrite lookup_take_lt by lia. exact Hi.
Qed.

Lemma accepts_le (n m : nat) (w : World) :
  accepts m w → (n ≤ m)%nat → accepts n w.
Proof.
  intros Hacc Hle. apply (accepts_drop n 0 w w); [|done].
  unfold accepts in *. rewrite Forall_lookup in *. intros i f Hi.
  apply lookup_take_Some in Hi as [Hi Hlt].
  apply (Hacc i). rewrite lookup_take_lt by lia. exact Hi.
Qed.

Lemma node_saveUserToLive_ne (u : Value) (userId path : string) (w : World) :
  prop u "id" = VStr userId → path ≠ user_path userId →
  node (saveUserToLive u w) path = node w path.
Proof.
  intros Hid Hne. unfold node, saveUserToLive. simpl. rewrite Hid. simpl.
  by rewrite lookup_insert_ne.
Qed.

(** An accepted [updateUser] on a record that carries its own id: the
    result, the record stored, the other nodes and the fates left. *)
Lemma updateUser_stores
    (w : World) (userId : string) (updates current : gmap string Value) :
  accepts 2 w →
  node w (user_path userId) = VObj current →
  current !! "id" = Some (VStr userId) →
  updates !! "id" = None →
  let r := run (updateUser userId updates) w in
  r.1 = Returned ("User " +:+ userId +:+ " updated.") ∧
  node r.2 (user_path userId) = VObj (spread2 current updates) ∧
  (∀ path, path ≠ user_path userId → node r.2 path = node w path) ∧
  faults r.2 = drop 2 (faults w).
Proof.
  intros Hacc Hcur Hid Hup r. subst r.
  assert (H0 : fault 0 w = None) by (apply (accepts_fault 2); [done | lia]).
  assert (H1 : fault 1 w = None) by (apply (accepts_fault 2); [done | lia]).
  assert (Hne : node w (user_path userId) ≠ VNull) by (by rewrite Hcur).
  rewrite (run_updateUser_found userId updates w H0 Hne), H1, Hcur.
  assert (Hmid : prop (merged_user (VObj current) updates) "id" = VStr userId)
    by (by apply merged_id).
  split; [reflexivity|]. split; [|split].
  - by apply node_saveUserToLive.
  - intros path Hpath. cbn [snd].
    by rewrite (node_saveUserToLive_ne _ userId).
  - cbn [snd]. simpl. by destruct (faults w) as [|? [|? ?]].
Qed.

(** X1: two updates of the same user, one after the other, leave the
    record a single update with both patches would leave: the later patch
    wins where the two overlap. *)
Theorem updateUser_twice_is_one_update
    (w : World) (userId : string) (a b current : gmap string Value) :
  accepts 4 w →
  node w (user_path userId) = VObj current →
  current !! "id" = Some (VStr userId) →
  a !! "id" = None → b !! "id" = None →
  node (run (updateUser userId b) (run (updateUser userId a) w).2).2
    (user_path userId) =
  node (run (updateUser userId (spread2 a b)) w).2 (user_path userId).
Proof.
  intros Hacc Hcur Hid Ha Hb.
  destruct (updateUser_stores w userId a current
              (accepts_le 2 4 w Hacc ltac:(lia)) Hcur Hid Ha)
    as (_ & Hnode1 & _ & Hf1).
  assert (Hacc1 : accepts 2 (run (updateUser userId a) w).2)
    by (by apply (accepts_drop 2 2 w)).
  assert (Hid1 : spread2 current a !! "id" = Some (VStr userId))
    by (by rewrite spread2_lookup, Ha).
  destruct (updateUser_stores _ userId b _ Hacc1 Hnode1 Hid1 Hb)
    as (_ & Hnode2 & _ & _).
  assert (Hab : spread2 a b !! "id" = None) by (by rewrite spread2_lookup, Hb).
  destruct (updateUser_stores w userId (spread2 a b) current
              (accepts_le 2 4 w Hacc ltac:(lia)) Hcur Hid Hab)
    as (_ & Hnode3 & _ & _).
  rewrite Hnode2, Hnode3. unfold spread2. by rewrite (assoc_L (∪)).
Qed.

Lemma updateUser_twice_is_one_update_witness :
  node (run (updateUser "u1" {[ "isLocked" := VBool true ]})
          (run (updateUser "u1" {[ "credits" := VNum 10 ]}) sample_world).2).2
    (user_path "u1") =
  node (run (updateUser "u1"
               (spread2 {[ "credits" := VNum 10 ]} {[ "isLocked" := VBool true ]}))
          sample_world).2 (user_path "u1").
Proof.
  assert (Hacc : accepts 4 sample_world) by constructor.
  assert (Ha : ({[ "credits" := VNum 10 ]} : gmap string Value) !! "id" = None)
    by (vm_compute; reflexivity).
  assert (Hb : ({[ "isLocked" := VBool true ]} : gmap string Value) !! "id" = None)
    by (vm_compute; reflexivity).
  exact (updateUser_twice_is_one_update sample_world "u1" _ _ alice
           Hacc eq_refl eq_refl Ha Hb).
Defined.

(** X2: an update applied a second time changes nothing more: the record
    stored after two runs is the record stored after one. *)
Theorem updateUser_idempotent
    (w : World) (userId : string) (updates current : gmap string Value) :
  accepts 4 w →
  node w (user_path userId) = VObj current →
  current !! "id" = Some (VStr userId) →
  updates !! "id" = None →
  let once := (run (updateUser userId updates) w).2 in
  node (run (updateUser userId updates) once).2 (user_path userId) =
  node once (user_path userId).
Proof.
  intros Hacc Hcur Hid Hup once. subst once.
  destruct (updateUser_stores w userId updates current
              (accepts_le 2 4 w Hacc ltac:(lia)) Hcur Hid Hup)
    as (_ & Hnode1 & _ & Hf1).
  assert (Hacc1 : accepts 2 (run (updateUser userId updates) w).2)
    by (by apply (accepts_drop 2 2 w)).
  assert (Hid1 : spread2 current updates !! "id" = Some (VStr userId))
    by (by rewrite spread2_lookup, Hup).
  destruct (updateUser_stores _ userId updates _ Hacc1 Hnode1 Hid1 Hup)
    as (_ & Hnode2 & _ & _).
  rewrite Hnode2, Hnode1. unfold spread2.
  by rewrite (assoc_L (∪)), (idemp_L (∪)).
Qed.

Lemma updateUser_idempotent_witness :
  node (run (updateUser "u1" {[ "credits" := VNum 10 ]})
          (run (updateUser "u1" {[ "credits" := VNum 10 ]}) sample_world).2).2
    (user_path "u1") =
  node (run (updateUser "u1" {[ "credits" := VNum 10 ]}) sample_world).2
    (user_path "u1").
Proof.
  assert (Hacc : accepts 4 sample_world) by constructor.
  assert (Ha : ({[ "credits" := VNum 10 ]} : gmap string Value) !! "id" = None)
    by (vm_compute; reflexivity).
  exact (updateUser_idempotent sample_world "u1" _ alice Hacc eq_refl eq_refl Ha).
Defined.

(** X3: [unbanUser] after [banUser] leaves the user unlocked and every
    other field as it was; a user who was not locked before is back to
    the very record read at the start. *)
Theorem ban_then_unban
    (w : World) (userId reason : string) (current : gmap string Value) :
  accepts 4 w →
  node w (user_path userId) = VObj current →
  current !! "id" = Some (VStr userId) →
  let w' := (run (unbanUser userId) (run (banUser userId reason) w).2).2 in
  node w' (user_path userId) = VObj (<["isLocked" := VBool false]> current) ∧
  (current !! "isLocked" = Some (VBool false) →
   node w' (user_path userId) = VObj current).
Proof.
  intros Hacc Hcur Hid w'. subst w'. unfold banUser, unbanUser.
  assert (Hlk : ∀ b, ({[ "isLocked" := VBool b ]} : gmap string Value) !! "id" = None)
    by (intros b; by rewrite lookup_singleton_ne).
  destruct (updateUser_stores w userId {[ "isLocked" := VBool true ]} current
              (accepts_le 2 4 w Hacc ltac:(lia)) Hcur Hid (Hlk true))
    as (_ & Hnode1 & _ & Hf1).
  set (w1 := (run (updateUser userId {[ "isLocked" := VBool true ]}) w).2) in *.
  assert (Hacc1 : accepts 2 w1) by (by apply (accepts_drop 2 2 w)).
  assert (Hid1 : spread2 current {[ "isLocked" := VBool true ]} !! "id"
                 = Some (VStr userId))
    by (by rewrite spread2_lookup, Hlk).
  destruct (updateUser_stores w1 userId {[ "isLocked" := VBool false ]} _
              Hacc1 Hnode1 Hid1 (Hlk false)) as (_ & Hnode2 & _ & _).
  assert (Heq : spread2 (spread2 current {[ "isLocked" := VBool true ]})
                  {[ "isLocked" := VBool false ]}
                = <["isLocked" := VBool false]> current).
  { unfold spread2. rewrite <- !insert_union_singleton_l.
    by rewrite insert_insert_eq. }
  rewrite Hnode2, Heq. split; [done|].
  intros Hwas. by rewrite insert_id.
Qed.

Lemma ban_then_unban_witness :
  node (run (unbanUser "u1") (run (banUser "u1" "spam") sample_world).2).2
    (user_path "u1") = VObj alice.
Proof.
  assert (Hacc : accepts 4 sample_world) by constructor.
  destruct (ban_then_unban sample_world "u1" "spam" alice Hacc eq_refl eq_refl)
    as [_ Hback].
  apply Hback. vm_compute. reflexivity.
Defined.

Lemma fault_1 (w : World) : hd None (tl (faults w)) = fault 1 w.
Proof. unfold fault. by destruct (faults w) as [|? [|? ?]]. Qed.

(** X4: [deleteUser] is two calls in a row and not atomic.  When the
    first is rejected nothing is removed; when the first is accepted and
    the second rejected, the Firestore document is gone while the realtime
    node is still there, and the error is the wrapped one; when both are
    accepted both are gone. *)
Theorem deleteUser_is_not_atomic (w : World) (userId : string) :
  let r := run (deleteUser userId) w in
  let remaining := filter (λ d, d.1 ≠ userId) (users_docs w) in
  match fault 0 w, fault 1 w with
  | Some e, _ =>
      r.1 = Thrown (new_Error ("Failed to delete user " +:+ userId +:+ ": "
                               +:+ message e)) ∧
      issued (deleteUser userId) w = [ODeleteDoc "users" userId] ∧
      users_docs r.2 = users_docs w ∧ rtdb r.2 = rtdb w
  | None, Some e =>
      r.1 = Thrown (new_Error ("Failed to delete user " +:+ userId +:+ ": "
                               +:+ message e)) ∧
      users_docs r.2 = remaining ∧ rtdb r.2 = rtdb w
  | None, None =>
      r.1 = Returned ("User " +:+ userId +:+
                      " deleted successfully from Firestore and RTDB.") ∧
      users_docs r.2 = remaining ∧
      rtdb r.2 = delete (user_path userId) (rtdb w)
  end.
Proof.
  cbv zeta. rewrite issued_trace.
  unfold deleteUser, deleteDoc, remove, call. simpl. unfold remote. simpl.
  rewrite fault_0. destruct (fault 0 w) as [e0|]; simpl; [done|].
  unfold remote. simpl. rewrite fault_1.
  destruct (fault 1 w) as [e1|]; simpl; done.
Qed.

(* ===================================================================== *)
(** ** The settings actions *)
(* ===================================================================== *)

Lemma run_getSettings (w : World) :
  run getSettings w =
  (Returned (settings_read w), after_remote (OGet "system_settings") w).
Proof.
  unfold getSettings, settings_read. rewrite run_try_catch, run_bind.
  destruct (fault 0 w) as [e|] eqn:Hf.
  - by rewrite (run_get_rejected _ _ e).
  - rewrite run_get by done.
    destruct (node w "system_settings") eqn:Hn; simpl; by rewrite ?Hn.
Qed.

Lemma run_saveSystemSettings (s : Value) (w : World) :
  fault 0 w = None →
  run (await_saveSystemSettings s) w =
  (Returned tt, saveSystemSettings s (after_remote (OSaveSystemSettings s) w)).
Proof.
  intros Hf. unfold await_saveSystemSettings, call. simpl. unfold remote. simpl.
  rewrite fault_0, Hf. reflexivity.
Qed.

Lemma settings_read_falsy (w : World) :
  fault 0 w ≠ None ∨ truthy (node w "system_settings") = false →
  truthy (settings_read w) = false.
Proof.
  unfold settings_read. intros [Hf | Hn]; destruct (fault 0 w); done.
Qed.

(** X5: when the settings cannot be had (the read is rejected, or the
    node is empty or holds a falsy value), no settings action writes or
    calls anything further: the world is the one left by the read alone.
    [broadcastMessage] and [runAutoPilot] report it in their status
    string; [createWeeklyTest], [updateSystemSettings], [toggleSetting],
    [addPackage] and [removePackage] throw ["Settings not found"]. *)
Theorem without_settings_nothing_is_written (w : World) :
  fault 0 w ≠ None ∨ truthy (node w "system_settings") = false →
  let w' := after_remote (OGet "system_settings") w in
  let missing := Thrown (new_Error "Settings not found") in
  (∀ msg, run (broadcastMessage msg) w =
          (Returned "Failed to fetch settings.", w')) ∧
  run runAutoPilot w = (Returned "Settings failure.", w') ∧
  (∀ name subject n, run (createWeeklyTest name subject n) w = (missing, w')) ∧
  (∀ updates, run (updateSystemSettings updates) w = (missing, w')) ∧
  (∀ key value, run (toggleSetting key value) w = (missing, w')) ∧
  (∀ name price credits, run (addPackage name price credits) w = (missing, w')) ∧
  (∀ id, run (removePackage id) w = (missing, w')).
Proof.
  intros Hno%settings_read_falsy. cbv zeta.
  repeat split; intros;
    unfold broadcastMessage, runAutoPilot, createWeeklyTest, toggleSetting,
      updateSystemSettings, addPackage, removePackage;
    rewrite run_bind, run_getSettings, Hno; reflexivity.
Qed.

Lemma without_settings_nothing_is_written_witness :
  run (toggleSetting "maintenanceMode" true) empty_world =
  (Thrown (new_Error "Settings not found"),
   after_remote (OGet "system_settings") empty_world).
Proof.
  assert (H : fault 0 empty_world ≠ None ∨
              truthy (node empty_world "system_settings") = false)
    by (right; reflexivity).
  destruct (without_settings_nothing_is_written empty_world H)
    as (_ & _ & _ & _ & Htoggle & _).
  apply Htoggle.
Defined.

(** An accepted write of the settings: what is stored and what else
    stays. *)
Lemma run_with_settings (settings : gmap string Value) (w : World)
    (stored : Value) (status : string) :
  accepts 2 w →
  node w "system_settings" = VObj settings →
  let r := run (await_saveSystemSettings stored;; Ret status)
             (after_remote (OGet "system_settings") w) in
  r.1 = Returned status ∧ node r.2 "system_settings" = stored ∧
  (∀ path, path ≠ "system_settings" → node r.2 path = node w path).
Proof.
  intros Hacc Hcur r. subst r.
  assert (H1 : fault 0 (after_remote (OGet "system_settings") w) = None).
  { rewrite fault_after_remote. apply (accepts_fault 2); [done | lia]. }
  rewrite run_bind, run_saveSystemSettings by done.
  split; [reflexivity|]. split.
  - unfold node, saveSystemSettings. simpl. by rewrite lookup_insert_eq.
  - intros path Hpath. unfold node, saveSystemSettings. simpl.
    by rewrite lookup_insert_ne.
Qed.

(** X6: a settings write changes its own keys only.  On an existing
    settings record, [updateSystemSettings] stores the patch over the
    record, [toggleSetting] stores the record with the one key set to the
    boolean (a key the record did not have is added), and
    [broadcastMessage] stores it with [noticeText] set to the message;
    every other key is as read and no other node changes. *)
Theorem settings_writes_keep_other_keys
    (w : World) (settings : gmap string Value) :
  accepts 2 w →
  node w "system_settings" = VObj settings →
  (∀ updates,
     let r := run (updateSystemSettings updates) w in
     r.1 = Returned "Settings updated." ∧
     node r.2 "system_settings" = VObj (updates ∪ settings) ∧
     (∀ path, path ≠ "system_settings" → node r.2 path = node w path)) ∧
  (∀ key value,
     let r := run (toggleSetting key value) w in
     r.1 = Returned "Settings updated." ∧
     node r.2 "system_settings" = VObj (<[key := VBool value]> settings) ∧
     (∀ path, path ≠ "system_settings" → node r.2 path = node w path)) ∧
  (∀ msg,
     let r := run (broadcastMessage msg) w in
     r.1 = Returned "Broadcast banner updated successfully." ∧
     node r.2 "system_settings" = VObj (<["noticeText" := VStr msg]> settings) ∧
     (∀ path, path ≠ "system_settings" → node r.2 path = node w path)).
Proof.
  intros Hacc Hcur.
  assert (H0 : fault 0 w = None) by (apply (accepts_fault 2); [done | lia]).
  assert (Hread : settings_read w = VObj settings)
    by (unfold settings_read; by rewrite H0).
  split; [|split].
  - intros updates. cbv zeta. unfold updateSystemSettings.
    rewrite run_bind, run_getSettings, Hread. simpl negb. cbv iota.
    exact (run_with_settings settings w _ _ Hacc Hcur).
  - intros key value. cbv zeta. unfold toggleSetting, updateSystemSettings.
    rewrite run_bind, run_getSettings, Hread. simpl negb. cbv iota.
    unfold spread2, ownProps. rewrite <- insert_union_singleton_l.
    exact (run_with_settings settings w _ _ Hacc Hcur).
  - intros msg. cbv zeta. unfold broadcastMessage.
    rewrite run_bind, run_getSettings, Hread. simpl truthy. cbv iota.
    exact (run_with_settings settings w _ _ Hacc Hcur).
Qed.

Lemma settings_writes_keep_other_keys_witness :
  node (run (toggleSetting "maintenanceMode" true) settings_world).2
    "system_settings" =
  VObj (<["maintenanceMode" := VBool true]> sample_settings).
Proof.
  assert (Hacc : accepts 2 settings_world) by constructor.
  destruct (settings_writes_keep_other_keys settings_world sample_settings
              Hacc eq_refl) as (_ & Htoggle & _).
  destruct (Htoggle "maintenanceMode" true) as (_ & Hnode & _).
  exact Hnode.
Defined.

(** *** Packages *)

Lemma run_Date_now_at (w : World) :
  run Date_now w = (Returned (next_now w), after_clock w).
Proof. reflexivity. Qed.

Lemma run_lift {A : Type} (r : Error + A) (w : World) :
  run (lift r) w = (match r with inl e => Thrown e | inr a => Returned a end, w).
Proof. by destruct r. Qed.

(** A filter whose test only reads a property runs no operation. *)
Lemma run_filterM_prop (key : string) (test : Value → bool) (xs : list Value)
    (w : World) :
  Forall (λ x, is_nullish x = false) xs →
  run (filterM (λ x, v ← lift (getProp x key); Ret (test v)) xs) w =
  (Returned (List.filter (λ x, test (prop x key)) xs), w).
Proof.
  intros Hall. induction Hall as [|x xs Hx _ IH]; [reflexivity|].
  assert (Hget : getProp x key = inr (prop x key)) by (by destruct x).
  cbn [filterM List.filter]. rewrite Hget.
  cbn [lift mbind proc_bind bind]. rewrite run_bind.
  change (filterM (λ x0, bind (lift (getProp x0 key)) (λ v, Ret (test v))) xs)
    with (filterM (λ x0, v ← lift (getProp x0 key); Ret (test v)) xs).
  rewrite IH. by destruct (test (prop x key)).
Qed.

(** The run of [addPackage] on a record whose packages can be iterated. *)
Lemma addPackage_run (w : World) (settings : gmap string Value) (l : list Value)
    (name : string) (price credits : Z) :
  accepts 2 w →
  node w "system_settings" = VObj settings →
  iterate (packages_of settings) = inr l →
  let r := run (addPackage name price credits) w in
  r.1 = Returned ("Package " +:+ name +:+ " added.") ∧
  node r.2 "system_settings" =
    VObj (<["packages" := VArr (l ++ [new_package (next_now w) name price credits])]>
            settings) ∧
  faults r.2 = drop 2 (faults w).
Proof.
  intros Hacc Hcur Hl r. subst r.
  assert (H0 : fault 0 w = None) by (apply (accepts_fault 2); [done | lia]).
  assert (H1 : fault 1 w = None) by (apply (accepts_fault 2); [done | lia]).
  assert (Hread : settings_read w = VObj settings)
    by (unfold settings_read; by rewrite H0).
  unfold addPackage.
  rewrite run_bind, run_getSettings, Hread. simpl negb. cbv iota.
  rewrite run_bind, run_Date_now_at. cbv iota beta.
  rewrite run_bind, run_lift.
  change (prop (VObj settings) "packages")
    with (default VUndef (settings !! "packages")).
  fold (packages_of settings). rewrite Hl. cbv iota beta.
  rewrite run_bind, run_saveSystemSettings
    by (change (fault 0 (after_remote (OGet "system_settings") w) = None);
        by rewrite fault_after_remote).
  split; [reflexivity|]. split.
  - unfold node, saveSystemSettings. simpl. by rewrite lookup_insert_eq.
  - simpl. by destruct (faults w) as [|? [|? ?]].
Qed.

(** The run of [removePackage] on a record whose packages are a list of
    records. *)
Lemma removePackage_run (w : World) (settings : gmap string Value)
    (l : list Value) (id : string) :
  accepts 2 w →
  node w "system_settings" = VObj settings →
  packages_of settings = VArr l →
  Forall (λ p, is_nullish p = false) l →
  let r := run (removePackage id) w in
  r.1 = Returned ("Package " +:+ id +:+ " removed.") ∧
  node r.2 "system_settings" =
    VObj (<["packages" := VArr (List.filter (other_package id) l)]> settings) ∧
  faults r.2 = drop 2 (faults w).
Proof.
  intros Hacc Hcur Hl Hrec r. subst r.
  assert (H0 : fault 0 w = None) by (apply (accepts_fault 2); [done | lia]).
  assert (H1 : fault 1 w = None) by (apply (accepts_fault 2); [done | lia]).
  assert (Hread : settings_read w = VObj settings)
    by (unfold settings_read; by rewrite H0).
  unfold removePackage.
  rewrite run_bind, run_getSettings, Hread. simpl negb. cbv iota.
  rewrite run_bind, run_lift.
  change (prop (VObj settings) "packages")
    with (default VUndef (settings !! "packages")).
  fold (packages_of settings). rewrite Hl. cbn [as_array]. cbv iota beta.
  rewrite run_bind, (run_filterM_prop "id" (λ v, strict_ne_str v id)) by done.
  cbv iota beta.
  rewrite run_bind, run_saveSystemSettings by (by rewrite fault_after_remote).
  split; [reflexivity|]. split.
  - unfold node, saveSystemSettings. simpl. by rewrite lookup_insert_eq.
  - simpl. by destruct (faults w) as [|? [|? ?]].
Qed.

(** X7: [addPackage] appends.  On an existing settings record whose
    [packages] can be iterated (a list, or absent: then the empty list) it
    stores the record with the old packages in their order followed by the
    new one, whose id is ["pkg-"] and the clock reading; when [packages]
    holds something that cannot be spread (a number, an object) it throws
    the [TypeError] and the store is as before. *)
Theorem addPackage_appends
    (w : World) (settings : gmap string Value) (name : string)
    (price credits : Z) :
  accepts 2 w →
  node w "system_settings" = VObj settings →
  let r := run (addPackage name price credits) w in
  match iterate (packages_of settings) with
  | inr l =>
      r.1 = Returned ("Package " +:+ name +:+ " added.") ∧
      node r.2 "system_settings" =
        VObj (<["packages" :=
                  VArr (l ++ [new_package (next_now w) name price credits])]>
                settings)
  | inl e => r.1 = Thrown e ∧ rtdb r.2 = rtdb w
  end.
Proof.
  intros Hacc Hcur r.
  destruct (iterate (packages_of settings)) as [e | l] eqn:Hl.
  - subst r.
    assert (H0 : fault 0 w = None) by (apply (accepts_fault 2); [done | lia]).
    assert (Hread : settings_read w = VObj settings)
      by (unfold settings_read; by rewrite H0).
    unfold addPackage.
    rewrite run_bind, run_getSettings, Hread. simpl negb. cbv iota.
    rewrite run_bind, run_Date_now_at. cbv iota beta.
    rewrite run_bind, run_lift.
    change (prop (VObj settings) "packages")
      with (default VUndef (settings !! "packages")).
    fold (packages_of settings). rewrite Hl. done.
  - destruct (addPackage_run w settings l name price credits Hacc Hcur Hl)
      as (Hret & Hnode & _).
    done.
Qed.

Lemma addPackage_appends_witness :
  node (run (addPackage "Pro" 499 1000) settings_world).2 "system_settings" =
  VObj (<["packages" :=
            VArr [starter_pack;
                  new_package (next_now settings_world) "Pro" 499 1000]]>
          sample_settings).
Proof.
  assert (Hacc : accepts 2 settings_world) by constructor.
  pose proof (addPackage_appends settings_world sample_settings "Pro" 499 1000
                Hacc eq_refl) as H.
  cbv zeta in H.
  change (iterate (packages_of sample_settings)) with
    (@inr Error _ [starter_pack]) in H.
  destruct H as [_ Hnode]. exact Hnode.
Defined.

Lemma other_package_spec (id : string) (p : Value) :
  other_package id p = true ↔ prop p "id" ≠ VStr id.
Proof.
  unfold other_package, strict_ne_str.
  destruct (prop p "id") as [| | | |s| |]; try (split; [discriminate | done]).
  rewrite negb_true_iff, String.eqb_neq. split; [congruence|].
  intros Hne Heq. apply Hne. by rewrite Heq.
Qed.

(** X8: [removePackage] filters.  On a settings record whose [packages]
    is a list of records it stores the list without the packages of that
    id, the others in their order; no package of that id is left, and when
    none had it the list is stored as it was. *)
Theorem removePackage_filters
    (w : World) (settings : gmap string Value) (l : list Value) (id : string) :
  accepts 2 w →
  node w "system_settings" = VObj settings →
  packages_of settings = VArr l →
  Forall (λ p, is_nullish p = false) l →
  let r := run (removePackage id) w in
  let kept := List.filter (other_package id) l in
  r.1 = Returned ("Package " +:+ id +:+ " removed.") ∧
  node r.2 "system_settings" = VObj (<["packages" := VArr kept]> settings) ∧
  Forall (λ p, prop p "id" ≠ VStr id) kept ∧
  (Forall (λ p, prop p "id" ≠ VStr id) l → kept = l).
Proof.
  intros Hacc Hcur Hl Hrec r kept.
  destruct (removePackage_run w settings l id Hacc Hcur Hl Hrec)
    as (Hret & Hnode & _).
  split; [exact Hret|]. split; [exact Hnode|]. split.
  - apply List.Forall_forall. intros p Hp. subst kept.
    apply filter_In in Hp as [_ Hp]. by apply other_package_spec.
  - intros Hnone. subst kept. clear -Hnone.
    induction Hnone as [|p l Hp _ IH]; [done|].
    simpl. apply other_package_spec in Hp. by rewrite Hp, IH.
Qed.

Lemma removePackage_filters_witness :
  node (run (removePackage "pkg-1") settings_world).2 "system_settings" =
  VObj (<["packages" := VArr []]> sample_settings).
Proof.
  assert (Hacc : accepts 2 settings_world) by constructor.
  assert (Hrec : Forall (λ p, is_nullish p = false) [starter_pack])
    by (by repeat constructor).
  destruct (removePackage_filters settings_world sample_settings [starter_pack]
              "pkg-1" Hacc eq_refl eq_refl Hrec) as (_ & Hnode & _).
  exact Hnode.
Defined.

(** X9: removing the package [addPackage] has just added gives the
    package list back, provided no older package carries the new id. *)
Theorem addPackage_then_removePackage
    (w : World) (settings : gmap string Value) (l : list Value)
    (name : string) (price credits : Z) :
  accepts 4 w →
  node w "system_settings" = VObj settings →
  packages_of settings = VArr l →
  let id := "pkg-" +:+ pretty (next_now w) in
  Forall (λ p, is_nullish p = false ∧ prop p "id" ≠ VStr id) l →
  let w1 := (run (addPackage name price credits) w).2 in
  node (run (removePackage id) w1).2 "system_settings" =
  VObj (<["packages" := VArr l]> settings).
Proof.
  intros Hacc Hcur Hl id Hold w1.
  assert (Hit : iterate (packages_of settings) = inr l) by (by rewrite Hl).
  destruct (addPackage_run w settings l name price credits
              (accepts_le 2 4 w Hacc ltac:(lia)) Hcur Hit)
    as (_ & Hnode1 & Hf1).
  fold w1 in Hnode1, Hf1.
  set (pkg := new_package (next_now w) name price credits) in *.
  assert (Hacc1 : accepts 2 w1) by (by apply (accepts_drop 2 2 w)).
  assert (Hrec : Forall (λ p, is_nullish p = false) (l ++ [pkg])).
  { apply Forall_app. split; [|by repeat constructor].
    eapply Forall_impl; [exact Hold | by intros p [Hp _]]. }
  assert (Hpk : packages_of (<["packages" := VArr (l ++ [pkg])]> settings)
                = VArr (l ++ [pkg]))
    by (unfold packages_of; by rewrite lookup_insert_eq).
  destruct (removePackage_run w1 _ (l ++ [pkg]) id Hacc1 Hnode1 Hpk Hrec)
    as (_ & Hnode2 & _).
  rewrite Hnode2, insert_insert_eq. do 3 f_equal.
  rewrite List.filter_app.
  assert (Hpkg : other_package id pkg = false).
  { unfold other_package.
    change (prop pkg "id") with (VStr id). simpl. by rewrite String.eqb_refl. }
  simpl. rewrite Hpkg, app_nil_r. clear -Hold.
  induction Hold as [|p l [_ Hp] _ IH]; [done|].
  simpl. apply other_package_spec in Hp. by rewrite Hp, IH.
Qed.

Lemma addPackage_then_removePackage_witness :
  node (run (removePackage ("pkg-" +:+ pretty (next_now settings_world)))
          (run (addPackage "Pro" 499 1000) settings_world).2).2
    "system_settings" =
  VObj (<["packages" := VArr [starter_pack]]> sample_settings).
Proof.
  assert (Hacc : accepts 4 settings_world) by constructor.
  assert (Hold : Forall (λ p, is_nullish p = false ∧
                              prop p "id" ≠ VStr ("pkg-" +:+ pretty (next_now settings_world)))
                   [starter_pack]).
  { repeat constructor. vm_compute. discriminate. }
  exact (addPackage_then_removePackage settings_world sample_settings
           [starter_pack] "Pro" 499 1000 Hacc eq_refl eq_refl Hold).
Defined.

(* ===================================================================== *)
(** ** Messages and subscriptions *)
(* ===================================================================== *)

Lemma run_toISOString_at (t : Z) (w : World) :
  run (toISOString t) w =
  (Returned (date_toISOString (platform w) t),
   set_log (log w ++ [ODateToISOString t]) w).
Proof. reflexivity. Qed.

Ltac run_steps :=
  repeat first
    [ rewrite run_bind
    | rewrite run_Date_now_at
    | rewrite run_toISOString_at
    | rewrite run_lift
    | progress cbv iota beta ].

(** X10: [sendInboxMessage] puts the new message in front.  On an
    existing user whose [inbox] can be iterated, the record stored is the
    record read with [inbox] the new message followed by the old ones; the
    message is unread, of type [TEXT], with the given text; the status
    names the user by [name] (["undefined"] for a user without one).  The
    user node is read twice. *)
Theorem sendInboxMessage_prepends
    (w : World) (userId text : string) (user : gmap string Value)
    (inbox : list Value) :
  accepts 3 w →
  node w (user_path userId) = VObj user →
  user !! "id" = Some (VStr userId) →
  iterate (inbox_of user) = inr inbox →
  let r := run (sendInboxMessage userId text) w in
  ∃ date : string,
    let msg := new_message (next_now w) text date in
    r.1 = Returned ("Message sent to " +:+
                    toString (default VUndef (user !! "name")) +:+ ".") ∧
    node r.2 (user_path userId) = VObj (<["inbox" := VArr (msg :: inbox)]> user) ∧
    prop msg "text" = VStr text ∧ prop msg "read" = VBool false ∧
    count_ops (λ o, match o with OGet _ => true | _ => false end)
      (issued (sendInboxMessage userId text) w) = 2%nat.
Proof.
  intros Hacc Hcur Hid Hin r. subst r.
  assert (H0 : fault 0 w = None) by (apply (accepts_fault 3); [done | lia]).
  assert (H1 : fault 1 w = None) by (apply (accepts_fault 3); [done | lia]).
  assert (H2 : fault 2 w = None) by (apply (accepts_fault 3); [done | lia]).
  eexists. cbv zeta.
  unfold issued, sendInboxMessage.
  rewrite run_bind, run_get by done. rewrite Hcur.
  simpl negb. cbv iota.
  set (w1 := after_remote (OGet (user_path userId)) w).
  run_steps.
  change (prop (VObj user) "inbox") with (default VUndef (user !! "inbox")).
  fold (inbox_of user). rewrite Hin. cbv iota beta.
  set (w4 := set_log _ (after_clock (after_clock w1))).
  assert (Hf4 : fault 0 w4 = None)
    by (change (fault 0 (after_remote (OGet (user_path userId)) w) = None);
        by rewrite fault_after_remote).
  assert (Hn4 : node w4 (user_path userId) ≠ VNull)
    by (change (node w (user_path userId) ≠ VNull); by rewrite Hcur).
  rewrite run_bind, (run_updateUser_found userId _ w4 Hf4 Hn4).
  change (node w4 (user_path userId)) with (node w (user_path userId)).
  change (fault 1 w4) with (fault 1 (after_remote (OGet (user_path userId)) w)).
  rewrite fault_after_remote, H2, Hcur. cbv iota beta.
  split; [reflexivity|]. split; [|split; [reflexivity|split; [reflexivity|]]].
  - cbn [snd run]. rewrite (node_saveUserToLive _ userId).
    + unfold merged_user, spread2, ownProps.
      rewrite <- insert_union_singleton_l. reflexivity.
    + apply merged_id; [done | by rewrite lookup_singleton_ne].
  - cbn [snd run]. subst w4 w1.
    cbn [log saveUserToLive set_rtdb after_remote set_faults set_log
         after_clock set_clock].
    rewrite <- !app_assoc, drop_app_length. reflexivity.
Qed.

Lemma sendInboxMessage_prepends_witness :
  ∃ msg : Value,
    node (run (sendInboxMessage "u1" "hello") sample_world).2 (user_path "u1") =
    VObj (<["inbox" := VArr [msg]]> alice) ∧
    prop msg "read" = VBool false.
Proof.
  assert (Hacc : accepts 3 sample_world) by constructor.
  destruct (sendInboxMessage_prepends sample_world "u1" "hello" alice []
              Hacc eq_refl eq_refl eq_refl)
    as (date & _ & Hnode & _ & Hread & _).
  eexists. split; [exact Hnode | exact Hread].
Defined.

Lemma run_Ret {A : Type} (a : A) (w : World) : run (Ret a) w = (Returned a, w).
Proof. reflexivity. Qed.

Lemma run_getDate_at (t : Z) (w : World) :
  run (getDate t) w =
  (Returned (date_getDate (platform w) t), set_log (log w ++ [ODateGetDate t]) w).
Proof. reflexivity. Qed.

Lemma run_setDate_at (t d : Z) (w : World) :
  run (setDate t d) w =
  (Returned (date_setDate (platform w) t d),
   set_log (log w ++ [ODateSetDate t d]) w).
Proof. reflexivity. Qed.

(** X11: [grantSubscription] on an existing user whose history can be
    iterated makes the user premium with the plan and level given, marks
    the grant as an admin's and puts a free history entry in front of the
    old ones.  The end date is the day of the month of now plus 7, 30 or
    365 days, by plan; for [LIFETIME] there is none: the record stored
    carries [subscriptionEndDate] as [undefined], whatever end date it had,
    and the history entry says ["LIFETIME"].  Every other field is as
    read. *)
Theorem grantSubscription_stores
    (w : World) (userId : string) (plan : Plan) (level : Level)
    (user : gmap string Value) (history : list Value) :
  accepts 3 w →
  node w (user_path userId) = VObj user →
  user !! "id" = Some (VStr userId) →
  iterate (history_of user) = inr history →
  let r := run (grantSubscription userId plan level) w in
  let iso := date_toISOString (platform w) <$> grant_end plan w in
  ∃ (stored : gmap string Value) (entry : Value),
    r.1 = Returned ("User " +:+ userId +:+ " updated.") ∧
    node r.2 (user_path userId) = VObj stored ∧
    stored !! "isPremium" = Some (VBool true) ∧
    stored !! "subscriptionTier" = Some (VStr (plan_str plan)) ∧
    stored !! "subscriptionLevel" = Some (VStr (level_str level)) ∧
    stored !! "grantedByAdmin" = Some (VBool true) ∧
    stored !! "subscriptionEndDate" =
      Some (match iso with Some s => VStr s | None => VUndef end) ∧
    stored !! "subscriptionHistory" = Some (VArr (entry :: history)) ∧
    prop entry "endDate" = VStr (default "LIFETIME" iso) ∧
    prop entry "isFree" = VBool true ∧
    (∀ k, k ∉ ["subscriptionTier"; "subscriptionLevel"; "subscriptionEndDate";
               "isPremium"; "subscriptionHistory"; "grantedByAdmin"] →
          stored !! k = user !! k).
Proof.
  intros Hacc Hcur Hid Hhist r iso. subst r iso.
  assert (H0 : fault 0 w = None) by (apply (accepts_fault 3); [done | lia]).
  assert (H1 : fault 1 w = None) by (apply (accepts_fault 3); [done | lia]).
  assert (H2 : fault 2 w = None) by (apply (accepts_fault 3); [done | lia]).
  unfold grantSubscription, grant_end.
  destruct plan; cbn [plan_days mbind option_bind fmap option_fmap option_map];
    repeat first
      [ rewrite run_bind | rewrite run_Date_now_at | rewrite run_toISOString_at
      | rewrite run_getDate_at | rewrite run_setDate_at | rewrite run_Ret
      | progress cbv iota beta ];
    (match goal with
     | |- context [run (get ?p) ?W] =>
         rewrite (run_get p W) by (change (fault 0 w = None); exact H0);
         change (node W p) with (node w p); rewrite Hcur
     end);
    simpl negb; cbv iota beta;
    rewrite run_bind, run_lift;
    change (prop (VObj user) "subscriptionHistory")
      with (default VUndef (user !! "subscriptionHistory"));
    fold (history_of user); rewrite Hhist; cbv iota beta;
    repeat first
      [ rewrite run_bind | rewrite run_toISOString_at | rewrite run_Ret
      | progress cbv iota beta ];
    (match goal with
     | |- context [run (updateUser userId ?u) ?W] =>
         assert (Hf : fault 0 W = None)
           by (change (fault 0 (after_remote (OGet (user_path userId)) w) = None);
               by rewrite fault_after_remote);
         assert (Hn : node W (user_path userId) ≠ VNull)
           by (change (node w (user_path userId) ≠ VNull); by rewrite Hcur);
         rewrite (run_updateUser_found userId u W Hf Hn);
         change (node W (user_path userId)) with (node w (user_path userId));
         change (fault 1 W)
           with (fault 1 (after_remote (OGet (user_path userId)) w));
         rewrite fault_after_remote, H2, Hcur
     end);
    cbv iota beta; cbn [fst snd];
    (eexists _, _; split; [reflexivity|]; split;
     [ apply node_saveUserToLive; apply merged_id; [exact Hid | reflexivity] |]);
    unfold merged_user, ownProps;
    (repeat split;
     try first [rewrite spread2_lookup; reflexivity | reflexivity]);
    intros k Hk; rewrite spread2_lookup;
    repeat (rewrite not_elem_of_cons in Hk; destruct Hk as [? Hk]);
    unfold list_to_map; cbn [foldr uncurry Datatypes.uncurry];
    rewrite !lookup_insert_ne, lookup_empty by done; reflexivity.
Qed.

Lemma grantSubscription_stores_witness :
  ∃ stored : gmap string Value,
    node (run (grantSubscription "u1" LIFETIME ULTRA) sample_world).2
      (user_path "u1") = VObj stored ∧
    stored !! "subscriptionEndDate" = Some VUndef ∧
    stored !! "isPremium" = Some (VBool true).
Proof.
  assert (Hacc : accepts 3 sample_world) by constructor.
  destruct (grantSubscription_stores sample_world "u1" LIFETIME ULTRA alice []
              Hacc eq_refl eq_refl eq_refl)
    as (stored & entry & _ & Hnode & Hprem & _ & _ & _ & Hend & _).
  exists stored. split; [exact Hnode|]. split; [exact Hend | exact Hprem].
Defined.

Lemma run_update (path : string) (patch : gmap string Value) (w : World) :
  fault 0 w = None →
  run (update path patch) w =
  (Returned tt,
   set_rtdb (rtdb_update path patch) (after_remote (OUpdate path patch) w)).
Proof.
  intros Hf. unfold update, call. simpl. unfold remote. simpl.
  rewrite fault_0, Hf. reflexivity.
Qed.

(** X12: [approveRecoveryRequest] marks the request before it looks for
    the user.  When the user does not exist it throws the wrapped
    ["User not found"], and the request is stored as [RESOLVED] all the
    same; when the first call is rejected the error leaves as it is and
    nothing is written. *)
Theorem approveRecoveryRequest_marks_first (w : World) (requestId : string) :
  let r := run (approveRecoveryRequest requestId) w in
  (accepts 2 w → node w (user_path requestId) = VNull →
   r.1 = Thrown (new_Error "Failed to update user: User not found") ∧
   prop (node r.2 ("recovery_requests/" +:+ requestId)) "status"
     = VStr "RESOLVED") ∧
  (∀ e, fault 0 w = Some e → r.1 = Thrown e ∧ rtdb r.2 = rtdb w).
Proof.
  cbv zeta. unfold approveRecoveryRequest. split.
  - intros Hacc Hnone.
    assert (H0 : fault 0 w = None) by (apply (accepts_fault 2); [done | lia]).
    assert (H1 : fault 1 w = None) by (apply (accepts_fault 2); [done | lia]).
    rewrite run_bind, run_update by done. cbv iota beta.
    set (W := set_rtdb _ _).
    assert (Hf : fault 0 W = None)
      by (change (fault 0 (after_remote (OGet "") w) = None);
          by rewrite fault_after_remote).
    assert (Hn : node W (user_path requestId) = VNull).
    { unfold node, W. simpl. unfold rtdb_update.
      rewrite lookup_insert_ne; [exact Hnone|].
      unfold user_path. intros Heq. discriminate Heq. }
    rewrite run_bind, (run_updateUser_missing requestId _ W Hf Hn).
    split; [reflexivity|]. cbn [snd]. unfold node, W. simpl.
    unfold rtdb_update. rewrite lookup_insert_eq. simpl.
    rewrite lookup_union, lookup_singleton_eq.
    by destruct (children _ !! "status").
  - intros e Hf. rewrite run_bind.
    unfold update, call. simpl. unfold remote. simpl. rewrite fault_0, Hf. done.
Qed.

Lemma approveRecoveryRequest_marks_first_witness :
  prop (node (run (approveRecoveryRequest "nobody") sample_world).2
          "recovery_requests/nobody") "status" = VStr "RESOLVED".
Proof.
  assert (Hacc : accepts 2 sample_world) by constructor.
  destruct (approveRecoveryRequest_marks_first sample_world "nobody")
    as [Hmarks _].
  destruct (Hmarks Hacc eq_refl) as [_ Hstatus]. exact Hstatus.
Defined.

(** X13: [addUniversalVideo] calls [getChapterData], a name the file
    neither imports nor defines: the call throws a [ReferenceError] before
    anything is read or saved, whatever the title and the link. *)
Theorem addUniversalVideo_never_saves (w : World) (title url : string) :
  let r := run (addUniversalVideo title url) w in
  r.1 = Thrown (mkError "ReferenceError" "getChapterData is not defined") ∧
  issued (addUniversalVideo title url) w =
    [OGetChapterData "nst_universal_playlist"] ∧
  chapters r.2 = chapters w ∧ rtdb r.2 = rtdb w.
Proof.
  cbv zeta. repeat split. unfold issued. simpl. by rewrite drop_app_length.
Qed.

(* ===================================================================== *)
(** ** What the actions may touch *)
(* ===================================================================== *)

Lemma ops_all_try_catch {A : Type} (P : Op → Prop) (p : Proc A)
    (h : Error → Proc A) :
  ops_all P p → (∀ e, ops_all P (h e)) → ops_all P (try_catch p h).
Proof.
  intros Hp Hh. induction p as [a | e | o k IH]; simpl in *; auto.
  destruct Hp as [Ho Hk]. split; [done|]. intros r. apply IH, Hk.
Qed.

Lemma ops_all_fmap {A B : Type} (P : Op → Prop) (p : Proc A) (f : A → B) :
  ops_all P p → ops_all P (f <$> p).
Proof. intros Hp. apply ops_all_bind; [done|]. intros a. exact I. Qed.

Lemma ops_all_impl {A : Type} (P Q : Op → Prop) (p : Proc A) :
  (∀ o, P o → Q o) → ops_all P p → ops_all Q p.
Proof.
  intros HPQ. induction p as [a | e | o k IH]; simpl; auto.
  intros [Ho Hk]. split; auto.
Qed.

Ltac ops :=
  repeat match goal with
  | |- ops_all _ (mbind _ _) => apply ops_all_bind; [| intros ?]
  | |- ops_all _ (fmap _ _) => apply ops_all_fmap
  | |- ops_all _ (try_catch _ _) => apply ops_all_try_catch; [| intros ?]
  | |- ops_all _ (call _) => apply ops_all_call; reflexivity
  | |- ops_all _ (lift _) => apply ops_all_lift
  | |- ops_all _ (Ret _) => exact I
  | |- ops_all _ (Throw _) => exact I
  | |- ops_all _ (filterM _ _) => apply ops_all_filterM; intros ?
  | |- ops_all _ (mapM _ _) => apply ops_all_mapM; intros ?
  | |- ops_all _ (if ?c then _ else _) => destruct c
  | |- ops_all _ (match ?x with _ => _ end) => destruct x
  end.

Lemma ops_getSettings (P : Op → Prop) :
  P (OGet "system_settings") → ops_all P getSettings.
Proof.
  intros HP. unfold getSettings, get.
  apply ops_all_try_catch; [| intros e; exact I].
  apply ops_all_bind; [by apply ops_all_call|]. intros s. by destruct s.
Qed.

Lemma ops_updateUser (P : Op → Prop) (userId : string)
    (updates : gmap string Value) :
  P (OGet (user_path userId)) → (∀ u, P (OSaveUserToLive u)) →
  ops_all P (updateUser userId updates).
Proof.
  intros Hget Hsave. unfold updateUser, get, await_saveUserToLive.
  apply ops_all_try_catch; [| intros e; exact I].
  apply ops_all_bind; [by apply ops_all_call|]. intros s.
  destruct (negb _); [exact I|].
  apply ops_all_bind; [by apply ops_all_call | intros; exact I].
Qed.

Lemma ops_random_code (P : Op → Prop) (j : nat) (code : string) :
  P OMathRandom → ops_all P (random_code j code).
Proof.
  intros HP. revert code. induction j as [|j IH]; intros code; [exact I|].
  cbn [random_code]. apply ops_all_bind; [by apply ops_all_call|].
  intros r. apply IH.
Qed.

Lemma ops_gift_loop (kinds : list string) (amount : Z) (type : GiftType)
    (n : nat) (i : Z) (acc : list Value) :
  (∀ path v, within kinds (OSet path v) = true) →
  ops_all (λ o, within kinds o = true) (gift_loop amount type n i acc).
Proof.
  intros Hset. revert i acc. induction n as [|n IH]; intros i acc; [exact I|].
  cbn [gift_loop]. apply ops_all_bind; [by apply ops_random_code|].
  intros code. unfold_ops.
  apply ops_all_bind; [by apply ops_all_call|]. intros stamp.
  apply ops_all_bind; [ops|]. intros createdAt.
  apply ops_all_bind; [apply ops_all_call, Hset|]. intros _. apply IH.
Qed.

(** X14: each action of the registry writes through its own calls only.
    [deleteUser] is the only one that deletes a document or removes a
    node; the user actions write through [saveUserToLive] alone and the
    settings actions through [saveSystemSettings] alone; [scanUsers],
    [getRecentLogs], [addSubject] and [runAutoPilot] make no writing call
    on a remote store themselves.  This holds whatever the calls answer. *)
Theorem actions_write_within_footprint (DEFAULT_SUBJECTS : Value) (a : Action) :
  ops_all (λ o, within (footprint a) o = true)
    (ActionRegistry DEFAULT_SUBJECTS a).
Proof.
  destruct a; cbn [ActionRegistry footprint]; apply ops_all_fmap;
    try (apply ops_updateUser; [reflexivity | intros; reflexivity]).
  - unfold deleteUser. unfold_ops. ops.
  - unfold grantSubscription. unfold_ops. ops;
      try (apply ops_updateUser; [reflexivity | intros; reflexivity]).
  - unfold broadcastMessage. unfold_ops.
    apply ops_all_bind; [by apply ops_getSettings | intros s]. ops.
  - unfold sendInboxMessage. unfold_ops. ops.
    apply ops_updateUser; [reflexivity | intros; reflexivity].
  - unfold createWeeklyTest. unfold_ops.
    apply ops_all_bind; [by apply ops_getSettings | intros s]. ops.
  - unfold scanUsers, getAllUsers, user_summary. unfold_ops. ops.
  - unfold getRecentLogs. unfold_ops. ops.
  - unfold addSubject, getItem_or. unfold_ops. ops.
  - unfold generateGiftCodes, getItem_or. cbv zeta. unfold_ops.
    apply ops_all_bind; [by apply ops_gift_loop | intros codes]. ops.
  - unfold updateSystemSettings. unfold_ops.
    apply ops_all_bind; [by apply ops_getSettings | intros s]. ops.
  - unfold toggleSetting, updateSystemSettings. unfold_ops.
    apply ops_all_bind; [by apply ops_getSettings | intros s]. ops.
  - unfold addPackage. unfold_ops.
    apply ops_all_bind; [by apply ops_getSettings | intros s]. ops.
  - unfold removePackage. unfold_ops.
    apply ops_all_bind; [by apply ops_getSettings | intros s]. ops.
  - unfold approveRecoveryRequest. unfold_ops. ops.
    apply ops_updateUser; [reflexivity | intros; reflexivity].
  - unfold addUniversalVideo. unfold_ops. ops.
  - unfold saveCustomBloggerPage. unfold_ops. ops.
  - unfold runAutoPilot. unfold_ops.
    apply ops_all_bind; [by apply ops_getSettings | intros s]. ops.
Qed.

(* ===================================================================== *)
(** ** The reading actions *)
(* ===================================================================== *)

Lemma same_stores_refl (w : World) : same_stores w w.
Proof. by repeat split. Qed.

Lemma same_stores_trans (w1 w2 w3 : World) :
  same_stores w1 w2 → same_stores w2 w3 → same_stores w1 w3.
Proof.
  intros (?&?&?&?&?) (?&?&?&?&?). repeat split; congruence.
Qed.

Lemma perform_read_only (o : Op) (w : World) :
  is_read_only o = true → same_stores w (perform o (set_log (log w ++ [o]) w)).2.
Proof.
  destruct o; try discriminate; intros _; cbn [perform];
    unfold remote, pure_op;
    repeat match goal with
    | |- context [match ?x with _ => _ end] => destruct x
    end; by repeat split.
Qed.

Lemma run_read_only {A : Type} (p : Proc A) :
  ops_all (λ o, is_read_only o = true) p → ∀ w, same_stores w (run p w).2.
Proof.
  induction p as [a | e | o k IH]; intros Hp w;
    [apply same_stores_refl | apply same_stores_refl |].
  destruct Hp as [Ho Hk]. cbn [run].
  pose proof (perform_read_only o w Ho) as Hs.
  destruct (perform o _) as [r w']. cbn [snd] in Hs.
  eapply same_stores_trans; [exact Hs | apply IH, Hk].
Qed.

(** X15: the reading functions change no data.  Whatever the calls
    answer, after [getAllUsers], [getSettings], [scanUsers] and
    [getRecentLogs] the realtime database, both Firestore collections, the
    chapter data and [localStorage] are what they were. *)
Theorem readers_change_nothing (w : World) (filter : UserFilter)
    (limit : option Z) :
  same_stores w (run getAllUsers w).2 ∧
  same_stores w (run getSettings w).2 ∧
  same_stores w (run (scanUsers filter) w).2 ∧
  same_stores w (run (getRecentLogs limit) w).2.
Proof.
  split; [| split; [| split]]; apply run_read_only.
  - unfold getAllUsers. unfold_ops. ops.
  - by apply ops_getSettings.
  - unfold scanUsers, getAllUsers, user_summary. unfold_ops. ops.
  - unfold getRecentLogs. unfold_ops. ops.
Qed.

Lemma run_getAllUsers (w : World) :
  fault 0 w = None →
  run getAllUsers w =
  (Returned (users_of w), after_remote (OGetDocs (collection "users")) w).
Proof.
  intros Hf. unfold getAllUsers. rewrite run_try_catch.
  unfold getDocs. rewrite (run_call (OGetDocs (collection "users"))).
  cbn [perform]. unfold run_query, remote.
  cbn. rewrite fault_0, Hf. reflexivity.
Qed.

Lemma run_getAllUsers_rejected (w : World) (e : Error) :
  fault 0 w = Some e →
  (run getAllUsers w).1 = Returned [] ∧
  console (run getAllUsers w).2 =
    console w ++ ["Error fetching users: " +:+ message e].
Proof.
  intros Hf. unfold getAllUsers. rewrite run_try_catch.
  unfold getDocs. rewrite (run_call (OGetDocs (collection "users"))).
  cbn [perform]. unfold run_query, remote.
  cbn. rewrite fault_0, Hf. split; reflexivity.
Qed.

(** Summaries of records that are objects are made without any call. *)
Lemma run_summaries (xs : list Value) (w : World) :
  Forall (λ x, is_nullish x = false) xs →
  run (mapM user_summary xs) w = (Returned (summary_of <$> xs), w).
Proof.
  intros Hall. induction Hall as [|x xs Hx _ IH]; [reflexivity|].
  assert (Hget : getProp x "id" = inr (prop x "id")) by (by destruct x).
  cbn [mapM]. rewrite run_bind. unfold user_summary at 1. rewrite Hget.
  cbn [lift mbind proc_bind bind run]. rewrite run_bind, IH. reflexivity.
Qed.

Lemma Forall_filter_keep {A : Type} (P : A → Prop) (f : A → bool) (l : list A) :
  Forall P l → Forall P (List.filter f l).
Proof.
  intros H. apply List.Forall_forall. intros x Hx.
  apply List.filter_In in Hx as [Hx _].
  rewrite List.Forall_forall in H. by apply H.
Qed.

Lemma filter_lengths {A : Type} (f : A → bool) (l : list A) :
  (length (List.filter f l) + length (List.filter (λ x, negb (f x)) l))%nat
  = length l.
Proof.
  induction l as [|x l IH]; [reflexivity|]. cbn [List.filter].
  destruct (f x); cbn [negb length]; lia.
Qed.

(** X16: when the fetch of the users is answered and every document
    holds a record, [scanUsers] gives the summaries of the users in the
    order fetched: of all of them for [ALL], of those whose [isPremium] is
    truthy for [PREMIUM], of the others for [FREE].  So every user is in
    exactly one of [PREMIUM] and [FREE], and their sizes add up to that of
    [ALL]. *)
Theorem scanUsers_partitions (w : World) :
  fault 0 w = None →
  Forall (λ u, is_nullish u = false) (users_of w) →
  let all := (run (scanUsers ALL) w).1 in
  let premium := (run (scanUsers PREMIUM) w).1 in
  let free := (run (scanUsers FREE) w).1 in
  all = Returned (summary_of <$> users_of w) ∧
  premium = Returned (summary_of <$> List.filter is_premium (users_of w)) ∧
  free = Returned (summary_of <$>
                     List.filter (λ u, negb (is_premium u)) (users_of w)) ∧
  ∀ a p f, all = Returned a → premium = Returned p → free = Returned f →
    (length p + length f)%nat = length a.
Proof.
  intros Hf Hall all premium free.
  assert (Ha : all = Returned (summary_of <$> users_of w)).
  { subst all. unfold scanUsers. rewrite run_bind, run_getAllUsers by done.
    rewrite run_bind, run_Ret, run_summaries by done. reflexivity. }
  assert (Hp : premium =
            Returned (summary_of <$> List.filter is_premium (users_of w))).
  { subst premium. unfold scanUsers. rewrite run_bind, run_getAllUsers by done.
    rewrite run_bind, (run_filterM_prop "isPremium" truthy) by done.
    rewrite run_summaries by (by apply Forall_filter_keep). reflexivity. }
  assert (Hfr : free = Returned (summary_of <$>
            List.filter (λ u, negb (is_premium u)) (users_of w))).
  { subst free. unfold scanUsers. rewrite run_bind, run_getAllUsers by done.
    rewrite run_bind,
      (run_filterM_prop "isPremium" (λ p, negb (truthy p))) by done.
    rewrite run_summaries by (by apply Forall_filter_keep). reflexivity. }
  repeat split; try done.
  intros a p f Ea Ep Ef. rewrite Ha in Ea. rewrite Hp in Ep. rewrite Hfr in Ef.
  injection Ea as <-. injection Ep as <-. injection Ef as <-.
  rewrite !length_fmap. apply filter_lengths.
Qed.

Lemma scanUsers_partitions_witness :
  (run (scanUsers PREMIUM) two_users_world).1 =
    Returned (summary_of <$> List.filter is_premium (users_of two_users_world)) ∧
  length (List.filter is_premium (users_of two_users_world)) = 1%nat.
Proof.
  split; [| reflexivity].
  apply (scanUsers_partitions two_users_world);
    [reflexivity | by repeat constructor].
Defined.

(** X17: a failed fetch looks like an empty user base.  When the fetch of
    the users is rejected, [scanUsers] returns the empty list for every
    filter instead of throwing; the error only reaches the console. *)
Theorem scanUsers_hides_a_failed_fetch (w : World) (filter : UserFilter)
    (e : Error) :
  fault 0 w = Some e →
  (run (scanUsers filter) w).1 = Returned [] ∧
  In ("Error fetching users: " +:+ message e)
     (console (run (scanUsers filter) w).2).
Proof.
  intros Hf. destruct (run_getAllUsers_rejected w e Hf) as [Hr Hc].
  unfold scanUsers. rewrite run_bind.
  destruct (run getAllUsers w) as [[users | e'] w1] eqn:E;
    cbn [fst snd] in Hr, Hc; [| discriminate].
  injection Hr as ->.
  destruct filter; cbn; rewrite Hc; (split; [reflexivity |]);
    apply in_or_app; right; by left.
Qed.

Lemma scanUsers_hides_a_failed_fetch_witness :
  (run (scanUsers ALL)
     (set_faults [Some (new_Error "permission denied")] two_users_world)).1
  = Returned [].
Proof.
  apply (scanUsers_hides_a_failed_fetch
           (set_faults [Some (new_Error "permission denied")] two_users_world)
           ALL (new_Error "permission denied")).
  reflexivity.
Defined.

(* ===================================================================== *)
(** ** [addSubject] *)
(* ===================================================================== *)

Lemma run_getItem_or_pool (w : World) :
  run (getItem_or "nst_custom_subjects_pool" "{}") w =
  (Returned (pool_text w),
   set_log (log w ++ [OLsGetItem "nst_custom_subjects_pool"]) w).
Proof. reflexivity. Qed.

(** X18: [addSubject] works on the browser's [localStorage] alone.  When
    the stored pool parses, the pool written back holds the new subject
    under the lower-cased name without white space, every other custom
    subject as stored, and every default subject a custom one does not
    hide; the realtime database and the Firestore collections are not
    touched and no remote call is made, so a rejected call cannot make it
    fail. *)
Theorem addSubject_is_local (DEFAULT_SUBJECTS : Value) (w : World)
    (name : string) (customPool : Value) :
  JSON_parse (platform w) (pool_text w) = Some customPool →
  let id := strip_spaces (toLowerCase name) in
  let r := run (addSubject DEFAULT_SUBJECTS name) w in
  r.1 = Returned ("Subject " +:+ name +:+ " added locally.") ∧
  (∃ pool : gmap string Value,
     localStorage r.2 =
       <["nst_custom_subjects_pool" := JSON_stringify (platform w) (VObj pool)]>
         (localStorage w) ∧
     (∃ subject, pool !! id = Some subject ∧
        prop subject "id" = VStr id ∧ prop subject "name" = VStr name) ∧
     ∀ k, k ≠ id →
       pool !! k = match ownProps customPool !! k with
                   | Some v => Some v
                   | None => ownProps DEFAULT_SUBJECTS !! k
                   end) ∧
  rtdb r.2 = rtdb w ∧ users_docs r.2 = users_docs w ∧
  faults r.2 = faults w ∧
  Forall (λ o, is_remote o = false) (issued (addSubject DEFAULT_SUBJECTS name) w).
Proof.
  intros Hparse id r. subst r. unfold issued, addSubject. cbv zeta.
  rewrite !run_bind, !run_getItem_or_pool.
  unfold JSON_parse_, JSON_stringify_, localStorage_setItem.
  rewrite !run_bind, !(run_call (OJsonParse (pool_text w))).
  cbn [perform platform set_log]. rewrite Hparse.
  rewrite !run_bind. cbn.
  split; [reflexivity|]. split.
  - eexists. split; [reflexivity|]. split.
    + eexists. split; [apply lookup_insert_eq|]. split; reflexivity.
    + intros k Hk. rewrite lookup_insert_ne by done.
      rewrite spread2_lookup. reflexivity.
  - repeat split; try reflexivity.
    rewrite <- !app_assoc, drop_app_length. by repeat constructor.
Qed.

Lemma addSubject_is_local_witness :
  (run (addSubject (VObj ∅) "Social Science") empty_world).1 =
    Returned "Subject Social Science added locally." ∧
  strip_spaces (toLowerCase "Social Science") = "socialscience".
Proof.
  split; [| reflexivity].
  apply (addSubject_is_local (VObj ∅) empty_world "Social Science" (VObj ∅)).
  reflexivity.
Defined.

Lemma pool_text_set_log (l : list Op) (w : World) :
  pool_text (set_log l w) = pool_text w.
Proof. reflexivity. Qed.

Lemma run_JSON_parse (s : string) (w : World) :
  run (JSON_parse_ s) w =
  (match JSON_parse (platform w) s with
   | Some v => Returned v
   | None => Thrown (mkError "SyntaxError" "Unexpected token in JSON")
   end, set_log (log w ++ [OJsonParse s]) w).
Proof.
  unfold JSON_parse_, call. cbn. by destruct (JSON_parse (platform w) s).
Qed.

(** X19: a stored pool that is not JSON blocks [addSubject].  It throws
    the [SyntaxError] of [JSON.parse] and leaves [localStorage] as it
    was, so the next call meets the same text and fails the same way. *)
Theorem addSubject_stuck_on_corrupt_pool (DEFAULT_SUBJECTS : Value) (w : World)
    (name name' : string) :
  JSON_parse (platform w) (pool_text w) = None →
  let r := run (addSubject DEFAULT_SUBJECTS name) w in
  r.1 = Thrown (mkError "SyntaxError" "Unexpected token in JSON") ∧
  localStorage r.2 = localStorage w ∧
  (run (addSubject DEFAULT_SUBJECTS name') r.2).1 =
    Thrown (mkError "SyntaxError" "Unexpected token in JSON").
Proof.
  intros Hparse r. subst r. unfold addSubject. cbv zeta.
  rewrite !run_bind, !run_getItem_or_pool, !run_bind, !run_JSON_parse.
  cbn [platform set_log]. rewrite Hparse. cbn [fst snd].
  split; [reflexivity|]. split; [reflexivity|].
  rewrite ?run_JSON_parse.
  cbn [platform set_log]. rewrite ?pool_text_set_log, Hparse. reflexivity.
Qed.

Lemma addSubject_stuck_on_corrupt_pool_witness :
  (run (addSubject (VObj ∅) "Physics") corrupt_world).1 =
    Thrown (mkError "SyntaxError" "Unexpected token in JSON").
Proof.
  assert (H : JSON_parse (platform corrupt_world) (pool_text corrupt_world)
              = None) by (vm_compute; reflexivity).
  exact (proj1 (addSubject_stuck_on_corrupt_pool (VObj ∅) corrupt_world
                  "Physics" "Physics" H)).
Defined.

(* ===================================================================== *)
(** ** Logs and roles *)
(* ===================================================================== *)

Lemma take_last_length {A : Type} (n : Z) (l : list A) :
  (0 < n)%Z → (Z.of_nat (length (take_last n l)) <= n)%Z.
Proof. intros Hn. unfold take_last. rewrite length_drop. lia. Qed.

(** X20: [getRecentLogs] asks for the last [limit] entries of the logs in
    descending order of timestamp (20 when no limit is given).  When the
    fetch is answered it returns at most [limit] records: the end of that
    order, so with more logs than [limit] the first ones of the order,
    the newest, are left out.  With a limit of 0 or less the query is
    refused before any fetch and the result is the empty list. *)
Theorem getRecentLogs_takes_the_end (w : World) (limit : option Z) :
  fault 0 w = None →
  let n := default 20 limit in
  let r := run (getRecentLogs limit) w in
  ((0 < n)%Z →
   r.1 = Returned (drop (length (ai_interactions w) - Z.to_nat n)
                     (ai_interactions w)) ∧
   ∀ logs, r.1 = Returned logs → (Z.of_nat (length logs) <= n)%Z) ∧
  ((n <= 0)%Z → r.1 = Returned [] ∧ faults r.2 = faults w).
Proof.
  intros Hf n r. subst n r. unfold getRecentLogs. cbv zeta.
  rewrite run_try_catch. unfold getDocs.
  rewrite (run_call (OGetDocs (mkQuery "ai_interactions"
                                 (Some ("timestamp", "desc"))
                                 (Some (default 20 limit))))).
  cbn [perform]. unfold run_query, remote. cbn.
  rewrite fault_0, Hf. split.
  - intros Hn. assert (E : Z.leb (default 20 limit) 0 = false) by lia.
    rewrite E. cbn. split; [reflexivity|].
    intros logs [= <-]. by apply take_last_length.
  - intros Hn. assert (E : Z.leb (default 20 limit) 0 = true) by lia.
    rewrite E. cbn. by split.
Qed.

Lemma getRecentLogs_takes_the_end_witness :
  (run (getRecentLogs (Some 1)) logs_world).1 = Returned [VStr "oldest"].
Proof.
  destruct (getRecentLogs_takes_the_end logs_world (Some 1) eq_refl)
    as [[H _] _]; [reflexivity|]. exact H.
Defined.

(** X21: [demoteSubAdmin] does not undo [promoteSubAdmin].  After the
    two, the user has the role [STUDENT], is no sub-admin and has no
    permissions, whatever role and permissions the record had before the
    promotion; every other field is as it was. *)
Theorem promote_then_demote_is_student
    (w : World) (userId : string) (current : gmap string Value) :
  accepts 4 w →
  node w (user_path userId) = VObj current →
  current !! "id" = Some (VStr userId) →
  let w' := (run (demoteSubAdmin userId) (run (promoteSubAdmin userId) w).2).2 in
  ∃ record : gmap string Value,
    node w' (user_path userId) = VObj record ∧
    record !! "role" = Some (VStr "STUDENT") ∧
    record !! "isSubAdmin" = Some (VBool false) ∧
    record !! "permissions" = Some (VArr []) ∧
    ∀ k, k ≠ "role" → k ≠ "isSubAdmin" → k ≠ "permissions" →
      record !! k = current !! k.
Proof.
  intros Hacc Hcur Hid w'. subst w'. unfold promoteSubAdmin, demoteSubAdmin.
  set (up := list_to_map [("role", VStr "SUB_ADMIN"); ("isSubAdmin", VBool true);
                          ("permissions", VArr [VStr "MANAGE_SUBS"])]
             : gmap string Value).
  set (down := list_to_map [("role", VStr "STUDENT"); ("isSubAdmin", VBool false);
                            ("permissions", VArr [])]
               : gmap string Value).
  assert (Hup : ∀ k, k ≠ "role" → k ≠ "isSubAdmin" → k ≠ "permissions" →
                up !! k = None).
  { intros k H1 H2 H3. subst up. cbn [list_to_map foldr uncurry fst snd].
    by rewrite !lookup_insert_ne, lookup_empty by done. }
  assert (Hdown : ∀ k, k ≠ "role" → k ≠ "isSubAdmin" → k ≠ "permissions" →
                  down !! k = None).
  { intros k H1 H2 H3. subst down. cbn [list_to_map foldr uncurry fst snd].
    by rewrite !lookup_insert_ne, lookup_empty by done. }
  destruct (updateUser_stores w userId up current
              (accepts_le 2 4 w Hacc ltac:(lia)) Hcur Hid
              (Hup "id" ltac:(done) ltac:(done) ltac:(done)))
    as (_ & Hnode1 & _ & Hf1).
  set (w1 := (run (updateUser userId up) w).2) in *.
  assert (Hacc1 : accepts 2 w1) by (by apply (accepts_drop 2 2 w)).
  assert (Hid1 : spread2 current up !! "id" = Some (VStr userId))
    by (by rewrite spread2_lookup, Hup).
  destruct (updateUser_stores w1 userId down _ Hacc1 Hnode1 Hid1
              (Hdown "id" ltac:(done) ltac:(done) ltac:(done)))
    as (_ & Hnode2 & _ & _).
  exists (spread2 (spread2 current up) down). split; [exact Hnode2|].
  rewrite !spread2_lookup.
  split; [by vm_compute|]. split; [by vm_compute|]. split; [by vm_compute|].
  intros k H1 H2 H3. by rewrite !spread2_lookup, Hdown, Hup.
Qed.

Lemma promote_then_demote_is_student_witness :
  ∃ record : gmap string Value,
    node (run (demoteSubAdmin "u1") (run (promoteSubAdmin "u1") sample_world).2).2
      (user_path "u1") = VObj record ∧
    record !! "role" = Some (VStr "STUDENT").
Proof.
  assert (Hacc : accepts 4 sample_world) by constructor.
  destruct (promote_then_demote_is_student sample_world "u1" alice
              Hacc eq_refl eq_refl) as (record & Hnode & Hrole & _).
  exists record. split; [exact Hnode | exact Hrole].
Defined.

(* ===================================================================== *)
(** ** A rejected write in [generateGiftCodes] *)
(* ===================================================================== *)








(* ===================================================================== *)
(** ** The speech helpers *)
(* ===================================================================== *)

(** X23: [speakText] replaces whatever is queued.  With the speech API
    present, after the call the queue holds one utterance: the text
    given, pitch 1 and the rate given (1 when there is none); what was
    queued before is dropped, and the voice list is as it was.
    [stopSpeech] after it empties the queue. *)
Theorem speakText_replaces_the_queue (text : list N)
    (voice : option Speech.Voice) (rate : option Q) (lang_arg : option string)
    (w : Speech.Window) :
  Speech.supported w = true →
  let w' := Speech.speakText text voice rate lang_arg w in
  (∃ u, Speech.queue w' = [u] ∧ Speech.u_text u = text ∧
        Speech.u_pitch u = 1%Q ∧ Speech.u_rate u = default 1%Q rate) ∧
  Speech.voices w' = Speech.voices w ∧
  Speech.queue (Speech.stopSpeech w') = [].
Proof.
  intros Hsup w'. subst w'. unfold Speech.speakText, Speech.stopSpeech.
  rewrite Hsup. cbn [negb].
  destruct voice as [v|]; cbn; rewrite Hsup.
  - split; [eexists; repeat split|]. split; reflexivity.
  - unfold Speech.auto_select.
    destruct (Speech.pick_voice text (Speech.voices w));
      (split; [eexists; repeat split|]); split; reflexivity.
Qed.

Lemma speakText_replaces_the_queue_witness :
  ∃ u, Speech.queue
         (Speech.speakText hello None None None
            (Speech.speakText namaste None None None (browser [hindi_android])))
       = [u] ∧ Speech.u_text u = hello.
Proof.
  destruct (speakText_replaces_the_queue hello None None None
              (Speech.speakText namaste None None None (browser [hindi_android]))
              eq_refl) as [(u & Hq & Ht & _) _].
  exists u. split; [exact Hq | exact Ht].
Defined.

(** X24: without the speech API the helpers do nothing but warn.
    [speakText] leaves the window as it is but for one warning,
    [stopSpeech] leaves it as it is, and [getAvailableVoices] resolves
    with the empty list at once, without a call, a handler or a timer; so
    [getCategorizedVoices] gives three empty categories. *)
Theorem without_speech_api (text : list N) (voice : option Speech.Voice)
    (rate : option Q) (lang_arg : option string) (w : Speech.Window) :
  Speech.supported w = false →
  Speech.speakText text voice rate lang_arg w =
    Speech.record (Speech.CWarn "Text-to-speech not supported.") w ∧
  Speech.stopSpeech w = w ∧
  Speech.getAvailableVoices w = (Speech.mkLoading (Some []) false [], w) ∧
  Speech.getCategorizedVoices (Speech.getAvailableVoices w).1 =
    Some (Speech.mkCategories [] [] []).
Proof.
  intros Hsup.
  unfold Speech.speakText, Speech.stopSpeech, Speech.getAvailableVoices.
  rewrite Hsup. by repeat split.
Qed.

Lemma without_speech_api_witness :
  Speech.queue (Speech.speakText hello None None None no_speech) = [] ∧
  Speech.calls (Speech.speakText hello None None None no_speech) =
    [Speech.CWarn "Text-to-speech not supported."].
Proof.
  destruct (without_speech_api hello None None None no_speech eq_refl)
    as (-> & _). split; reflexivity.
Defined.

(** X25: a voice passed to [speakText] is used as it is.  The voice list
    is not read, the utterance carries that voice and its lang (the [lang]
    argument, or ['en-US'] when there is none, if the voice's lang is
    empty), whatever the script of the text and whatever voices are
    installed. *)
Theorem speakText_explicit_voice (text : list N) (v : Speech.Voice)
    (rate : option Q) (lang_arg : option string) (w : Speech.Window) :
  Speech.supported w = true →
  let w' := Speech.speakText text (Some v) rate lang_arg w in
  Speech.spoken w' =
    Some (Speech.mkUtterance text (Some v)
            (if String.eqb (Speech.lang v) "" then default "en-US" lang_arg
             else Speech.lang v)
            (default 1%Q rate) 1) ∧
  ¬ In Speech.CGetVoices (drop (length (Speech.calls w)) (Speech.calls w')).
Proof.
  intros Hsup w'. subst w'. unfold Speech.speakText. rewrite Hsup. cbn.
  split; [reflexivity|].
  rewrite <- app_assoc, drop_app_length. cbn. intros [H | [H | []]]; discriminate.
Qed.

Lemma speakText_explicit_voice_witness :
  Speech.u_lang <$>
    Speech.spoken (Speech.speakText namaste (Some english_tagged) None None
                     (browser [hindi_android])) = Some "en-IN-x-compact".
Proof.
  destruct (speakText_explicit_voice namaste english_tagged None None
              (browser [hindi_android]) eq_refl) as [-> _].
  reflexivity.
Defined.






Lemma In_filter_iff {A : Type} (f : A → bool) (l : list A) (x : A) :
  In x (List.filter f l) ↔ In x l ∧ f x = true.
Proof. apply filter_In. Qed.

(** X27: what the three categories of [getCategorizedVoices] hold.
    Each is a part of the voice list.  A voice in [others] is in neither
    [hindi] nor [indianEnglish]; every installed voice whose lang includes
    ['hi'] is in [hindi] and every one whose lang is ['en-IN'] is in
    [indianEnglish]; the two are not disjoint: an ['en-IN'] voice whose
    name contains ['hindi'] is in both. *)
Theorem categories_overlap_but_others (vs : list Speech.Voice)
    (v : Speech.Voice) :
  let c := Speech.categorize vs in
  (In v (Speech.hindi c) ∨ In v (Speech.indianEnglish c) ∨ In v (Speech.others c)
   → In v vs) ∧
  (In v (Speech.others c) →
   ¬ In v (Speech.hindi c) ∧ ¬ In v (Speech.indianEnglish c)) ∧
  (In v vs → includes (Speech.lang v) "hi" = true → In v (Speech.hindi c)) ∧
  (In v vs → Speech.lang v = "en-IN" → In v (Speech.indianEnglish c)) ∧
  (In v vs → Speech.lang v = "en-IN" →
   includes (toLowerCase (Speech.name v)) "hindi" = true →
   In v (Speech.hindi c) ∧ In v (Speech.indianEnglish c)).
Proof.
  cbn. rewrite !In_filter_iff.
  unfold Speech.is_hindi, Speech.is_indianEnglish, Speech.is_other.
  split; [tauto|]. split; [|split; [|split]].
  - intros [_ H]. apply andb_true_iff in H as [H Hindia].
    apply andb_true_iff in H as [H Hen]. apply andb_true_iff in H as [Hhi Hhindi].
    apply negb_true_iff in Hindia, Hen, Hhi, Hhindi.
    rewrite Hindia, Hen, Hhi, Hhindi, andb_false_r. cbn.
    split; intros [_ H]; discriminate H.
  - intros Hin ->. by split.
  - intros Hin ->. by split.
  - intros Hin -> ->. rewrite orb_true_r. by repeat split.
Qed.

Lemma categories_overlap_but_others_witness :
  In hindi_en_IN (Speech.hindi (Speech.categorize [tamil_india; hindi_en_IN])) ∧
  In hindi_en_IN
    (Speech.indianEnglish (Speech.categorize [tamil_india; hindi_en_IN])).
Proof.
  apply (categories_overlap_but_others [tamil_india; hindi_en_IN] hindi_en_IN);
    [right; by left | reflexivity | reflexivity].
Defined.

Lemma event_keeps_settled (e : SpeechEvent)
    (s : Speech.Loading * Speech.Window) (vs : list Speech.Voice) :
  Speech.resolved s.1 = Some vs →
  Speech.resolved (speech_event e s).1 = Some vs.
Proof.
  destruct s as [l w]. cbn [fst snd]. intros H.
  destruct e; cbn [speech_event fst snd]; [| | done].
  - unfold Speech.on_voiceschanged. destruct (Speech.handler l); [|done].
    cbn. unfold Speech.resolve. by rewrite H.
  - unfold Speech.on_timeout. destruct (Speech.timers l); [done|].
    cbn. unfold Speech.resolve. cbn. by rewrite H.
Qed.

Lemma events_keep_settled (es : list SpeechEvent)
    (s : Speech.Loading * Speech.Window) (vs : list Speech.Voice) :
  Speech.resolved s.1 = Some vs →
  Speech.resolved (after_events es s).1 = Some vs.
Proof.
  revert s. induction es as [|e es IH]; intros s H; [done|].
  cbn [after_events fold_left]. apply IH. by apply event_keeps_settled.
Qed.

(** X28: the promise of [getAvailableVoices] settles once and for good.
    Started with the speech API present and no voice loaded, it is
    pending with the handler and one timer.  It settles at the first
    [voiceschanged] or at the timer, with the voices installed at that
    moment; once settled, no later event changes it.  So when the timer
    fires before any voice has arrived the result is the empty list, and
    voices that arrive later are not seen. *)
Theorem voices_promise_settles_once (w : Speech.Window)
    (es : list SpeechEvent) (vs : list Speech.Voice) :
  Speech.supported w = true → Speech.voices w = [] →
  let start := Speech.getAvailableVoices w in
  Speech.resolved start.1 = None ∧
  Speech.resolved (after_events (TimerFires :: es) start).1 = Some [] ∧
  Speech.resolved (after_events (VoicesChanged :: es) start).1 = Some [] ∧
  Speech.resolved (after_events (VoicesArrive vs :: VoicesChanged :: es) start).1
    = Some vs ∧
  Speech.resolved (after_events (VoicesArrive vs :: TimerFires :: es) start).1
    = Some vs.
Proof.
  intros Hsup Hvs start. subst start.
  unfold Speech.getAvailableVoices. rewrite Hsup. cbn. rewrite Hvs. cbn.
  split; [reflexivity|].
  repeat split; cbn [after_events fold_left]; apply events_keep_settled; cbn;
    by rewrite ?Hvs.
Qed.

Lemma voices_promise_settles_once_witness :
  Speech.resolved
    (after_events [TimerFires; VoicesArrive [hindi_android]; VoicesChanged]
       (Speech.getAvailableVoices (browser []))).1 = Some [].
Proof.
  exact (proj1 (proj2 (voices_promise_settles_once (browser [])
                         [VoicesArrive [hindi_android]; VoicesChanged] []
                         eq_refl eq_refl))).
Defined.
